(** * Term-Mail: the local mail store, the message normalizer and the
      HTML-to-text renderer, embedded from the Python sources

    Sources embedded:
    - [src/utils/html_parser.py]      ([html_to_text])
    - [src/providers/imap_provider.py] ([IMAPProvider._parse_email])
    - [src/providers/local_provider.py] ([LocalProvider])
    - [src/models/email.py], [src/models/folder.py] (the data classes)
    - [src/utils/local_email_manager.py] ([LocalEmailManager])

    Conventions.  A Python [str] is a [string]: a sequence of code points
    below 256.  A Python [int] is a [Z].  A [datetime] is a time in
    microseconds, naive or aware (with the offset of its time zone);
    comparing a naive with an aware one raises [TypeError].  A Python
    [dict] that the code uses as a record with fixed keys is a [Record]
    whose fields are optional (an absent key is [None]); a [dict] that
    the code uses as an insertion-ordered mapping is an association list
    with unique keys. *)

From Stdlib Require Import ZArith Ascii String List Sorted Permutation Lia Bool.
From stdpp Require Import base option list gmap strings sorting pretty.
Import ListNotations.
Set Warnings "-register-all".
Local Open Scope string_scope.
Local Open Scope list_scope.
Local Open Scope Z_scope.

(** ** Python [str] operations used by the sources *)

Module PyStr.

Definition code (c : ascii) : N := N_of_ascii c.

Definition LF : ascii := "010"%char.
Definition CR : ascii := "013"%char.
Definition DQUOTE : ascii := "034"%char.

(** [str.isspace] on one character (code points below 256). *)
Definition is_space (c : ascii) : bool :=
  let n := code c in
  ((9 <=? n) && (n <=? 13) || (28 <=? n) && (n <=? 32)
   || (n =? 133) || (n =? 160))%N.

(** The line boundaries of [str.splitlines] (code points below 256). *)
Definition is_linebreak (c : ascii) : bool :=
  let n := code c in
  ((10 <=? n) && (n <=? 13) || (28 <=? n) && (n <=? 30) || (n =? 133))%N.

(** Truth value of a [str]. *)
Definition truthy (s : string) : bool :=
  match s with EmptyString => false | String _ _ => true end.

Fixpoint lstrip (s : string) : string :=
  match s with
  | EmptyString => EmptyString
  | String c s' => if is_space c then lstrip s' else s
  end.

Fixpoint rstrip (s : string) : string :=
  match s with
  | EmptyString => EmptyString
  | String c s' =>
      match rstrip s' with
      | EmptyString => if is_space c then EmptyString else String c EmptyString
      | r => String c r
      end
  end.

(** [s.strip()] *)
Definition strip (s : string) : string := rstrip (lstrip s).

(** [s.splitlines()]: the lines of [s] without their line boundaries;
    a carriage return followed by a line feed is one boundary
    ([after_cr] tells that the last character read was a carriage
    return), and a final boundary opens no further line. *)
Fixpoint splitlines_from (after_cr : bool) (s : string) : list string :=
  match s with
  | EmptyString => []
  | String c s' =>
      if after_cr && Ascii.eqb c LF then splitlines_from false s'
      else if is_linebreak c then
        EmptyString :: splitlines_from (Ascii.eqb c CR) s'
      else
        match splitlines_from false s' with
        | [] => [String c EmptyString]
        | l :: ls => String c l :: ls
        end
  end.

Definition splitlines (s : string) : list string := splitlines_from false s.

(** [sep.join(parts)] *)
Fixpoint join (sep : string) (parts : list string) : string :=
  match parts with
  | [] => EmptyString
  | [p] => p
  | p :: ps => p +:+ sep +:+ join sep ps
  end.

Fixpoint newlines (k : nat) : string :=
  match k with O => EmptyString | S k' => String LF (newlines k') end.

(** What a maximal run of [k] line feeds becomes under
    [re.sub(r'\n{3,}', '\n\n', _)]. *)
Definition flush_run (k : nat) : string :=
  if (3 <=? k)%nat then newlines 2 else newlines k.

(** The scan of [re.sub(r'\n{3,}', '\n\n', text)]; [k] counts the line
    feeds of the run being read. *)
Fixpoint sub_run (k : nat) (s : string) : string :=
  match s with
  | EmptyString => flush_run k
  | String c s' =>
      if Ascii.eqb c LF then sub_run (S k) s'
      else flush_run k +:+ String c (sub_run 0 s')
  end.

Definition re_sub_newlines (s : string) : string := sub_run 0 s.

(** [str.lower] on one character: A-Z and the upper-case letters of
    Latin-1 (0xC0-0xDE but 0xD7) move up by 32. *)
Definition lower_char (c : ascii) : ascii :=
  let n := code c in
  if ((65 <=? n) && (n <=? 90)
      || (192 <=? n) && (n <=? 222) && negb (n =? 215))%N
  then ascii_of_N (n + 32) else c.

Fixpoint lower (s : string) : string :=
  match s with
  | EmptyString => EmptyString
  | String c s' => String (lower_char c) (lower s')
  end.

Fixpoint startswith (p s : string) : bool :=
  match p, s with
  | EmptyString, _ => true
  | String a p', String b s' => Ascii.eqb a b && startswith p' s'
  | String _ _, EmptyString => false
  end.

(** [sub in s] *)
Fixpoint contains (sub s : string) : bool :=
  startswith sub s ||
  match s with
  | EmptyString => false
  | String _ s' => contains sub s'
  end.

Fixpoint all_chars (p : ascii -> bool) (s : string) : bool :=
  match s with
  | EmptyString => true
  | String c s' => p c && all_chars p s'
  end.

Fixpoint has_char (c : ascii) (s : string) : bool :=
  match s with
  | EmptyString => false
  | String d s' => Ascii.eqb d c || has_char c s'
  end.

(** [x in l] for a list of [str]. *)
Definition mem (x : string) (l : list string) : bool :=
  existsb (String.eqb x) l.

(** [s.split(sep)] for a one-character [sep]. *)
Fixpoint split_char (sep : ascii) (s : string) : list string :=
  match s with
  | EmptyString => [EmptyString]
  | String c s' =>
      if Ascii.eqb c sep then EmptyString :: split_char sep s'
      else match split_char sep s' with
           | [] => [String c EmptyString]
           | p :: ps => String c p :: ps
           end
  end.

(** [s.replace(old, new)] for a one-character [old]. *)
Fixpoint replace_char (old : ascii) (new : string) (s : string) : string :=
  match s with
  | EmptyString => EmptyString
  | String c s' =>
      if Ascii.eqb c old then new +:+ replace_char old new s'
      else String c (replace_char old new s')
  end.

(** [s.lstrip(chars)], [s.rstrip(chars)] and [s.strip(chars)]: the
    characters of [chars] are removed from the ends. *)
Fixpoint lstrip_chars (chars s : string) : string :=
  match s with
  | EmptyString => EmptyString
  | String c s' => if has_char c chars then lstrip_chars chars s' else s
  end.

Fixpoint rstrip_chars (chars s : string) : string :=
  match s with
  | EmptyString => EmptyString
  | String c s' =>
      match rstrip_chars chars s' with
      | EmptyString => if has_char c chars then EmptyString else String c EmptyString
      | r => String c r
      end
  end.

Definition strip_chars (chars s : string) : string :=
  rstrip_chars chars (lstrip_chars chars s).

(** [s[:n]] for [n] not negative. *)
Fixpoint prefix (n : nat) (s : string) : string :=
  match n, s with
  | S n', String c s' => String c (prefix n' s')
  | _, _ => EmptyString
  end.

End PyStr.

(** ** The third-party HTML parser

    [html_to_text] calls [BeautifulSoup(html, 'html.parser')], which is
    not code of this repository.  [Soup] models it in two layers: the
    tokenizer, which is [html.parser.HTMLParser] of the standard library
    (Python 3.11) as Beautiful Soup drives it ([convert_charrefs=False],
    one [feed] of the whole markup and [close]), and the tree builder of
    Beautiful Soup 4 with the tree operations that [html_to_text] uses.

    The tokenizer raises [AssertionError] on a marked section [<![...]
    whose keyword it does not know; Beautiful Soup raises it again as
    [ParserRejectedMarkup], and [BeautifulSoup(...)] raises.  The tree
    builder raises [ValueError] on a decimal character reference of more
    digits than [int] converts.  [rejected] tells when; the tree is that
    of the markup read until then.

    Limits of the model.  A [str] holds code points below 256 only: of
    the named character references those of [entity] are read, and a
    numeric reference to a code point that such a [str] does not hold is
    kept as written.  Attributes are scanned and not kept.  Other
    exceptions of the library than the two above are not modelled. *)

Module Soup.

Import PyStr.

(** *** Characters and searches *)

Definition is_alpha (c : ascii) : bool :=
  let n := code c in
  ((65 <=? n) && (n <=? 90) || (97 <=? n) && (n <=? 122))%N.

Definition is_digit (c : ascii) : bool :=
  let n := code c in ((48 <=? n) && (n <=? 57))%N.

Definition is_alnum (c : ascii) : bool := is_alpha c || is_digit c.

Definition is_hex (c : ascii) : bool :=
  let n := code c in
  is_digit c || ((65 <=? n) && (n <=? 70) || (97 <=? n) && (n <=? 102))%N.

Definition is_quote (c : ascii) : bool :=
  Ascii.eqb c "'"%char || Ascii.eqb c DQUOTE.

(** The longest beginning of [s] whose characters satisfy [p], and the
    rest. *)
Fixpoint span (p : ascii -> bool) (s : string) : string * string :=
  match s with
  | String c s' =>
      if p c then let (a, b) := span p s' in (String c a, b)
      else (EmptyString, s)
  | EmptyString => (EmptyString, EmptyString)
  end.

(** [s.find(c)]: the text before the first [c] and the text after it. *)
Fixpoint find_char (c : ascii) (s : string) : option (string * string) :=
  match s with
  | EmptyString => None
  | String d s' =>
      if Ascii.eqb d c then Some (EmptyString, s')
      else match find_char c s' with
           | Some (a, b) => Some (String d a, b)
           | None => None
           end
  end.

(** [pattern.search(s)] for a pattern that [m] matches at the beginning
    of a text, returning the text after the match: the text before the
    leftmost match and the text after it. *)
Fixpoint search (m : string -> option string) (s : string)
  : option (string * string) :=
  match m s with
  | Some r => Some (EmptyString, r)
  | None =>
      match s with
      | EmptyString => None
      | String c s' =>
          match search m s' with
          | Some (a, b) => Some (String c a, b)
          | None => None
          end
      end
  end.

Fixpoint last_char (prev : ascii) (s : string) : ascii :=
  match s with EmptyString => prev | String c s' => last_char c s' end.

(** [s[n:]] *)
Fixpoint drop (n : nat) (s : string) : string :=
  match n, s with
  | S n', String _ s' => drop n' s'
  | _, _ => s
  end.

(** What was read of [s] when [rest] is left of it. *)
Definition read (s rest : string) : string :=
  prefix (String.length s - String.length rest) s.

(** [\s*>] *)
Definition space_gt (s : string) : option string :=
  match snd (span is_space s) with
  | String ">" r => Some r
  | _ => None
  end.

(** [commentclose]: [--\s*>] *)
Definition commentclose (s : string) : option string :=
  match s with
  | String "-" (String "-" r) => space_gt r
  | _ => None
  end.

(** [_msmarkedsectionclose]: [\]\s*>] *)
Definition msmarkedsectionclose (s : string) : option string :=
  match s with
  | String "]" r => space_gt r
  | _ => None
  end.

(** [_markedsectionclose]: [\]\s*\]\s*>] *)
Definition markedsectionclose (s : string) : option string :=
  match s with
  | String "]" r => msmarkedsectionclose (snd (span is_space r))
  | _ => None
  end.

(** The text after [p] at the beginning of [s], letter case apart. *)
Fixpoint after_prefix_ci (p s : string) : option string :=
  match p, s with
  | EmptyString, _ => Some s
  | String a p', String b s' =>
      if Ascii.eqb (lower_char b) a then after_prefix_ci p' s' else None
  | String _ _, EmptyString => None
  end.

(** The pattern of [set_cdata_mode]: [</\s*elem\s*>], letter case
    apart. *)
Definition cdata_close (elem : string) (s : string) : option string :=
  match s with
  | String "<" (String "/" r) =>
      match after_prefix_ci elem (snd (span is_space r)) with
      | Some r' => space_gt r'
      | None => None
      end
  | _ => None
  end.

(** *** The tokenizer *)

(** The parser's callbacks; [EReject] is the [AssertionError]. *)
Inductive event : Type :=
| EData (s : string)
| EStart (name : string)
| EStartEnd (name : string)
| EEnd (name : string)
| EOther                        (* handle_comment, handle_decl, handle_pi *)
| EUnknownDecl (data : string)
| EEntityRef (name : string)
| ECharRef (name : string)
| EReject.

(** What a [parse_...] method returns: the events and the text from the
    position returned on, with the element whose raw text is being read,
    if any; [-1]; or the exception. *)
Inductive parsed : Type :=
| Consumed (ev : list event) (rest : string) (cdata_elem : option string)
| Incomplete
| Rejected.

(** The characters that end a tag name: [[\t\n\r\f />\x00]]. *)
Definition ends_name (c : ascii) : bool :=
  let n := code c in
  ((n =? 9) || (n =? 10) || (n =? 12) || (n =? 13) || (n =? 32)
   || (n =? 47) || (n =? 62) || (n =? 0))%N.

(** [CDATA_CONTENT_ELEMENTS] *)
Definition cdata_content (name : string) : bool :=
  String.eqb name "script" || String.eqb name "style".

(** [(?:\s|/(?!>))*]: the last character read and the rest. *)
Fixpoint tag_tail (prev : ascii) (s : string) : ascii * string :=
  match s with
  | String c s' =>
      if is_space c then tag_tail c s'
      else if Ascii.eqb c "/"%char && negb (startswith ">" s') then tag_tail c s'
      else (prev, s)
  | EmptyString => (prev, s)
  end.

Definition bare (c : ascii) : bool := negb (Ascii.eqb c ">"%char || is_space c).

(** The value of an attribute in [attrfind_tolerant]: white space, one
    or more "=", white space, and a value in single quotes, in double
    quotes, or without quotes up to ">" or white space.  When a quote is
    not closed, the matcher goes back: white space before the quote, if
    any, ends an empty value; else the last of several "=" begins a
    value without quotes; else there is no value. *)
Definition attr_value (prev : ascii) (s : string) : option (ascii * string) :=
  let (ws1, r1) := span is_space s in
  let (eqs, r2) := span (Ascii.eqb "="%char) r1 in
  match eqs with
  | EmptyString => None
  | String _ eqs' =>
      let (ws2, r3) := span is_space r2 in
      match r3 with
      | String q r4 =>
          if is_quote q then
            match find_char q r4 with
            | Some (_, r5) => Some (q, r5)
            | None =>
                match ws2, eqs' with
                | String _ _, _ => Some (last_char q ws2, r3)
                | EmptyString, String _ _ =>
                    let (v, r5) := span bare r3 in Some (last_char q v, r5)
                | EmptyString, EmptyString => None
                end
            end
          else let (v, r5) := span bare r3 in
               Some (last_char (last_char "="%char ws2) v, r5)
      | EmptyString => Some (last_char "="%char ws2, r3)
      end
  end.

(** The character before an attribute name: a quote, white space or a
    slash (the look-behind of [attrfind_tolerant]). *)
Definition behind (c : ascii) : bool :=
  is_quote c || is_space c || Ascii.eqb c "/"%char.

Definition attr_start (c : ascii) : bool :=
  negb (is_space c || Ascii.eqb c "/"%char || Ascii.eqb c ">"%char).

Definition attr_rest (c : ascii) : bool :=
  negb (is_space c || Ascii.eqb c "/"%char || Ascii.eqb c "="%char
        || Ascii.eqb c ">"%char).

(** The attributes, [attrfind_tolerant] as often as it matches: the
    rest. *)
Fixpoint attributes (fuel : nat) (prev : ascii) (s : string) : string :=
  match fuel with
  | O => s
  | S fuel' =>
      match s with
      | String c s1 =>
          if behind prev && attr_start c then
            let (name, r1) := span attr_rest s1 in
            let prev1 := last_char c name in
            let '(prev2, r2) :=
              match attr_value prev1 r1 with
              | Some v => v
              | None => (prev1, r1)
              end in
            let '(prev3, r3) := tag_tail prev2 r2 in
            attributes fuel' prev3 r3
          else s
      | EmptyString => s
      end
  end.

(** [parse_starttag] with [check_for_whole_start_tag]; [s] begins with
    "<" and a letter. *)
Definition parse_starttag (s : string) : parsed :=
  match s with
  | String lt s0 =>
      let (name, r1) := span (fun c => negb (ends_name c)) s0 in
      let tag := lower name in
      let '(prev, r2) := tag_tail (last_char lt name) r1 in
      let r := attributes (String.length r2) prev r2 in
      match r with
      | String ">" r' =>
          Consumed [EStart tag] r' (if cdata_content tag then Some tag else None)
      | String "/" (String ">" r') => Consumed [EStartEnd tag] r' None
      | EmptyString => Incomplete
      | String c _ =>
          if is_alpha c || Ascii.eqb c "="%char || Ascii.eqb c "/"%char
          then Incomplete
          else Consumed [EData (read s r)] r None
      end
  | EmptyString => Incomplete
  end.

(** [parse_bogus_comment]; [s] begins with "<!" or "</". *)
Definition parse_bogus_comment (cd : option string) (s : string) : parsed :=
  match find_char ">" (drop 2 s) with
  | Some (_, r) => Consumed [EOther] r cd
  | None => Incomplete
  end.

Definition name_char (c : ascii) : bool :=
  is_alnum c || Ascii.eqb c "-"%char || Ascii.eqb c "."%char
  || Ascii.eqb c ":"%char || Ascii.eqb c "_"%char.

(** [endtagfind]: "</", white space, a name (a letter, then letters,
    digits and [-.:_]), white space and ">"; the name. *)
Definition endtagfind (s : string) : option string :=
  match snd (span is_space (drop 2 s)) with
  | String c r =>
      if is_alpha c then
        let (name, r') := span name_char r in
        match space_gt r' with
        | Some _ => Some (String c name)
        | None => None
        end
      else None
  | EmptyString => None
  end.

(** [parse_endtag]; [s] begins with "</". *)
Definition parse_endtag (cd : option string) (s : string) : parsed :=
  match find_char ">" (drop 1 s) with
  | None => Incomplete
  | Some (_, after_gt) =>
      match endtagfind s with
      | Some name =>
          let elem := lower name in
          match cd with
          | Some e =>
              if String.eqb elem e then Consumed [EEnd elem] after_gt None
              else Consumed [EData (read s after_gt)] after_gt cd
          | None => Consumed [EEnd elem] after_gt None
          end
      | None =>
          match cd with
          | Some _ => Consumed [EData (read s after_gt)] after_gt cd
          | None =>
              match drop 2 s with
              | String c r =>
                  if is_alpha c then
                    let (name, r1) := span (fun c => negb (ends_name c)) r in
                    match find_char ">" (snd (tag_tail c r1)) with
                    | Some (_, r2) => Consumed [EEnd (lower (String c name))] r2 None
                    | None => Incomplete
                    end
                  else if Ascii.eqb c ">"%char then Consumed [] r None
                  else parse_bogus_comment cd s
              | EmptyString => Incomplete
              end
          end
      end
  end.

(** [parse_comment]; [s] begins with "<!--". *)
Definition parse_comment (cd : option string) (s : string) : parsed :=
  match search commentclose (drop 4 s) with
  | Some (_, r) => Consumed [EOther] r cd
  | None => Incomplete
  end.

(** [parse_pi]; [s] begins with "<?". *)
Definition parse_pi (cd : option string) (s : string) : parsed :=
  match find_char ">" (drop 2 s) with
  | Some (_, r) => Consumed [EOther] r cd
  | None => Incomplete
  end.

Definition decl_name_char (c : ascii) : bool :=
  is_alnum c || Ascii.eqb c "-"%char || Ascii.eqb c "_"%char || Ascii.eqb c "."%char.

(** [parse_marked_section] with [_scan_name]; [s] begins with "<![". *)
Definition parse_marked_section (cd : option string) (s : string) : parsed :=
  let t := drop 3 s in
  match t with
  | EmptyString => Incomplete
  | String c r =>
      if is_alpha c then
        let (name, r1) := span decl_name_char r in
        match snd (span is_space r1) with
        | EmptyString => Incomplete
        | String _ _ =>
            let sectName := lower (String c name) in
            let close :=
              if mem sectName ["temp"; "cdata"; "ignore"; "include"; "rcdata"]
              then Some markedsectionclose
              else if mem sectName ["if"; "else"; "endif"]
                   then Some msmarkedsectionclose
                   else None in
            match close with
            | Some m =>
                match search m t with
                | Some (data, r2) => Consumed [EUnknownDecl data] r2 cd
                | None => Incomplete
                end
            | None => Rejected
            end
        end
      else Rejected
  end.

(** [parse_html_declaration]; [s] begins with "<!". *)
Definition parse_html_declaration (cd : option string) (s : string) : parsed :=
  if startswith "<!--" s then parse_comment cd s
  else if startswith "<![" s then parse_marked_section cd s
  else if String.eqb (lower (prefix 9 s)) "<!doctype" then
    match find_char ">" (drop 9 s) with
    | Some (_, r) => Consumed [EOther] r cd
    | None => Incomplete
    end
  else parse_bogus_comment cd s.

(** The end of the input in a construct that is not complete
    ([goahead], [if k < 0]). *)
Definition at_eof (s : string) : list event :=
  match s with
  | String "<" (String c r) =>
      if is_alpha c then []
      else if Ascii.eqb c "/"%char then
        match r with
        | EmptyString => [EData "</"]
        | String d _ => if is_alpha d then [] else [EOther]
        end
      else if startswith "<![CDATA[" s then [EUnknownDecl (drop 3 s)]
      else [EOther]
  | _ => []
  end.

(** One turn of the loop of [goahead]: go on at the rest, leave the
    loop, or raise. *)
Inductive turn : Type :=
| Go (ev : list event) (cdata_elem : option string) (rest : string)
| Break (ev : list event) (cdata_elem : option string) (rest : string)
| Raised.

(** At "<". *)
Definition at_lt (end_ : bool) (cd : option string) (s : string) : turn :=
  let r :=
    match s with
    | String _ (String c _) =>
        if is_alpha c then Some (parse_starttag s)
        else if Ascii.eqb c "/"%char then Some (parse_endtag cd s)
        else if startswith "<!--" s then Some (parse_comment cd s)
        else if Ascii.eqb c "?"%char then Some (parse_pi cd s)
        else if Ascii.eqb c "!"%char then Some (parse_html_declaration cd s)
        else Some (Consumed [EData "<"] (drop 1 s) cd)
    | _ => if end_ then Some (Consumed [EData "<"] (drop 1 s) cd) else None
    end in
  match r with
  | Some (Consumed ev rest cd') => Go ev cd' rest
  | Some Incomplete => if end_ then Go (at_eof s) cd EmptyString else Break [] cd s
  | Some Rejected => Raised
  | None => Break [] cd s
  end.

(** [charref]: [&#(?:[0-9]+|[xX][0-9a-fA-F]+)[^0-9a-fA-F]] on the text
    after "&#": the name, and the rest from the character after the
    name on. *)
Definition charref (s : string) : option (string * string) :=
  let (digits, r) := span is_digit s in
  match digits with
  | String _ _ =>
      match r with
      | String c _ => if is_hex c then None else Some (digits, r)
      | EmptyString => None
      end
  | EmptyString =>
      match s with
      | String x s' =>
          if Ascii.eqb x "x"%char || Ascii.eqb x "X"%char then
            let (hex, r') := span is_hex s' in
            match hex, r' with
            | String _ _, String _ _ => Some (String x hex, r')
            | _, _ => None
            end
          else None
      | EmptyString => None
      end
  end.

Definition ref_char (c : ascii) : bool :=
  is_alnum c || Ascii.eqb c "-"%char || Ascii.eqb c "."%char.

(** The longest beginning of [s] that a character which is neither a
    letter nor a digit follows in [s]: the matcher gives back
    characters of the name until one can end it. *)
Fixpoint give_back (s : string) : option (string * string) :=
  match s with
  | EmptyString => None
  | String c s' =>
      match give_back s' with
      | Some (a, b) => Some (String c a, b)
      | None => if is_alnum c then None else Some (EmptyString, s)
      end
  end.

(** [entityref] on the text after "&": a name (a letter, then letters,
    digits, "-" and ".") that a character which is neither a letter nor
    a digit follows; the name, and the rest from the character after
    the name on. *)
Definition entityref (s : string) : option (string * string) :=
  match s with
  | String c r =>
      if is_alpha c then
        let (name, r') := span ref_char r in
        match r' with
        | String _ _ => Some (String c name, r')
        | EmptyString =>
            match give_back name with
            | Some (a, b) => Some (String c a, b)
            | None => None
            end
        end
      else None
  | EmptyString => None
  end.

(** The text after a reference: a ";" right after the name belongs to
    it. *)
Definition after_ref (r : string) : string :=
  match r with String ";" r' => r' | _ => r end.

(** At "&". *)
Definition at_amp (end_ : bool) (cd : option string) (s : string) : turn :=
  match s with
  | String _ (String "#" r) =>
      match charref r with
      | Some (name, r') => Go [ECharRef name] cd (after_ref r')
      | None =>
          if has_char ";" s then Break [EData "&#"] cd r else Break [] cd s
      end
  | String _ r =>
      match entityref r with
      | Some (name, r') => Go [EEntityRef name] cd (after_ref r')
      | None =>
          match r with
          | String c r' =>
              if is_alpha c then
                match r' with
                | EmptyString => if end_ then Break [] cd r else Break [] cd s
                | String _ _ => Break [] cd s
                end
              else Go [EData "&"] cd r
          | EmptyString => Break [] cd s
          end
      end
  | EmptyString => Break [] cd s
  end.

Definition data (s : string) : list event :=
  match s with EmptyString => [] | String _ _ => [EData s] end.

(** After the loop: at the end of the input, what is left is text,
    unless raw text is being read. *)
Definition after_loop (end_ : bool) (cd : option string) (s : string)
  : list event * option string * string :=
  match cd with
  | None => if end_ then (data s, cd, EmptyString) else ([], cd, s)
  | Some _ => ([], cd, s)
  end.

Definition interesting_normal (c : ascii) : bool :=
  Ascii.eqb c "<"%char || Ascii.eqb c "&"%char.

(** [goahead(end)]: the events, the element whose raw text is being
    read, and the text left for a later call. *)
Fixpoint goahead (fuel : nat) (end_ : bool) (cd : option string) (s : string)
  : list event * option string * string :=
  match fuel with
  | O => ([], cd, s)
  | S fuel' =>
      match s with
      | EmptyString => ([], cd, s)
      | String _ _ =>
          let found :=
            match cd with
            | None => Some (span (fun c => negb (interesting_normal c)) s)
            | Some e =>
                match search (cdata_close e) s with
                | Some (text, _) => Some (text, drop (String.length text) s)
                | None => None
                end
            end in
          match found with
          | None => after_loop end_ cd s
          | Some (text, r) =>
              match r with
              | EmptyString => (data text, cd, r)
              | String c _ =>
                  let t := if Ascii.eqb c "<"%char then at_lt end_ cd r
                           else at_amp end_ cd r in
                  match t with
                  | Go ev cd' r' =>
                      let '(ev', cd'', kept) := goahead fuel' end_ cd' r' in
                      (data text ++ ev ++ ev', cd'', kept)
                  | Break ev cd' r' =>
                      let '(ev', cd'', kept) := after_loop end_ cd' r' in
                      (data text ++ ev ++ ev', cd'', kept)
                  | Raised => (data text ++ [EReject], cd, r)
                  end
              end
          end
      end
  end.

Definition is_reject (e : event) : bool :=
  match e with EReject => true | _ => false end.

(** [parser.feed(markup); parser.close()] *)
Definition feed (markup : string) : list event :=
  let '(ev1, cd, kept) := goahead (S (String.length markup)) false None markup in
  if existsb is_reject ev1 then ev1
  else let '(ev2, _, _) := goahead (S (String.length kept)) true cd kept in
       ev1 ++ ev2.

(** *** The tree builder *)

Inductive node : Type :=
| NText (s : string)        (* a NavigableString or a CData: text of [get_text] *)
| NOther                    (* any other string: a comment, a doctype, a
                               declaration, a processing instruction, the
                               text inside [string_containers] *)
| NTag (name : string) (children : list node).

(** [EntitySubstitution.HTML_ENTITY_TO_CHARACTER], the names of
    [html.entities.html5], for the code points that a [str] of this
    model holds. *)
Definition html5 : list (string * N) :=
  ([("AElig", 198); ("AMP", 38); ("Aacute", 193); ("Acirc", 194);
   ("Agrave", 192); ("Aring", 197); ("Atilde", 195); ("Auml", 196);
   ("COPY", 169); ("Ccedil", 199); ("Cedilla", 184); ("CenterDot", 183);
   ("DiacriticalAcute", 180); ("DiacriticalGrave", 96); ("Dot", 168);
   ("DoubleDot", 168); ("ETH", 208); ("Eacute", 201); ("Ecirc", 202);
   ("Egrave", 200); ("Euml", 203); ("GT", 62); ("Hat", 94);
   ("Iacute", 205); ("Icirc", 206); ("Igrave", 204); ("Iuml", 207);
   ("LT", 60); ("NewLine", 10); ("NonBreakingSpace", 160); ("Ntilde", 209);
   ("Oacute", 211); ("Ocirc", 212); ("Ograve", 210); ("Oslash", 216);
   ("Otilde", 213); ("Ouml", 214); ("PlusMinus", 177); ("QUOT", 34);
   ("REG", 174); ("THORN", 222); ("Tab", 9); ("Uacute", 218);
   ("Ucirc", 219); ("Ugrave", 217); ("UnderBar", 95); ("Uuml", 220);
   ("VerticalLine", 124); ("Yacute", 221); ("aacute", 225); ("acirc", 226);
   ("acute", 180); ("aelig", 230); ("agrave", 224); ("amp", 38);
   ("angst", 197); ("apos", 39); ("aring", 229); ("ast", 42);
   ("atilde", 227); ("auml", 228); ("brvbar", 166); ("bsol", 92);
   ("ccedil", 231); ("cedil", 184); ("cent", 162); ("centerdot", 183);
   ("circledR", 174); ("colon", 58); ("comma", 44); ("commat", 64);
   ("copy", 169); ("curren", 164); ("deg", 176); ("die", 168);
   ("div", 247); ("divide", 247); ("dollar", 36); ("eacute", 233);
   ("ecirc", 234); ("egrave", 232); ("equals", 61); ("eth", 240);
   ("euml", 235); ("excl", 33); ("frac12", 189); ("frac14", 188);
   ("frac34", 190); ("grave", 96); ("gt", 62); ("half", 189);
   ("iacute", 237); ("icirc", 238); ("iexcl", 161); ("igrave", 236);
   ("iquest", 191); ("iuml", 239); ("laquo", 171); ("lbrace", 123);
   ("lbrack", 91); ("lcub", 123); ("lowbar", 95); ("lpar", 40);
   ("lsqb", 91); ("lt", 60); ("macr", 175); ("micro", 181); ("midast", 42);
   ("middot", 183); ("nbsp", 160); ("not", 172); ("ntilde", 241);
   ("num", 35); ("oacute", 243); ("ocirc", 244); ("ograve", 242);
   ("ordf", 170); ("ordm", 186); ("oslash", 248); ("otilde", 245);
   ("ouml", 246); ("para", 182); ("percnt", 37); ("period", 46);
   ("plus", 43); ("plusmn", 177); ("pm", 177); ("pound", 163);
   ("quest", 63); ("quot", 34); ("raquo", 187); ("rbrace", 125);
   ("rbrack", 93); ("rcub", 125); ("reg", 174); ("rpar", 41); ("rsqb", 93);
   ("sect", 167); ("semi", 59); ("shy", 173); ("sol", 47); ("strns", 175);
   ("sup1", 185); ("sup2", 178); ("sup3", 179); ("szlig", 223);
   ("thorn", 254); ("times", 215); ("uacute", 250); ("ucirc", 251);
   ("ugrave", 249); ("uml", 168); ("uuml", 252); ("verbar", 124);
   ("vert", 124); ("yacute", 253); ("yen", 165); ("yuml", 255)])%N.

Fixpoint lookup_entity (name : string) (l : list (string * N)) : option N :=
  match l with
  | [] => None
  | (n, c) :: l' => if String.eqb n name then Some c else lookup_entity name l'
  end.

(** [BeautifulSoupHTMLParser.handle_entityref]: the text of a named
    reference; a name that is not known stands as it is written, without
    its ";". *)
Definition entity (name : string) : string :=
  match lookup_entity name html5 with
  | Some c => String (ascii_of_N c) EmptyString
  | None => "&" +:+ name
  end.

Definition digit_value (c : ascii) : N :=
  let n := code c in
  if is_digit c then (n - 48)%N
  else if (97 <=? n)%N then (n - 87)%N else (n - 55)%N.

Fixpoint int (base : N) (digits : string) (acc : N) : N :=
  match digits with
  | EmptyString => acc
  | String c s => int base s (acc * base + digit_value c)%N
  end.

(** [BeautifulSoupHTMLParser.handle_charref]: the text of a numeric
    reference.  A number below 256 is read as a byte of windows-1252,
    and as the code point itself where that has no character for it.
    Where the character is one that a [str] of this model does not
    hold, the reference stands as it is written. *)
Definition charref_text (name : string) : string :=
  let n :=
    match name with
    | String c r =>
        if Ascii.eqb c "x"%char || Ascii.eqb c "X"%char then int 16 r 0
        else int 10 name 0
    | EmptyString => 0%N
    end in
  if ((n <? 128) || (160 <=? n) && (n <? 256)
      || (n =? 129) || (n =? 141) || (n =? 143) || (n =? 144) || (n =? 157))%N
  then String (ascii_of_N n) EmptyString
  else "&#" +:+ name +:+ ";".

(** [sys.int_info.default_max_str_digits] *)
Definition default_max_str_digits : nat := 4300.

(** [int(name)] in [handle_charref] raises [ValueError] on a decimal
    number of more than [default_max_str_digits] digits; a hexadecimal
    number has no such limit. *)
Definition int_raises (name : string) : bool :=
  match name with
  | String c _ =>
      negb (Ascii.eqb c "x"%char || Ascii.eqb c "X"%char)
      && (default_max_str_digits <? String.length name)%nat
  | EmptyString => false
  end.

(** [HTMLTreeBuilder.empty_element_tags] *)
Definition empty_element_tags : list string :=
  ["area"; "base"; "br"; "col"; "embed"; "hr"; "img"; "input"; "keygen";
   "link"; "menuitem"; "meta"; "param"; "source"; "track"; "wbr";
   "basefont"; "bgsound"; "command"; "frame"; "image"; "isindex";
   "nextid"; "spacer"].

Definition preserve_whitespace_tags : list string := ["pre"; "textarea"].

(** [HTMLTreeBuilder.DEFAULT_STRING_CONTAINERS]: the text inside these
    tags gets a class of its own, which [get_text] leaves out. *)
Definition string_containers : list string :=
  ["rt"; "rp"; "style"; "script"; "template"].

(** The characters of [ASCII_SPACES]. *)
Definition is_ascii_space (c : ascii) : bool :=
  let n := code c in
  ((n =? 32) || (n =? 10) || (n =? 9) || (n =? 12) || (n =? 13))%N.

(** The builder: the text collected since the last tag, if any was
    (the chunks of [current_data], joined), the stack of open tags
    (innermost first, each with its children so far; the last entry is
    the document), and the empty-element tags closed on opening, whose
    later end tag is to be skipped. *)
Record builder : Type := {
  current_data : option string;
  tagStack : list (string * list node);
  already_closed_empty_element : list string
}.

Definition ROOT_TAG_NAME : string := "[document]".

Definition reset : builder :=
  {| current_data := None;
     tagStack := [(ROOT_TAG_NAME, [])];
     already_closed_empty_element := [] |}.

Definition add_child (n : node) (st : list (string * list node))
  : list (string * list node) :=
  match st with
  | (nm, ch) :: rest => (nm, ch ++ [n]) :: rest
  | [] => []
  end.

(** The class that [endData] is asked for. *)
Inductive string_class : Type := NavigableString | CData | Comment.

Definition open_tag_in (names : list string) (b : builder) : bool :=
  existsb (fun t => mem (fst t) names) (tagStack b).

(** [endData]: the collected text becomes one string of the current
    tag; a string of ASCII spaces only, outside [pre] and [textarea],
    shrinks to one line feed or one space. *)
Definition endData (cls : string_class) (b : builder) : builder :=
  match current_data b with
  | None => b
  | Some d =>
      let d' :=
        if all_chars is_ascii_space d && negb (open_tag_in preserve_whitespace_tags b)
        then (if has_char LF d then String LF EmptyString else " ")
        else d in
      let n :=
        match cls with
        | NavigableString =>
            if open_tag_in string_containers b then NOther else NText d'
        | CData => NText d'
        | Comment => NOther
        end in
      {| current_data := None;
         tagStack := add_child n (tagStack b);
         already_closed_empty_element := already_closed_empty_element b |}
  end.

(** [BeautifulSoup.handle_data] *)
Definition handle_data (s : string) (b : builder) : builder :=
  {| current_data := Some (default EmptyString (current_data b) +:+ s);
     tagStack := tagStack b;
     already_closed_empty_element := already_closed_empty_element b |}.

Definition with_stack (b : builder) (st : list (string * list node)) : builder :=
  {| current_data := current_data b;
     tagStack := st;
     already_closed_empty_element := already_closed_empty_element b |}.

Definition pushTag (name : string) (b : builder) : builder :=
  with_stack b ((name, []) :: tagStack b).

(** [popTag]: the innermost open tag is complete and becomes a child of
    the one below; the document itself is never popped. *)
Definition popTag (st : list (string * list node)) : list (string * list node) :=
  match st with
  | (nm, ch) :: (pn, pch) :: rest => (pn, pch ++ [NTag nm ch]) :: rest
  | _ => st
  end.

(** The open tags, the document excluded. *)
Fixpoint open_names (st : list (string * list node)) : list string :=
  match st with
  | [] | [_] => []
  | (nm, _) :: rest => nm :: open_names rest
  end.

(** [_popToTag]: when a tag of that name is open, pop up to and
    including the most recent one; otherwise nothing. *)
Fixpoint pop_until (name : string) (n : nat) (st : list (string * list node))
  : list (string * list node) :=
  match n with
  | O => st
  | S n' =>
      match st with
      | (nm, _) :: _ :: _ =>
          if String.eqb nm name then popTag st
          else pop_until name n' (popTag st)
      | _ => st
      end
  end.

Definition popToTag (name : string) (b : builder) : builder :=
  if String.eqb name ROOT_TAG_NAME then b
  else if mem name (open_names (tagStack b))
       then with_stack b (pop_until name (length (tagStack b)) (tagStack b))
       else b.

(** [BeautifulSoup.handle_starttag] / [handle_endtag] *)
Definition soup_starttag (name : string) (b : builder) : builder :=
  pushTag name (endData NavigableString b).

Definition soup_endtag (name : string) (b : builder) : builder :=
  popToTag name (endData NavigableString b).

Fixpoint remove_first (x : string) (l : list string) : list string :=
  match l with
  | [] => []
  | y :: l' => if String.eqb y x then l' else y :: remove_first x l'
  end.

(** [BeautifulSoupHTMLParser.handle_endtag] *)
Definition handle_endtag (name : string) (check_already_closed : bool)
           (b : builder) : builder :=
  if check_already_closed && mem name (already_closed_empty_element b)
  then {| current_data := current_data b;
          tagStack := tagStack b;
          already_closed_empty_element :=
            remove_first name (already_closed_empty_element b) |}
  else soup_endtag name b.

(** [BeautifulSoupHTMLParser.handle_starttag] *)
Definition handle_starttag (name : string) (handle_empty_element : bool)
           (b : builder) : builder :=
  let b1 := soup_starttag name b in
  if mem name empty_element_tags && handle_empty_element
  then let b2 := handle_endtag name false b1 in
       {| current_data := current_data b2;
          tagStack := tagStack b2;
          already_closed_empty_element :=
            already_closed_empty_element b2 ++ [name] |}
  else b1.

(** A string of a class of its own: [endData(); handle_data(data);
    endData(cls)]. *)
Definition handle_string (cls : string_class) (s : string) (b : builder) : builder :=
  endData cls (handle_data s (endData NavigableString b)).

(** The callbacks of [BeautifulSoupHTMLParser].  A tag written as an
    empty element, [<tag/>], is opened and closed at once.  The text of
    a CDATA section is text of the document; any other marked section
    is a declaration. *)
Definition handle (b : builder) (e : event) : builder :=
  match e with
  | EData s => handle_data s b
  | EStart name => handle_starttag name true b
  | EStartEnd name => handle_endtag name false (handle_starttag name false b)
  | EEnd name => handle_endtag name true b
  | EOther => handle_string Comment EmptyString b
  | EUnknownDecl d =>
      match after_prefix_ci "cdata[" d with
      | Some text => handle_string CData text b
      | None => handle_string Comment d b
      end
  | EEntityRef name => handle_data (entity name) b
  | ECharRef name => handle_data (charref_text name) b
  | EReject => b
  end.

Fixpoint pop_all (n : nat) (st : list (string * list node)) : list node :=
  match n with
  | O => match st with (_, ch) :: _ => ch | [] => [] end
  | S n' =>
      match st with
      | [(_, ch)] => ch
      | _ => pop_all n' (popTag st)
      end
  end.

(** The callbacks that raise: the parser's [AssertionError], and the
    [ValueError] of [int] in [handle_charref]. *)
Definition raises (e : event) : bool :=
  match e with
  | EReject => true
  | ECharRef name => int_raises name
  | _ => false
  end.

(** [BeautifulSoup(markup, 'html.parser')] raises. *)
Definition rejected (markup : string) : bool :=
  existsb raises (feed markup).

(** [BeautifulSoup(markup, 'html.parser')]: the children of the
    document, when the markup is not rejected. *)
Definition BeautifulSoup (markup : string) : list node :=
  let b := endData NavigableString (fold_left handle (feed markup) reset) in
  pop_all (length (tagStack b)) (tagStack b).

(** *** The tree operations that [html_to_text] uses *)

(** [for t in soup(names): t.decompose()] *)
Fixpoint decompose (names : list string) (n : node) : list node :=
  match n with
  | NTag nm ch =>
      if mem nm names then [] else [NTag nm (flat_map (decompose names) ch)]
  | _ => [n]
  end.

(** [for t in soup.find_all(name): t.replace_with(text)] *)
Fixpoint replace_with (name text : string) (n : node) : node :=
  match n with
  | NTag nm ch =>
      if String.eqb nm name then NText text
      else NTag nm (map (replace_with name text) ch)
  | _ => n
  end.

(** [for t in soup.find_all(name): t.append(text)] *)
Fixpoint append (name text : string) (n : node) : node :=
  match n with
  | NTag nm ch =>
      let ch' := map (append name text) ch in
      NTag nm (if String.eqb nm name then ch' ++ [NText text] else ch')
  | _ => n
  end.

(** [get_text()]: the strings of the tree, in document order. *)
Fixpoint get_text (n : node) : string :=
  match n with
  | NText s => s
  | NOther => EmptyString
  | NTag _ ch => fold_right (fun c acc => get_text c +:+ acc) EmptyString ch
  end.

Definition get_text_all (ns : list node) : string :=
  fold_right (fun c acc => get_text c +:+ acc) EmptyString ns.

End Soup.

(** ** [src/utils/html_parser.py] *)

(** Lines 42-49: strip every line, drop the empty ones, join, collapse
    runs of three or more line feeds, strip. *)
Definition clean_lines (text : string) : list string :=
  filter (fun line => PyStr.truthy line = true)
         (map PyStr.strip (PyStr.splitlines text)).

Definition clean_up (text : string) : string :=
  let text1 := PyStr.join (String PyStr.LF EmptyString) (clean_lines text) in
  let text2 := PyStr.re_sub_newlines text1 in
  PyStr.strip text2.

(** Lines 21-40: the text of the parsed document, scripts and styles
    removed, a line feed for every [br] and at the end of every [p] and
    [div]. *)
Definition soup_text (html_content : string) : string :=
  let soup := Soup.BeautifulSoup html_content in
  let soup := flat_map (Soup.decompose ["script"; "style"]) soup in
  let soup := map (Soup.replace_with "br" (String PyStr.LF EmptyString)) soup in
  let soup := map (Soup.append "p" (String PyStr.LF EmptyString)) soup in
  let soup := map (Soup.append "div" (String PyStr.LF EmptyString)) soup in
  Soup.get_text_all soup.

(** [html_to_text]: the text returned. *)
Definition html_to_text (html_content : string) : string :=
  if negb (PyStr.truthy html_content) then EmptyString
  else clean_up (soup_text html_content).

(** [html_to_text] has no handler: the call raises when
    [BeautifulSoup(...)] does.  Empty markup is not given to the
    parser. *)
Definition html_to_text_raises (html_content : string) : bool :=
  PyStr.truthy html_content && Soup.rejected html_content.


(** ** [src/models/email.py], [src/models/folder.py] *)

(** A [datetime] is naive (it has no time zone) or aware (it has a UTC
    offset).  [t] is its place on its time line, in microseconds: the
    wall-clock time of a naive value, the UTC time of an aware one.
    Python orders two naive values, and two aware values, by it, and
    raises [TypeError] when it is asked to order a naive and an aware
    one. *)
Inductive datetime : Type :=
| Naive (t : Z)
| Aware (t : Z) (utcoffset : Z).

Definition stamp (d : datetime) : Z :=
  match d with Naive t | Aware t _ => t end.

Definition is_aware (d : datetime) : bool :=
  match d with Naive _ => false | Aware _ _ => true end.

#[global] Instance datetime_eq_dec : EqDecision datetime.
Proof. solve_decision. Defined.

Definition bytes : Type := list Byte.byte.

Module Attachment.
Record t : Type := mk {
  filename : string;
  content_type : string;
  size : Z;
  data : option bytes;
  id : option string
}.
End Attachment.

Module Email.
Record t : Type := mk {
  id : string;
  subject : string;
  from_address : string;
  to_addresses : list string;
  cc_addresses : list string;
  bcc_addresses : list string;
  date : datetime;
  body_text : string;
  body_html : string;
  attachments : list Attachment.t;
  is_read : bool;
  is_starred : bool;
  thread_id : option string;
  folder : option string;
  raw_data : option (list (string * string))
}.
(** The property [from_name]: the name before the angle bracket,
    without white space and quotes around it, or else the part of the
    address before the first at sign. *)
Definition from_name (e : t) : string :=
  if PyStr.contains "<" (from_address e)
  then PyStr.strip_chars (String PyStr.DQUOTE EmptyString)
         (PyStr.strip (nth 0 (PyStr.split_char "<"%char (from_address e)) EmptyString))
  else nth 0 (PyStr.split_char "@"%char (from_address e)) EmptyString.

(** The property [from_email]: what follows the first angle bracket,
    without closing brackets around it, or else the address. *)
Definition from_email (e : t) : string :=
  if PyStr.contains "<" (from_address e)
  then PyStr.strip_chars ">"
         (nth 1 (PyStr.split_char "<"%char (from_address e)) EmptyString)
  else from_address e.

(** The property [preview]: the text body, or the HTML body when there
    is no text, cut to 97 characters and three dots when longer than
    100. *)
Definition preview (e : t) : string :=
  let preview_text :=
    if PyStr.truthy (body_text e) then body_text e else body_html e in
  if (100 <? String.length preview_text)%nat
  then PyStr.prefix 97 preview_text +:+ "..."
  else preview_text.
End Email.

Module Folder.
Record t : Type := mk {
  name : string;
  display_name : string;
  unread_count : Z;
  total_count : Z;
  id : option string
}.

(** The constructor with [__post_init__]: a blank display name is the
    name. *)
Definition init (name display_name : string) (id : option string)
           (unread_count total_count : Z) : t :=
  mk name (if PyStr.truthy display_name then display_name else name)
     unread_count total_count id.
End Folder.

(** ** Library functions taken as parameters

    The standard library's codecs and date functions are not code of this
    repository; the embedding is parametric in them.  [None] stands for
    the call raising. *)
Class PyLib : Type := {
  (** [payload.decode('utf-8', errors='ignore')] *)
  decode_utf8_ignore : bytes -> string;
  (** [datetime.fromisoformat] *)
  fromisoformat : string -> option datetime;
  (** [datetime.isoformat] *)
  isoformat : datetime -> string;
  (** [datetime.fromtimestamp(mktime_tz(parsedate_tz(s)))]; [None] when
      [parsedate_tz] returns nothing or a step raises. *)
  parsedate : string -> option datetime
}.

(** ** [src/providers/imap_provider.py]: the message normalizer *)

Module IMAPProvider.

(** A message as [email.message_from_bytes] returns it: its headers, its
    content type ([get_content_type()]), its file name
    ([get_filename()]), and either a payload, decoded
    ([get_payload(decode=True)]), or sub-parts. *)
Inductive message : Type :=
| Part (headers : list (string * string)) (content_type : string)
       (filename : option string) (payload : bytes)
| Multipart (headers : list (string * string)) (content_type : string)
            (filename : option string) (parts : list message).

Definition headers_of (m : message) : list (string * string) :=
  match m with Part h _ _ _ | Multipart h _ _ _ => h end.

Definition get_content_type (m : message) : string :=
  match m with Part _ c _ _ | Multipart _ c _ _ => c end.

Definition get_filename (m : message) : option string :=
  match m with Part _ _ f _ | Multipart _ _ f _ => f end.

Definition is_multipart (m : message) : bool :=
  match m with Part _ _ _ _ => false | Multipart _ _ _ _ => true end.

(** [get_payload(decode=True)]: nothing for a multipart. *)
Definition get_payload (m : message) : option bytes :=
  match m with Part _ _ _ p => Some p | Multipart _ _ _ _ => None end.

(** [msg.get(name)]: header names compare without case. *)
Fixpoint header_get (name : string) (h : list (string * string)) : option string :=
  match h with
  | [] => None
  | (k, v) :: h' =>
      if String.eqb (PyStr.lower k) (PyStr.lower name) then Some v
      else header_get name h'
  end.

Definition get (m : message) (name : string) (failobj : string) : string :=
  default failobj (header_get name (headers_of m)).

(** [msg.walk()]: the message, then its parts, depth first. *)
Fixpoint walk (m : message) : list message :=
  match m with
  | Part _ _ _ _ => [m]
  | Multipart _ _ _ ps => m :: flat_map walk ps
  end.

Definition bytes_truthy (p : option bytes) : bool :=
  match p with Some (_ :: _) => true | _ => false end.

(** The state of the loop of lines 107-129. *)
Record bodies : Type := {
  body_text : string;
  body_html : string;
  attachments : list Attachment.t
}.

Section Normalizer.
Context `{PyLib}.

(** One iteration of the loop over [msg.walk()]. *)
Definition parse_part (email_id : string) (acc : bodies) (part : message) : bodies :=
  let content_type := get_content_type part in
  let content_disposition := get part "Content-Disposition" "" in
  if PyStr.contains "attachment" content_disposition then
    match get_filename part with
    | Some filename =>
        if PyStr.truthy filename then
          let payload := get_payload part in
          {| body_text := body_text acc;
             body_html := body_html acc;
             attachments :=
               attachments acc ++
               [Attachment.mk filename content_type
                  (if bytes_truthy payload
                   then Z.of_nat (length (default [] payload)) else 0)
                  payload
                  (Some (email_id +:+ "_" +:+
                         pretty (N.of_nat (length (attachments acc)))))] |}
        else acc
    | None => acc
    end
  else if String.eqb content_type "text/plain" then
    let payload := get_payload part in
    if bytes_truthy payload
    then {| body_text := decode_utf8_ignore (default [] payload);
            body_html := body_html acc;
            attachments := attachments acc |}
    else acc
  else if String.eqb content_type "text/html" then
    let payload := get_payload part in
    if bytes_truthy payload
    then {| body_text := body_text acc;
            body_html := decode_utf8_ignore (default [] payload);
            attachments := attachments acc |}
    else acc
  else acc.

(** Lines 101-137: the bodies and attachments as the parts give them,
    before the HTML fallback. *)
Definition parse_bodies (msg : message) (email_id : string) : bodies :=
  let start := {| body_text := ""; body_html := ""; attachments := [] |} in
  if is_multipart msg then fold_left (parse_part email_id) (walk msg) start
  else
    let payload := get_payload msg in
    if bytes_truthy payload then
      if String.eqb (get_content_type msg) "text/html"
      then {| body_text := ""; body_html := decode_utf8_ignore (default [] payload);
              attachments := [] |}
      else {| body_text := decode_utf8_ignore (default [] payload); body_html := "";
              attachments := [] |}
    else start.

Definition split_addresses (addrs : string) : list string :=
  if PyStr.truthy addrs
  then map PyStr.strip (PyStr.split_char ","%char addrs)
  else [].

(** [_parse_email]; [now] is the reading of the clock. *)
Definition _parse_email (now : datetime) (msg : message) (email_id : string)
  : Email.t :=
  let subject := get msg "Subject" "(No Subject)" in
  let from_addr := get msg "From" "" in
  let to_addrs := get msg "To" "" in
  let cc_addrs := get msg "Cc" "" in
  let bcc_addrs := get msg "Bcc" "" in
  let date_str := header_get "Date" (headers_of msg) in
  let date :=
    match date_str with
    | Some s => if PyStr.truthy s then default now (parsedate s) else now
    | None => now
    end in
  let parsed := parse_bodies msg email_id in
  let body_html := body_html parsed in
  let body_text :=
    if PyStr.truthy body_html && negb (PyStr.truthy (body_text parsed))
    then html_to_text body_html
    else body_text parsed in
  let is_read :=
    PyStr.contains "\Seen" (get msg "X-GM-LABELS" "")
    || PyStr.contains "\Seen" (get msg "Flags" "") in
  Email.mk email_id subject from_addr
           (split_addresses to_addrs) (split_addresses cc_addrs)
           (split_addresses bcc_addrs)
           date body_text body_html (attachments parsed) is_read
           false None None None.

End Normalizer.

End IMAPProvider.

(** ** Python's insertion-ordered [dict] with [str] keys *)

Module PyDict.
Section Dict.
Context {V : Type}.

Definition t : Type := list (string * V).

(** [d.get(k)] *)
Fixpoint get (k : string) (d : t) : option V :=
  match d with
  | [] => None
  | (k', v) :: d' => if String.eqb k' k then Some v else get k d'
  end.

(** [k in d] *)
Definition contains (k : string) (d : t) : bool :=
  match get k d with Some _ => true | None => false end.

(** [d[k] = v]: an existing key keeps its place, a new key goes last. *)
Fixpoint set (k : string) (v : V) (d : t) : t :=
  match d with
  | [] => [(k, v)]
  | (k', v') :: d' =>
      if String.eqb k' k then (k', v) :: d' else (k', v') :: set k v d'
  end.

(** [d[k] = f(d[k])], for the in-place update of a stored value. *)
Fixpoint update (k : string) (f : V -> V) (d : t) : t :=
  match d with
  | [] => []
  | (k', v') :: d' =>
      if String.eqb k' k then (k', f v') :: d' else (k', v') :: update k f d'
  end.

Definition keys (d : t) : list string := map fst d.
Definition values (d : t) : list V := map snd d.
End Dict.
Arguments t : clear implicits.
End PyDict.

(** ** [src/providers/local_provider.py] *)

Module LocalProvider.

(** A serialized attachment, as [_email_to_dict] writes it. *)
Module AttDict.
Record t : Type := mk {
  filename : option string;
  content_type : option string;
  size : option Z;
  data : option bytes;
  id : option string
}.
End AttDict.

(** A stored record: the [dict] that [_email_to_dict] writes, one
    optional field per key.  The values have the types that
    [_email_to_dict] gives them. *)
Module D.
Record t : Type := mk {
  id : option string;
  subject : option string;
  from_address : option string;
  to_addresses : option (list string);
  cc_addresses : option (list string);
  bcc_addresses : option (list string);
  date : option string;
  body_text : option string;
  body_html : option string;
  attachments : option (list AttDict.t);
  is_read : option bool;
  is_starred : option bool;
  folder : option string
}.

(** [d["id"] = v] *)
Definition set_id (v : string) (d : t) : t :=
  mk (Some v) (subject d) (from_address d) (to_addresses d) (cc_addresses d)
     (bcc_addresses d) (date d) (body_text d) (body_html d) (attachments d)
     (is_read d) (is_starred d) (folder d).

(** [d["is_read"] = v] *)
Definition set_is_read (v : bool) (d : t) : t :=
  mk (id d) (subject d) (from_address d) (to_addresses d) (cc_addresses d)
     (bcc_addresses d) (date d) (body_text d) (body_html d) (attachments d)
     (Some v) (is_starred d) (folder d).

(** [d["folder"] = v] *)
Definition set_folder (v : string) (d : t) : t :=
  mk (id d) (subject d) (from_address d) (to_addresses d) (cc_addresses d)
     (bcc_addresses d) (date d) (body_text d) (body_html d) (attachments d)
     (is_read d) (is_starred d) (Some v).
End D.

(** A mailbox: message id to record, in insertion order. *)
Definition mailbox : Type := PyDict.t D.t.

(** What a file of the storage directory holds, as [json.load] sees it:
    an object (a mailbox), another JSON value, text that is no JSON (or a
    file that cannot be read), or bytes that are no text. *)
Inductive document : Type :=
| JsonObject (m : mailbox)
| JsonOther
| Unreadable
| Undecodable.

(** The exceptions met: [IOError] (that is [OSError], with
    [json.JSONDecodeError] counted to it where the code catches the two
    together), [TypeError], [AttributeError] and [UnicodeDecodeError]. *)
Inductive exn : Type := IOError | TypeError | AttributeError | UnicodeDecodeError.

(** How the write of a file that cannot be written fails: the file
    cannot be opened for writing, and stays as it is; or it is opened,
    which empties it, and the write fails after that; or the file system
    refuses the name itself (it is too long), and then every access to
    the file raises, [exists()] too. *)
Inductive failure : Type := OpenFails | WriteFails | NameRefused.

(** Lines printed by the [except] clauses. *)
Inductive printed : Type :=
| ErrorSavingEmails
| ErrorSendingViaSMTP
| ErrorSendingEmail (e : exn).

(** What the relay does with a submission (lines 230-280, guarded by
    [except Exception]). *)
Inductive relay_outcome : Type :=
| Relayed
| RelayFailed (session_open : bool).

(** The world outside the provider: the storage directory (by file
    name), the files that cannot be written and how their write fails,
    the sources of [uuid.uuid4()] and [datetime.now()] with the number of
    calls so far, the relay, what it accepted and what was printed. *)
Record world : Type := {
  files : gmap string document;
  write_protected : gset string;
  write_failure : string -> failure;
  uuid4_source : nat -> string;
  uuid4_calls : nat;
  wall_clock : nat -> Z;
  clock_calls : nat;
  relay : list string -> relay_outcome;
  relayed : list (list string);
  stdout : list printed
}.

(** The reading of the clock at its [n]th call: [datetime.now()] gives a
    naive value. *)
Definition clock (w : world) (n : nat) : datetime := Naive (wall_clock w n).

(** [self] *)
Record self : Type := {
  email_address : string;
  emails_file : string;
  _emails : mailbox;
  smtp_server : option string;
  smtp_port : Z;
  smtp_username : option string;
  smtp_password : option string;
  use_tls : bool;
  smtp : bool;
  connected : bool
}.

(** *** Methods run in a state and exception monad *)

Inductive outcome (A : Type) : Type :=
| Return (a : A)
| Raise (e : exn).
Arguments Return {A} a.
Arguments Raise {A} e.

Definition M (A : Type) : Type := self -> world -> outcome A * self * world.

Definition ret {A} (a : A) : M A := fun s w => (Return a, s, w).
Definition raise {A} (e : exn) : M A := fun s w => (Raise e, s, w).

Definition bind {A B} (m : M A) (k : A -> M B) : M B :=
  fun s w =>
    match m s w with
    | (Return a, s', w') => k a s' w'
    | (Raise e, s', w') => (Raise e, s', w')
    end.

(** [try: m except Exception as e: h(e)] *)
Definition try_except {A} (m : M A) (h : exn -> M A) : M A :=
  fun s w =>
    match m s w with
    | (Return a, s', w') => (Return a, s', w')
    | (Raise e, s', w') => h e s' w'
    end.

Declare Scope py_scope.
Notation "x <- m ;; k" := (bind m (fun x => k))
  (at level 20, m at level 99, k at level 200, only parsing) : py_scope.
Notation "m ;; k" := (bind m (fun _ => k))
  (at level 100, k at level 200, only parsing, right associativity) : py_scope.
Local Open Scope py_scope.

Definition get_self : M self := fun s w => (Return s, s, w).
Definition get_world : M world := fun s w => (Return w, s, w).
Definition put_self (s' : self) : M unit := fun _ w => (Return tt, s', w).
Definition put_world (w' : world) : M unit := fun s _ => (Return tt, s, w').

Definition set_emails (m : mailbox) (s : self) : self :=
  {| email_address := email_address s; emails_file := emails_file s;
     _emails := m;
     smtp_server := smtp_server s; smtp_port := smtp_port s;
     smtp_username := smtp_username s; smtp_password := smtp_password s;
     use_tls := use_tls s; smtp := smtp s; connected := connected s |}.

Definition set_smtp (b : bool) (s : self) : self :=
  {| email_address := email_address s; emails_file := emails_file s;
     _emails := _emails s;
     smtp_server := smtp_server s; smtp_port := smtp_port s;
     smtp_username := smtp_username s; smtp_password := smtp_password s;
     use_tls := use_tls s; smtp := b; connected := connected s |}.

Definition set_connected (b : bool) (s : self) : self :=
  {| email_address := email_address s; emails_file := emails_file s;
     _emails := _emails s;
     smtp_server := smtp_server s; smtp_port := smtp_port s;
     smtp_username := smtp_username s; smtp_password := smtp_password s;
     use_tls := use_tls s; smtp := smtp s; connected := b |}.

Definition set_files (f : gmap string document) (w : world) : world :=
  {| files := f; write_protected := write_protected w;
     write_failure := write_failure w;
     uuid4_source := uuid4_source w; uuid4_calls := uuid4_calls w;
     wall_clock := wall_clock w; clock_calls := clock_calls w;
     relay := relay w; relayed := relayed w; stdout := stdout w |}.

(** [print(...)] *)
Definition print (l : printed) : M unit :=
  fun s w =>
    (Return tt, s,
     {| files := files w; write_protected := write_protected w;
        write_failure := write_failure w;
        uuid4_source := uuid4_source w; uuid4_calls := uuid4_calls w;
        wall_clock := wall_clock w; clock_calls := clock_calls w;
        relay := relay w; relayed := relayed w;
        stdout := stdout w ++ [l] |}).

(** [str(uuid.uuid4())] *)
Definition uuid4 : M string :=
  fun s w =>
    (Return (uuid4_source w (uuid4_calls w)), s,
     {| files := files w; write_protected := write_protected w;
        write_failure := write_failure w;
        uuid4_source := uuid4_source w; uuid4_calls := S (uuid4_calls w);
        wall_clock := wall_clock w; clock_calls := clock_calls w;
        relay := relay w; relayed := relayed w; stdout := stdout w |}).

(** [datetime.now()]: a naive value. *)
Definition now : M datetime :=
  fun s w =>
    (Return (clock w (clock_calls w)), s,
     {| files := files w; write_protected := write_protected w;
        write_failure := write_failure w;
        uuid4_source := uuid4_source w; uuid4_calls := uuid4_calls w;
        wall_clock := wall_clock w; clock_calls := S (clock_calls w);
        relay := relay w; relayed := relayed w; stdout := stdout w |}).

(** The file system refuses the name. *)
Definition refused (w : world) (name : string) : bool :=
  bool_decide (name ∈ write_protected w)
  && match write_failure w name with NameRefused => true | _ => false end.

(** [path.exists()]: raises [OSError] on a name that the file system
    refuses. *)
Definition exists_ (name : string) : M bool :=
  fun s w =>
    if refused w name then (Raise IOError, s, w)
    else (Return (bool_decide (is_Some (files w !! name))), s, w).

(** What a failed write leaves of the file.  When the file cannot be
    opened it stays as it was; when the write fails after [open] has
    emptied the file, what is left is the beginning of a JSON text at
    most, which does not load. *)
Definition failed_write (name : string) (w : world) : world :=
  match write_failure w name with
  | WriteFails => set_files (<[name := Unreadable]> (files w)) w
  | OpenFails | NameRefused => w
  end.

(** [with open(name, 'w') as f: json.dump(m, f, ...)]: raises [IOError]
    when the file cannot be written. *)
Definition dump (name : string) (m : mailbox) : M unit :=
  fun s w =>
    if bool_decide (name ∈ write_protected w)
    then (Raise IOError, s, failed_write name w)
    else (Return tt, s, set_files (<[name := JsonObject m]> (files w)) w).

(** [with open(name, 'r') as f: json.load(f)]; [None] is any value that
    is not an object.  Text that is no JSON raises [json.JSONDecodeError]
    and a file that cannot be opened [OSError], both [IOError] here;
    bytes that are no text raise [UnicodeDecodeError]. *)
Definition load (name : string) : M (option mailbox) :=
  fun s w =>
    if refused w name then (Raise IOError, s, w)
    else
      match files w !! name with
      | Some (JsonObject m) => (Return (Some m), s, w)
      | Some JsonOther => (Return None, s, w)
      | Some Unreadable | None => (Raise IOError, s, w)
      | Some Undecodable => (Raise UnicodeDecodeError, s, w)
      end.

(** The file of an address: [f"{address.replace('@', '_at_')}.json"] in
    the storage directory. *)
Definition file_of (address : string) : string :=
  PyStr.replace_char "@"%char "_at_" address +:+ ".json".

(** [list.sort(key=..., reverse=True)]: descending by key, and stable:
    records with equal keys keep their order. *)
Section Sort.
Context {A : Type} (key : A -> Z).

Fixpoint insert_desc (x : A) (l : list A) : list A :=
  match l with
  | [] => [x]
  | y :: l' => if key y <=? key x then x :: l else y :: insert_desc x l'
  end.

Fixpoint sort_reverse (l : list A) : list A :=
  match l with
  | [] => []
  | x :: l' => insert_desc x (sort_reverse l')
  end.
End Sort.

(** The dates hold a naive and an aware one. *)
Definition mixed (dates : list datetime) : bool :=
  existsb is_aware dates && existsb (fun d => negb (is_aware d)) dates.

(** A slice bound, as Python clamps it: a negative bound counts from
    the end. *)
Definition clamp (len i : Z) : Z :=
  if i <? 0 then Z.max (i + len) 0 else Z.min i len.

(** [l[start:stop]] *)
Definition slice {A} (start stop : Z) (l : list A) : list A :=
  let len := Z.of_nat (length l) in
  let lo := clamp len start in
  let hi := clamp len stop in
  take (Z.to_nat (hi - lo)) (drop (Z.to_nat lo) l).

Section Methods.
Context `{PyLib}.

(** [_load_emails] *)
Definition _load_emails : M unit :=
  s <- get_self ;;
  present <- exists_ (emails_file s) ;;
  if (present : bool) then
    try_except
      (data <- load (emails_file s) ;;
       match data with
       | Some m => put_self (set_emails m s)
       | None => raise AttributeError
       end)
      (fun e =>
         match e with
         | IOError => s' <- get_self ;; put_self (set_emails [] s')
         | _ => raise e
         end)
  else put_self (set_emails [] s).

(** [__init__]: the fields from the configuration, then
    [_load_emails]. *)
Definition init (email_address : option string)
           (smtp_server : option string) (smtp_port : option Z)
           (smtp_username smtp_password : option string) (use_tls : option bool)
  : world -> outcome unit * self * world :=
  _load_emails
    {| email_address := default "" email_address;
       emails_file := file_of (default "" email_address);
       _emails := [];
       smtp_server := smtp_server;
       smtp_port := default 587 smtp_port;
       smtp_username := smtp_username;
       smtp_password := smtp_password;
       use_tls := default true use_tls;
       smtp := false;
       connected := false |}.

(** [_save_emails] *)
Definition _save_emails : M unit :=
  try_except
    (s <- get_self ;; dump (emails_file s) (_emails s))
    (fun e =>
       match e with
       | IOError => print ErrorSavingEmails
       | _ => raise e
       end).

Definition att_of_dict (a : AttDict.t) : Attachment.t :=
  Attachment.mk
    (default "" (AttDict.filename a))
    (default "" (AttDict.content_type a))
    (default 0 (AttDict.size a))
    (match AttDict.data a with
     | Some (b :: bs) => Some (b :: bs)
     | _ => None
     end)
    (AttDict.id a).

(** [_dict_to_email] *)
Definition _dict_to_email (email_dict : D.t) : M Email.t :=
  let attachments :=
    match D.attachments email_dict with
    | Some (a :: l) => map att_of_dict (a :: l)
    | _ => []
    end in
  date <- match D.date email_dict with
          | Some date_str =>
              match fromisoformat date_str with
              | Some d => ret d
              | None => now
              end
          | None => now
          end ;;
  ret (Email.mk
         (default "" (D.id email_dict))
         (default "" (D.subject email_dict))
         (default "" (D.from_address email_dict))
         (default [] (D.to_addresses email_dict))
         (default [] (D.cc_addresses email_dict))
         (default [] (D.bcc_addresses email_dict))
         date
         (default "" (D.body_text email_dict))
         (default "" (D.body_html email_dict))
         attachments
         (default false (D.is_read email_dict))
         (default false (D.is_starred email_dict))
         None
         (Some (default "INBOX" (D.folder email_dict)))
         None).

Definition dict_of_att (att : Attachment.t) : AttDict.t :=
  AttDict.mk
    (Some (Attachment.filename att))
    (Some (Attachment.content_type att))
    (Some (Attachment.size att))
    (match Attachment.data att with
     | Some (b :: bs) => Some (b :: bs)
     | _ => None
     end)
    (Attachment.id att).

(** [_email_to_dict] *)
Definition _email_to_dict (email_obj : Email.t) : D.t :=
  D.mk (Some (Email.id email_obj))
       (Some (Email.subject email_obj))
       (Some (Email.from_address email_obj))
       (Some (Email.to_addresses email_obj))
       (Some (Email.cc_addresses email_obj))
       (Some (Email.bcc_addresses email_obj))
       (Some (isoformat (Email.date email_obj)))
       (Some (Email.body_text email_obj))
       (Some (Email.body_html email_obj))
       (Some (map dict_of_att (Email.attachments email_obj)))
       (Some (Email.is_read email_obj))
       (Some (Email.is_starred email_obj))
       (Some (match Email.folder email_obj with
              | Some f => if PyStr.truthy f then f else "INBOX"
              | None => "INBOX"
              end)).

(** [connect] *)
Definition connect : M bool :=
  s <- get_self ;; put_self (set_connected true s) ;; ret true.

(** [disconnect] *)
Definition disconnect : M unit :=
  _save_emails ;;
  s <- get_self ;;
  put_self (set_connected false (set_smtp false s)).

(** The loop of [fetch_emails], lines 157-160. *)
Fixpoint fetch_loop (folder : string) (values : list D.t) (emails : list Email.t)
  : M (list Email.t) :=
  match values with
  | [] => ret emails
  | email_dict :: rest =>
      if String.eqb (default "INBOX" (D.folder email_dict)) folder
      then e <- _dict_to_email email_dict ;;
           fetch_loop folder rest (emails ++ [e])
      else fetch_loop folder rest emails
  end.

(** [emails.sort(key=lambda e: e.date, reverse=True)]: the sort orders
    the messages by comparing their dates, and comparing a naive with an
    aware date raises [TypeError]: a list that holds both kinds is not
    sorted. *)
Definition sort_by_date (emails : list Email.t) : M (list Email.t) :=
  if mixed (map Email.date emails) then raise TypeError
  else ret (sort_reverse (fun e => stamp (Email.date e)) emails).

(** [fetch_emails] *)
Definition fetch_emails (folder : string) (limit offset : Z) : M (list Email.t) :=
  s <- get_self ;;
  if negb (connected s) then ret []
  else
    emails <- fetch_loop folder (PyDict.values (_emails s)) [] ;;
    emails <- sort_by_date emails ;;
    ret (slice offset (offset + limit) emails).

(** [_is_local_address] *)
Definition _is_local_address (email_address : string) : M bool :=
  exists_ (file_of email_address).

(** Lines 219-226: the local and the external recipients. *)
Fixpoint partition_recipients (to_addresses local_recipients external_recipients : list string)
  : M (list string * list string) :=
  match to_addresses with
  | [] => ret (local_recipients, external_recipients)
  | addr :: rest =>
      is_local <- _is_local_address addr ;;
      if (is_local : bool)
      then partition_recipients rest (local_recipients ++ [addr]) external_recipients
      else partition_recipients rest local_recipients (external_recipients ++ [addr])
  end.

Definition configured (o : option string) : bool :=
  match o with Some v => PyStr.truthy v | None => false end.

(** Lines 230-280: the submission to the relay.  Whatever happens
    inside is caught and printed; the block changes [self.smtp] and
    what the relay accepted. *)
Definition relay_block (external_recipients cc_addresses bcc_addresses : list string)
  : M unit :=
  fun s w =>
    let recipients := external_recipients ++ cc_addresses ++ bcc_addresses in
    match relay w recipients with
    | Relayed =>
        (Return tt, set_smtp true s,
         {| files := files w; write_protected := write_protected w;
            write_failure := write_failure w;
            uuid4_source := uuid4_source w; uuid4_calls := uuid4_calls w;
            wall_clock := wall_clock w; clock_calls := clock_calls w;
            relay := relay w; relayed := relayed w ++ [recipients];
            stdout := stdout w |})
    | RelayFailed session_open =>
        print ErrorSendingViaSMTP (set_smtp (smtp s || session_open) s) w
    end.

(** Lines 286-303: the delivery to the local recipients. *)
Fixpoint deliver (email_obj : Email.t) (local_recipients : list string) : M unit :=
  match local_recipients with
  | [] => ret tt
  | to_addr :: rest =>
      let local_file := file_of to_addr in
      present <- exists_ local_file ;;
      (if (present : bool) then
         recipient_emails <-
           try_except (load local_file) (fun _ => ret (Some [])) ;;
         new_id <- uuid4 ;;
         let recipient_email :=
           D.set_folder "INBOX" (D.set_id new_id (_email_to_dict email_obj)) in
         match recipient_emails with
         | Some m => dump local_file (PyDict.set new_id recipient_email m)
         | None => raise TypeError
         end
       else ret tt) ;;
      deliver email_obj rest
  end.

(** [send_email] *)
Definition send_email (to_addresses : list string) (subject body : string)
           (html_body : option string)
           (cc_addresses bcc_addresses : option (list string))
           (attachments : option (list Attachment.t))
           (reply_to_id : option string) : M bool :=
  s <- get_self ;;
  if negb (connected s) then ret false
  else
    try_except
      (email_id <- uuid4 ;;
       date <- now ;;
       let email_obj :=
         Email.mk email_id subject (email_address s) to_addresses
                  (default [] cc_addresses) (default [] bcc_addresses)
                  date body (default "" html_body) (default [] attachments)
                  false false None (Some "Sent") None in
       recipients <- partition_recipients to_addresses [] [] ;;
       let local_recipients := fst recipients in
       let external_recipients := snd recipients in
       (match external_recipients with
        | _ :: _ =>
            if configured (smtp_server s) && configured (smtp_username s)
               && configured (smtp_password s)
            then relay_block external_recipients
                             (default [] cc_addresses) (default [] bcc_addresses)
            else ret tt
        | [] => ret tt
        end) ;;
       s1 <- get_self ;;
       put_self (set_emails (PyDict.set email_id (_email_to_dict email_obj)
                                        (_emails s1)) s1) ;;
       deliver email_obj local_recipients ;;
       _save_emails ;;
       ret true)
      (fun e => print (ErrorSendingEmail e) ;; ret false).

(** The counting loop of [get_folders], lines 313-322: folder name to
    (total, unread). *)
Fixpoint count_folders (values : list D.t) (folders : PyDict.t (Z * Z))
  : PyDict.t (Z * Z) :=
  match values with
  | [] => folders
  | email_dict :: rest =>
      let folder_name := default "INBOX" (D.folder email_dict) in
      let folders :=
        if negb (PyDict.contains folder_name folders)
        then PyDict.set folder_name (0, 0) folders else folders in
      let folders := PyDict.update folder_name (fun c => (fst c + 1, snd c)) folders in
      let folders :=
        if negb (default false (D.is_read email_dict))
        then PyDict.update folder_name (fun c => (fst c, snd c + 1)) folders
        else folders in
      count_folders rest folders
  end.

Definition default_folders : list string := ["INBOX"; "Sent"; "Drafts"; "Trash"].

(** [get_folders] *)
Definition get_folders : M (list Folder.t) :=
  s <- get_self ;;
  let folders := count_folders (PyDict.values (_emails s)) [] in
  let folder_list :=
    map (fun folder_name =>
           Folder.init folder_name folder_name (Some folder_name)
             (snd (default (0, 0) (PyDict.get folder_name folders)))
             (fst (default (0, 0) (PyDict.get folder_name folders))))
        default_folders in
  let others :=
    map (fun kv : string * (Z * Z) =>
           Folder.init (fst kv) (fst kv) (Some (fst kv)) (snd (snd kv)) (fst (snd kv)))
        (filter (fun kv : string * (Z * Z) =>
                   PyStr.mem (fst kv) default_folders = false) folders) in
  ret (folder_list ++ others).

(** [mark_read] *)
Definition mark_read (email_id : string) (read : bool) : M bool :=
  s <- get_self ;;
  if negb (connected s) then ret false
  else if PyDict.contains email_id (_emails s) then
    put_self (set_emails (PyDict.update email_id (D.set_is_read read) (_emails s)) s) ;;
    _save_emails ;;
    ret true
  else ret false.

(** [delete_email] *)
Definition delete_email (email_id : string) : M bool :=
  s <- get_self ;;
  if negb (connected s) then ret false
  else if PyDict.contains email_id (_emails s) then
    put_self (set_emails (PyDict.update email_id (D.set_folder "Trash") (_emails s)) s) ;;
    _save_emails ;;
    ret true
  else ret false.

(** The test of lines 390-392. *)
Definition matches (query_lower : string) (email_dict : D.t) : bool :=
  PyStr.contains query_lower (PyStr.lower (default "" (D.subject email_dict)))
  || PyStr.contains query_lower (PyStr.lower (default "" (D.body_text email_dict)))
  || PyStr.contains query_lower (PyStr.lower (default "" (D.from_address email_dict))).

(** The test of line 386: the record is outside the folder asked
    for. *)
Definition out_of_folder (folder : option string) (email_dict : D.t) : bool :=
  match folder with
  | Some f =>
      PyStr.truthy f &&
      match D.folder email_dict with
      | Some g => negb (String.eqb g f)
      | None => true
      end
  | None => false
  end.

(** The loop of [search_emails], lines 385-393. *)
Fixpoint search_loop (query_lower : string) (folder : option string)
         (values : list D.t) (results : list Email.t) : M (list Email.t) :=
  match values with
  | [] => ret results
  | email_dict :: rest =>
      if out_of_folder folder email_dict
      then search_loop query_lower folder rest results
      else if matches query_lower email_dict
           then e <- _dict_to_email email_dict ;;
                search_loop query_lower folder rest (results ++ [e])
           else search_loop query_lower folder rest results
  end.

(** [search_emails] *)
Definition search_emails (query : string) (folder : option string) (limit : Z)
  : M (list Email.t) :=
  s <- get_self ;;
  if negb (connected s) then ret []
  else
    let query_lower := PyStr.lower query in
    results <- search_loop query_lower folder (PyDict.values (_emails s)) [] ;;
    results <- sort_by_date results ;;
    ret (slice 0 limit results).

(** [receive_email] *)
Definition receive_email (email_obj : Email.t) : M unit :=
  s <- get_self ;;
  if negb (connected s) then ret tt
  else
    let email_dict := D.set_folder "INBOX" (_email_to_dict email_obj) in
    put_self (set_emails (PyDict.set (Email.id email_obj) email_dict (_emails s)) s) ;;
    _save_emails.

(** The truth value of a stored record: a [dict] without keys is
    false. *)
Definition dict_truthy (d : D.t) : bool :=
  match d with
  | D.mk None None None None None None None None None None None None None => false
  | _ => true
  end.

(** [get_email] *)
Definition get_email (email_id : string) : M (option Email.t) :=
  s <- get_self ;;
  if negb (connected s) then ret None
  else
    match PyDict.get email_id (_emails s) with
    | Some email_dict =>
        if dict_truthy email_dict
        then e <- _dict_to_email email_dict ;; ret (Some e)
        else ret None
    | None => ret None
    end.

(** The loop of [get_attachment]: the first attachment with that id. *)
Fixpoint find_attachment (attachment_id : string) (attachments : list Attachment.t)
  : option Attachment.t :=
  match attachments with
  | [] => None
  | att :: rest =>
      match Attachment.id att with
      | Some i => if String.eqb i attachment_id then Some att
                  else find_attachment attachment_id rest
      | None => find_attachment attachment_id rest
      end
  end.

(** [get_attachment] *)
Definition get_attachment (email_id attachment_id : string) : M (option Attachment.t) :=
  email_obj <- get_email email_id ;;
  match email_obj with
  | Some e => ret (find_attachment attachment_id (Email.attachments e))
  | None => ret None
  end.

End Methods.

End LocalProvider.

(** ** [src/utils/local_email_manager.py] *)

Module LocalEmailManager.

(** An entry of the address list, as [create_email_address] writes
    it. *)
Record address_info : Type := {
  info_email_address : option string;
  info_local_part : option string;
  info_domain : option string;
  info_created : option string
}.

(** The account configuration that [create_email_address] returns. *)
Record account : Type := {
  provider : string;
  email_address : string;
  storage_dir : string;
  name : string
}.

(** The file [addresses.json]: absent, a list, or nothing that loads. *)
Inductive address_file : Type :=
| Absent
| AddressList (l : list address_info)
| Unparsed.

(** The world of the manager: the mailbox documents of the storage
    directory with the rest of the provider's world, the file
    [addresses.json] (kept apart from the mailbox documents: no address
    with an at sign has that file name), whether it can be written and,
    if not, how its write fails, the mailbox documents that cannot be
    removed, and the working directory. *)
Record world : Type := {
  store : LocalProvider.world;
  addresses_file : address_file;
  addresses_protected : bool;
  addresses_failure : LocalProvider.failure;
  undeletable : gset string;
  cwd : string
}.

(** [self]; [self_storage_dir] is the path [Path(storage_dir)], written
    as [str()] gives it. *)
Record self : Type := {
  self_storage_dir : string;
  _addresses : list address_info
}.

(** The exceptions met: [ValueError], [RuntimeError], the [OSError] of
    the file system, and what the provider's constructor raises. *)
Inductive exn : Type :=
| ValueError
| RuntimeError
| OSError
| ProviderError (e : LocalProvider.exn).

Inductive result (A : Type) : Type :=
| Ok (a : A)
| Raises (e : exn).
Arguments Ok {A} a.
Arguments Raises {A} e.

Definition set_addresses (l : list address_info) (m : self) : self :=
  {| self_storage_dir := self_storage_dir m; _addresses := l |}.

(** [_load_addresses] *)
Definition _load_addresses (m : self) (w : world) : self :=
  match addresses_file w with
  | AddressList l => set_addresses l m
  | Absent | Unparsed => set_addresses [] m
  end.

(** [__init__]; [storage_dir] is the path that [Path(storage_dir)]
    makes of the argument. *)
Definition init (storage_dir : string) (w : world) : self :=
  _load_addresses {| self_storage_dir := storage_dir; _addresses := [] |} w.

Definition set_addresses_file (f : address_file) (w : world) : world :=
  {| store := store w;
     addresses_file := f;
     addresses_protected := addresses_protected w;
     addresses_failure := addresses_failure w;
     undeletable := undeletable w;
     cwd := cwd w |}.

Definition set_store (st : LocalProvider.world) (w : world) : world :=
  {| store := st;
     addresses_file := addresses_file w;
     addresses_protected := addresses_protected w;
     addresses_failure := addresses_failure w;
     undeletable := undeletable w;
     cwd := cwd w |}.

(** [_save_addresses]: the [IOError] of a failed write is raised again
    as [RuntimeError].  When the file cannot be opened it stays as it
    was; when the write fails after the file was opened, what is left of
    it does not parse. *)
Definition _save_addresses (m : self) (w : world) : result unit * world :=
  if addresses_protected w then
    match addresses_failure w with
    | LocalProvider.WriteFails => (Raises RuntimeError, set_addresses_file Unparsed w)
    | _ => (Raises RuntimeError, w)
    end
  else (Ok tt, set_addresses_file (AddressList (_addresses m)) w).

(** [email_address_exists] *)
Definition email_address_exists (email_address : string) (m : self) : bool :=
  existsb (fun addr =>
             match info_email_address addr with
             | Some a => String.eqb a email_address
             | None => false
             end) (_addresses m).

(** [get_email_addresses] *)
Definition get_email_addresses (m : self) : list (option string) :=
  map info_email_address (_addresses m).

(** [create_email_address] *)
Definition create_email_address (local_part domain : string) (m : self) (w : world)
  : result account * self * world :=
  let email_address := local_part +:+ "@" +:+ domain in
  if email_address_exists email_address m then (Raises ValueError, m, w)
  else if negb (PyStr.contains "@" email_address)
          || (String.length local_part =? 0)%nat
  then (Raises ValueError, m, w)
  else
    let account :=
      {| provider := "local"; email_address := email_address;
         storage_dir := self_storage_dir m; name := email_address |} in
    let address_info :=
      {| info_email_address := Some email_address;
         info_local_part := Some local_part;
         info_domain := Some domain;
         info_created := Some (cwd w) |} in
    let m' := set_addresses (_addresses m ++ [address_info]) m in
    match _save_addresses m' w with
    | (Ok _, w') => (Ok account, m', w')
    | (Raises e, w') => (Raises e, m', w')
    end.

(** [email_file.unlink()]: raises [OSError] when the file cannot be
    removed. *)
Definition unlink (name : string) (w : world) : result unit * world :=
  if bool_decide (name ∈ undeletable w) then (Raises OSError, w)
  else (Ok tt,
        set_store (LocalProvider.set_files
                     (delete name (LocalProvider.files (store w))) (store w)) w).

(** [delete_email_address]; neither [exists()] nor [unlink()] is
    guarded, and both come after the list was saved. *)
Definition delete_email_address (email_address : string) (m : self) (w : world)
  : result bool * self * world :=
  let original_count := length (_addresses m) in
  let kept :=
    filter (fun addr => info_email_address addr <> Some email_address) (_addresses m) in
  let m' := set_addresses kept m in
  if (length kept <? original_count)%nat then
    match _save_addresses m' w with
    | (Ok _, w') =>
        let email_file := LocalProvider.file_of email_address in
        if LocalProvider.refused (store w') email_file then (Raises OSError, m', w')
        else if bool_decide (is_Some (LocalProvider.files (store w') !! email_file))
        then match unlink email_file w' with
             | (Ok _, w'') => (Ok true, m', w'')
             | (Raises e, w'') => (Raises e, m', w'')
             end
        else (Ok true, m', w')
    | (Raises e, w') => (Raises e, m', w')
    end
  else (Ok false, m', w).

(** [get_provider_for_address]: a provider built from the configuration
    of the address, or nothing when the address is not in the list. *)
Definition get_provider_for_address (email_address : string) (m : self) (w : world)
  : result (option LocalProvider.self) * world :=
  if negb (email_address_exists email_address m) then (Ok None, w)
  else
    match LocalProvider.init (Some email_address) None None None None None (store w) with
    | (LocalProvider.Return _, p, st) => (Ok (Some p), set_store st w)
    | (LocalProvider.Raise e, _, st) => (Raises (ProviderError e), set_store st w)
    end.

End LocalEmailManager.

(** * Specifications

    The notions in which the properties below are stated, and a small
    instance of the library functions, a provider and a world for the
    examples. *)

Section Lines.

Import PyStr.

Definition no_breaks (s : string) : Prop :=
  all_chars (fun c => negb (is_linebreak c)) s = true.

(** A string that does not begin with white space. *)
Definition head_ok (s : string) : Prop :=
  match s with
  | EmptyString => True
  | String c _ => is_space c = false
  end.

(** A line as [clean_lines] leaves it: not empty, stripped, and free of
    line boundaries. *)
Definition clean_line (l : string) : Prop :=
  l <> EmptyString /\ strip l = l /\ no_breaks l.

(** No two line feeds in a row. *)
Fixpoint no_double_lf (s : string) : bool :=
  match s with
  | String c ((String d _) as s') =>
      negb (Ascii.eqb c LF && Ascii.eqb d LF) && no_double_lf s'
  | _ => true
  end.

End Lines.

Section Markup.

Import PyStr Soup.

(** No markup: neither a tag opener nor a character reference. *)
Definition markup_free (t : string) : bool :=
  negb (has_char "<"%char t) && negb (has_char "&"%char t).

(** [r] is [s] or what is left of [s] without some of its first
    characters. *)
Inductive tail_of (r : string) : string -> Prop :=
| tail_here : tail_of r r
| tail_later c s : tail_of r s -> tail_of r (String c s).

(** [p] holds of [s] or of a tail of it. *)
Fixpoint somewhere (p : string -> bool) (s : string) : bool :=
  p s || match s with
         | String _ s' => somewhere p s'
         | EmptyString => false
         end.

(** The number of decimal digits that [s] begins with. *)
Definition digits_ahead (s : string) : nat :=
  String.length (fst (span is_digit s)).

(** The text opens a marked section, [<![], somewhere. *)
Definition opens_marked_section (t : string) : bool :=
  somewhere (startswith "<![") t.

(** The text holds, after [&#], more decimal digits than [int]
    converts. *)
Definition long_reference (t : string) : bool :=
  somewhere (fun r => startswith "&#" r
                      && (default_max_str_digits <? digits_ahead (drop 2 r))%nat) t.

End Markup.

Section Order.

Import LocalProvider.
Context {A : Type} (key : A -> Z).


End Order.

Section StoreNotions.

Import LocalProvider.
Context `{PyLib}.

(** The world after a line was printed. *)
Definition printing (l : printed) (w : world) : world :=
  {| files := files w; write_protected := write_protected w;
     write_failure := write_failure w;
     uuid4_source := uuid4_source w; uuid4_calls := uuid4_calls w;
     wall_clock := wall_clock w; clock_calls := clock_calls w;
     relay := relay w; relayed := relayed w;
     stdout := stdout w ++ [l] |}.




End StoreNotions.

Section FolderCounts.

Import LocalProvider.

(** The folder of a stored record. *)
Definition folder_of (d : D.t) : string := default "INBOX" (D.folder d).

Definition is_unread (d : D.t) : bool := negb (default false (D.is_read d)).

(** The number of records of a folder, and of its unread records. *)
Definition total_in (name : string) (values : list D.t) : Z :=
  Z.of_nat (length (filter (fun d => folder_of d = name) values)).

Definition unread_in (name : string) (values : list D.t) : Z :=
  Z.of_nat (length (filter (fun d => folder_of d = name /\ is_unread d = true) values)).

(** The counts a name has in the table of the counting loop. *)
Definition counts (name : string) (folders : PyDict.t (Z * Z)) : Z * Z :=
  default (0, 0) (PyDict.get name folders).

(** One iteration of the counting loop. *)
Definition count_step (email_dict : D.t) (folders : PyDict.t (Z * Z)) : PyDict.t (Z * Z) :=
  let folder_name := default "INBOX" (D.folder email_dict) in
  let folders :=
    if negb (PyDict.contains folder_name folders)
    then PyDict.set folder_name (0, 0) folders else folders in
  let folders := PyDict.update folder_name (fun c => (fst c + 1, snd c)) folders in
  if negb (default false (D.is_read email_dict))
  then PyDict.update folder_name (fun c => (fst c, snd c + 1)) folders
  else folders.

End FolderCounts.

Section FolderCounted.

Import LocalProvider.
Context `{PyLib}.

(** A folder whose counts are those of the stored records. *)
Definition counted (values : list D.t) (f : Folder.t) : Prop :=
  Folder.total_count f = total_in (Folder.name f) values
  /\ Folder.unread_count f = unread_in (Folder.name f) values.

End FolderCounted.

Section StoredMessages.

Import LocalProvider.
Context `{PyLib}.

(** The world after one call of [datetime.now()]. *)
Definition ticked (w : world) : world :=
  {| files := files w; write_protected := write_protected w;
     write_failure := write_failure w;
     uuid4_source := uuid4_source w; uuid4_calls := uuid4_calls w;
     wall_clock := wall_clock w; clock_calls := S (clock_calls w);
     relay := relay w; relayed := relayed w; stdout := stdout w |}.

(** The message of a stored record, given its date. *)
Definition email_of (d : D.t) (date : datetime) : Email.t :=
  Email.mk (default "" (D.id d)) (default "" (D.subject d))
           (default "" (D.from_address d))
           (default [] (D.to_addresses d)) (default [] (D.cc_addresses d))
           (default [] (D.bcc_addresses d))
           date
           (default "" (D.body_text d)) (default "" (D.body_html d))
           (match D.attachments d with
            | Some (a :: l) => map att_of_dict (a :: l)
            | _ => []
            end)
           (default false (D.is_read d)) (default false (D.is_starred d))
           None (Some (default "INBOX" (D.folder d))) None.

(** The date a stored record gives, when it gives one. *)
Definition stored_date (d : D.t) : option datetime :=
  match D.date d with Some str => fromisoformat str | None => None end.

(** The message of a stored record: its date is the stored one, or the
    reading of the clock when the record gives none. *)
Definition message_of (d : D.t) (w : world) : Email.t * world :=
  match stored_date d with
  | Some t => (email_of d t, w)
  | None => (email_of d (clock w (clock_calls w)), ticked w)
  end.

(** The messages of a list of records, in their order. *)
Fixpoint messages_of (ds : list D.t) (w : world) : list Email.t * world :=
  match ds with
  | [] => ([], w)
  | d :: ds' =>
      let (e, w1) := message_of d w in
      let (es, w2) := messages_of ds' w1 in
      (e :: es, w2)
  end.

(** The stored messages that satisfy [P], in the order of the mailbox. *)
Definition stored_messages (P : D.t -> Prop) `{forall d, Decision (P d)}
           (s : self) (w : world) : list Email.t * world :=
  messages_of (filter P (PyDict.values (_emails s))) w.

(** The time of a message on the time line of its date. *)
Definition time_of (e : Email.t) : Z := stamp (Email.date e).

(** The dates of the messages can be ordered: all are naive or all are
    aware. *)
Definition comparable (messages : list Email.t) : Prop :=
  mixed (map Email.date messages) = false.


(** [query] occurs in [text], case apart. *)
Definition icontains (query text : string) : bool :=
  PyStr.contains (PyStr.lower query) (PyStr.lower text).

(** The query occurs in the subject, the text body or the sender of a
    stored record. *)
Definition record_matches (query : string) (d : D.t) : bool :=
  icontains query (default "" (D.subject d))
  || icontains query (default "" (D.body_text d))
  || icontains query (default "" (D.from_address d)).


(** The record is in the folder asked for, if one is. *)
Definition in_scope (folder : option string) (d : D.t) : bool :=
  match folder with
  | None | Some EmptyString => true
  | Some f => bool_decide (D.folder d = Some f)
  end.

End StoredMessages.

(** ** A small instance, for the examples *)

Module Example.
Import LocalProvider.

(** The library functions on the inputs of the examples: ASCII bytes
    decode to themselves, three naive dates and an aware one. *)
Definition decode_ascii (b : bytes) : string :=
  string_of_list_byte (filter (fun x => (Byte.to_N x < 128)%N) b).

Definition dates : list (string * datetime) :=
  [("2024-01-01T09:00:00", Naive 1704099600000000);
   ("2024-01-02T09:00:00", Naive 1704186000000000);
   ("2024-01-03T09:00:00", Naive 1704272400000000);
   ("2024-01-02T09:00:00+00:00", Aware 1704186000000000 0)].

Definition lib : PyLib :=
  {| decode_utf8_ignore := decode_ascii;
     fromisoformat := fun s => PyDict.get s dates;
     isoformat := fun t =>
       default "1970-01-01T00:00:00"
               (fst <$> find (fun p => bool_decide (snd p = t)) dates);
     parsedate := fun _ => None |}.

Definition record (id subject sender date text html folder : string) (read : bool) : D.t :=
  D.mk (Some id) (Some subject) (Some sender) (Some ["alice@local"]) (Some [])
       (Some []) (Some date) (Some text) (Some html) (Some []) (Some read)
       (Some false) (Some folder).

(** Alice's mailbox: two messages in INBOX, one of them with an HTML body
    only, and one in Archive. *)
Definition alice_box : mailbox :=
  [("m1", record "m1" "Hello" "bob@local" "2024-01-01T09:00:00" "first" "" "INBOX" false);
   ("m2", record "m2" "Offer" "shop@example.com" "2024-01-03T09:00:00" ""
                 "<p>Your Invoice</p>" "INBOX" false);
   ("m3", record "m3" "Old" "bob@local" "2024-01-02T09:00:00" "kept" "" "Archive" true)].

Definition alice : self :=
  {| email_address := "alice@local";
     emails_file := file_of "alice@local";
     _emails := alice_box;
     smtp_server := None; smtp_port := 587;
     smtp_username := None; smtp_password := None;
     use_tls := true; smtp := false; connected := true |}.

(** A world where Alice and Bob have a mailbox document. *)
Definition world0 : world :=
  {| files := <[file_of "alice@local" := JsonObject alice_box]>
              (<[file_of "bob@local" := JsonObject []]> ∅);
     write_protected := ∅;
     write_failure := fun _ => OpenFails;
     uuid4_source := fun n => "uuid-" +:+ pretty n;
     uuid4_calls := 0;
     wall_clock := fun n => 1704272400000000 + Z.of_nat n;
     clock_calls := 0;
     relay := fun _ => RelayFailed false;
     relayed := [];
     stdout := [] |}.



(** Erin's mailbox: two messages in INBOX, the date of the first naive,
    the date of the second aware. *)
Definition erin_box : mailbox :=
  [("e1", record "e1" "Hello" "bob@local" "2024-01-01T09:00:00" "first" "" "INBOX" false);
   ("e2", record "e2" "Hello again" "bob@example.com" "2024-01-02T09:00:00+00:00"
                 "second" "" "INBOX" false)].

Definition erin : self :=
  {| email_address := "erin@local";
     emails_file := file_of "erin@local";
     _emails := erin_box;
     smtp_server := None; smtp_port := 587;
     smtp_username := None; smtp_password := None;
     use_tls := true; smtp := false; connected := true |}.

(** A single-part HTML message whose body is one line break. *)
Definition html_only : IMAPProvider.message :=
  IMAPProvider.Part [("Subject", "Hi"); ("Content-Type", "text/html")]
                    "text/html" None (list_byte_of_string "<br>").

End Example.

Section Delivery.

Import LocalProvider.
Context `{PyLib}.

(** The world after one call of [uuid.uuid4()]. *)
Definition drawn (w : world) : world :=
  {| files := files w; write_protected := write_protected w;
     write_failure := write_failure w;
     uuid4_source := uuid4_source w; uuid4_calls := S (uuid4_calls w);
     wall_clock := wall_clock w; clock_calls := clock_calls w;
     relay := relay w; relayed := relayed w; stdout := stdout w |}.

(** The message that [send_email] builds, and the copy a recipient
    gets. *)
Definition sent_message (s : self) (email_id : string) (date : datetime)
           (to_addresses : list string) (subject body : string)
           (html_body : option string) (cc_addresses bcc_addresses : option (list string))
           (attachments : option (list Attachment.t)) : Email.t :=
  Email.mk email_id subject (email_address s) to_addresses
           (default [] cc_addresses) (default [] bcc_addresses)
           date body (default "" html_body) (default [] attachments)
           false false None (Some "Sent") None.

Definition copy_for (email_obj : Email.t) (new_id : string) : D.t :=
  D.set_folder "INBOX" (D.set_id new_id (_email_to_dict email_obj)).



(** The world after the delivery of one copy into mailbox [m] of
    [address]. *)
Definition delivered_one (email_obj : Email.t) (address : string) (m : mailbox)
           (w : world) : world :=
  let new_id := uuid4_source w (uuid4_calls w) in
  set_files (<[file_of address := JsonObject (PyDict.set new_id (copy_for email_obj new_id) m)]>
               (files w))
            (drawn w).


End Delivery.

Section SendNotions.

Import LocalProvider.
Context `{PyLib}.

(** The ids that [send_email] draws: the first for the sender's copy,
    the next ones for the recipients, in their order. *)
Definition drawn_id (w : world) (i : nat) : string :=
  uuid4_source w (uuid4_calls w + i)%nat.



(** The documents on disk after a failed write of the file [name]: as
    before when the file could not be opened; when the write failed after
    the file was opened, the file no longer loads and the others are as
    before. *)
Definition left_on_disk (w : world) (name : string) : gmap string document :=
  match write_failure w name with
  | WriteFails => <[name := Unreadable]> (files w)
  | OpenFails | NameRefused => files w
  end.


End SendNotions.

Section ExampleNotions.

Import LocalProvider Example.

(** The mailbox that a file holds. *)
Definition mailbox_at (w : world) (name : string) : option mailbox :=
  match files w !! name with
  | Some (JsonObject m) => Some m
  | _ => None
  end.

(** The ids of the messages returned. *)
Definition returned_ids (r : outcome (list Email.t) * self * world) : list string :=
  match fst (fst r) with
  | Return l => map Email.id l
  | Raise _ => []
  end.

End ExampleNotions.

(** ** Notions for the further properties of the local store *)

Section RecordNotions.
Import LocalProvider.
Context `{PyLib}.

(** An attachment as it comes back from a stored record: an empty
    payload comes back as none. *)
Definition reloaded_attachment (a : Attachment.t) : Attachment.t :=
  Attachment.mk (Attachment.filename a) (Attachment.content_type a)
                (Attachment.size a)
                (match Attachment.data a with
                 | Some (b :: bs) => Some (b :: bs)
                 | _ => None
                 end)
                (Attachment.id a).

(** A message as it comes back from its stored record: the folder is
    never empty, thread id and raw data are gone. *)
Definition reloaded (e : Email.t) : Email.t :=
  Email.mk (Email.id e) (Email.subject e) (Email.from_address e)
           (Email.to_addresses e) (Email.cc_addresses e) (Email.bcc_addresses e)
           (Email.date e) (Email.body_text e) (Email.body_html e)
           (map reloaded_attachment (Email.attachments e))
           (Email.is_read e) (Email.is_starred e)
           None
           (Some (match Email.folder e with
                  | Some f => if PyStr.truthy f then f else "INBOX"
                  | None => "INBOX"
                  end))
           None.

(** A message that a stored record holds in full. *)
Definition storable (e : Email.t) : Prop :=
  Email.thread_id e = None /\ Email.raw_data e = None
  /\ (exists f, Email.folder e = Some f /\ f <> EmptyString)
  /\ Forall (fun a => Attachment.data a <> Some []) (Email.attachments e).




End RecordNotions.

(** ** Notions for the further properties of [send_email] *)

Section RelayNotions.
Import LocalProvider.
Context `{PyLib}.

(** An address is local when its document exists, whatever it holds. *)
Definition is_local (w : world) (address : string) : Prop :=
  is_Some (files w !! file_of address).

(** The file system accepts the name of the address's document. *)
Definition nameable (w : world) (address : string) : Prop :=
  refused w (file_of address) = false.

#[global] Instance nameable_dec w address : Decision (nameable w address).
Proof. unfold nameable. apply _. Defined.


(** Two providers that differ at most in their mailbox and their relay
    session. *)
Definition same_account (s s' : self) : Prop :=
  email_address s' = email_address s /\ emails_file s' = emails_file s
  /\ smtp_server s' = smtp_server s /\ smtp_port s' = smtp_port s
  /\ smtp_username s' = smtp_username s /\ smtp_password s' = smtp_password s
  /\ use_tls s' = use_tls s /\ connected s' = connected s.

(** The message that [send_email] builds in world [w]. *)
Definition message_sent (s : self) (w : world) (to_addresses : list string)
           (subject body : string) (html_body : option string)
           (cc_addresses bcc_addresses : option (list string))
           (attachments : option (list Attachment.t)) : Email.t :=
  sent_message s (drawn_id w 0) (clock w (clock_calls w)) to_addresses subject body
               html_body cc_addresses bcc_addresses attachments.

End RelayNotions.

(** ** Notions for the further properties of the mailbox *)

Section MailboxNotions.
Import LocalProvider.
Context `{PyLib}.


(** A mailbox whose keys are distinct and whose records carry their key
    as id. *)
Definition well_keyed (m : mailbox) : Prop :=
  NoDup (PyDict.keys m) /\ Forall (fun kd => D.id (snd kd) = Some (fst kd)) m.

(** A mailbox whose records all give a date that parses. *)
Definition dated (m : mailbox) : Prop :=
  Forall (fun d => is_Some (stored_date d)) (PyDict.values m).

End MailboxNotions.

(** ** Notions for the further properties of the normalizer *)

Section NormalizerNotions.
Import IMAPProvider.
Context `{PyLib}.

(** The id that [_parse_email] gives the attachment at place [i]. *)
Definition attachment_id (email_id : string) (i : nat) : option string :=
  Some (email_id +:+ "_" +:+ pretty (N.of_nat i)).

(** A part that the loop of [_parse_email] reads as a body of content
    type [ct]: it is no attachment, has that content type and a payload
    that is not empty. *)
Definition body_part (ct : string) (part : message) : Prop :=
  PyStr.contains "attachment" (get part "Content-Disposition" "") = false
  /\ get_content_type part = ct
  /\ bytes_truthy (get_payload part) = true.

(** The text of the last part of [parts] that is a body of content type
    [ct], or nothing. *)
Definition last_body (ct : string) (parts : list message) : string :=
  match last (filter (body_part ct) parts) with
  | Some part => decode_utf8_ignore (default [] (get_payload part))
  | None => EmptyString
  end.

End NormalizerNotions.

(** ** Further instances, for the examples of the further properties *)

Module MoreExamples.
Import LocalProvider Example.

(** Alice's provider, not connected. *)
Definition offline : self := set_connected false alice.

(** A message from Bob with one attachment. *)
Definition note : Email.t :=
  Email.mk "n1" "Note" "Bob Builder <bob@local>" ["alice@local"] [] []
           (Naive 1704186000000000) "see the file" ""
           [Attachment.mk "a.txt" "text/plain" 3 (Some (list_byte_of_string "abc"))
                          (Some "n1_0")]
           false false None (Some "Sent") None.



(** The same world with a document of Dave whose bytes are no text. *)
Definition world_binary : world :=
  {| files := <[file_of "dave@local" := Undecodable]> (files world0);
     write_protected := ∅;
     write_failure := fun _ => OpenFails;
     uuid4_source := uuid4_source world0; uuid4_calls := 0;
     wall_clock := wall_clock world0; clock_calls := 0;
     relay := relay world0; relayed := []; stdout := [] |}.

(** The world of the examples with a full disk: Bob's document can be
    opened for writing, and the write fails. *)
Definition world_bob_full : world :=
  {| files := files world0;
     write_protected := {[ file_of "bob@local" ]};
     write_failure := fun _ => WriteFails;
     uuid4_source := uuid4_source world0; uuid4_calls := 0;
     wall_clock := wall_clock world0; clock_calls := 0;
     relay := relay world0; relayed := []; stdout := [] |}.

(** The world of the examples where the file system refuses the name of
    Zoe's document. *)
Definition world_zoe_refused : world :=
  {| files := files world0;
     write_protected := {[ file_of "zoe@example.com" ]};
     write_failure := fun _ => NameRefused;
     uuid4_source := uuid4_source world0; uuid4_calls := 0;
     wall_clock := wall_clock world0; clock_calls := 0;
     relay := relay world0; relayed := []; stdout := [] |}.

(** Carol's provider, with the relay configured; she has no document
    yet. *)
Definition carol : self :=
  {| email_address := "carol@local";
     emails_file := file_of "carol@local";
     _emails := [];
     smtp_server := Some "smtp.example.com"; smtp_port := 587;
     smtp_username := Some "carol"; smtp_password := Some "secret";
     use_tls := true; smtp := false; connected := true |}.

(** The address list with Alice and Bob, in a world where it can be
    written and in one where it cannot. *)
Definition entry (local_part domain : string) : LocalEmailManager.address_info :=
  {| LocalEmailManager.info_email_address := Some (local_part +:+ "@" +:+ domain);
     LocalEmailManager.info_local_part := Some local_part;
     LocalEmailManager.info_domain := Some domain;
     LocalEmailManager.info_created := Some "/home/alice" |}.

Definition registry : LocalEmailManager.self :=
  {| LocalEmailManager.self_storage_dir := "data/local_emails";
     LocalEmailManager._addresses := [entry "alice" "local"; entry "bob" "local"] |}.

Definition office : LocalEmailManager.world :=
  {| LocalEmailManager.store := world0;
     LocalEmailManager.addresses_file :=
       LocalEmailManager.AddressList [entry "alice" "local"; entry "bob" "local"];
     LocalEmailManager.addresses_protected := false;
     LocalEmailManager.addresses_failure := OpenFails;
     LocalEmailManager.undeletable := ∅;
     LocalEmailManager.cwd := "/home/alice" |}.

Definition office_ro : LocalEmailManager.world :=
  {| LocalEmailManager.store := world0;
     LocalEmailManager.addresses_file :=
       LocalEmailManager.AddressList [entry "alice" "local"; entry "bob" "local"];
     LocalEmailManager.addresses_protected := true;
     LocalEmailManager.addresses_failure := OpenFails;
     LocalEmailManager.undeletable := ∅;
     LocalEmailManager.cwd := "/home/alice" |}.


(** The world of [office] where Bob's mailbox document cannot be
    removed. *)
Definition office_locked : LocalEmailManager.world :=
  {| LocalEmailManager.store := world0;
     LocalEmailManager.addresses_file :=
       LocalEmailManager.AddressList [entry "alice" "local"; entry "bob" "local"];
     LocalEmailManager.addresses_protected := false;
     LocalEmailManager.addresses_failure := OpenFails;
     LocalEmailManager.undeletable := {[ file_of "bob@local" ]};
     LocalEmailManager.cwd := "/home/alice" |}.

(** A message of three parts: a text, an attached text and a second
    text. *)
Definition two_texts : IMAPProvider.message :=
  IMAPProvider.Multipart [("Subject", "Hi")] "multipart/mixed" None
    [IMAPProvider.Part [] "text/plain" None (list_byte_of_string "first");
     IMAPProvider.Part [("Content-Disposition", "attachment; filename=a.txt")]
                       "text/plain" (Some "a.txt") (list_byte_of_string "attached");
     IMAPProvider.Part [] "text/plain" None (list_byte_of_string "second")].

End MoreExamples.

(** * Properties *)

(** ** Lines, stripping and joining *)

Section StringFacts.

Import PyStr.

Lemma lstrip_head_ok s : head_ok (lstrip s).
Proof.
  induction s as [|c s IH]; simpl; [exact I|].
  destruct (is_space c) eqn:E; [exact IH | exact E].
Qed.

Lemma lstrip_id s : head_ok s -> lstrip s = s.
Proof. destruct s as [|c s]; simpl; [reflexivity|]. now intros ->. Qed.

Lemma rstrip_cons c s :
  rstrip (String c s) =
  match rstrip s with
  | EmptyString => if is_space c then EmptyString else String c EmptyString
  | String d r => String c (String d r)
  end.
Proof. reflexivity. Qed.

Lemma rstrip_idem s : rstrip (rstrip s) = rstrip s.
Proof.
  induction s as [|c s IH]; [reflexivity|].
  rewrite rstrip_cons. destruct (rstrip s) as [|d r] eqn:E.
  - destruct (is_space c) eqn:Ec; simpl; [reflexivity | now rewrite Ec].
  - rewrite rstrip_cons, IH. reflexivity.
Qed.

Lemma rstrip_head_ok s : head_ok s -> head_ok (rstrip s).
Proof.
  destruct s as [|c s]; [trivial|].
  rewrite rstrip_cons. simpl. intros Hc.
  destruct (rstrip s); [rewrite Hc|]; exact Hc.
Qed.

Lemma strip_idem s : strip (strip s) = strip s.
Proof.
  unfold strip.
  rewrite (lstrip_id (rstrip (lstrip s))).
  - apply rstrip_idem.
  - apply rstrip_head_ok, lstrip_head_ok.
Qed.

Lemma strip_head_ok s : head_ok (strip s).
Proof. apply rstrip_head_ok, lstrip_head_ok. Qed.

Lemma lstrip_no_breaks s : no_breaks s -> no_breaks (lstrip s).
Proof.
  unfold no_breaks. induction s as [|c s IH]; simpl; [trivial|].
  intros [Hc Hs]%andb_prop.
  destruct (is_space c); [auto|]. simpl. now rewrite Hc, Hs.
Qed.

Lemma rstrip_no_breaks s : no_breaks s -> no_breaks (rstrip s).
Proof.
  unfold no_breaks. induction s as [|c s IH]; [trivial|].
  simpl all_chars at 1. intros [Hc Hs]%andb_prop. specialize (IH Hs).
  rewrite rstrip_cons. destruct (rstrip s) as [|d r].
  - destruct (is_space c); simpl; [reflexivity | now rewrite Hc].
  - change (all_chars (fun c0 => negb (is_linebreak c0)) (String c (String d r)))
      with (negb (is_linebreak c) && all_chars (fun c0 => negb (is_linebreak c0)) (String d r)).
    now rewrite Hc, IH.
Qed.

Lemma strip_no_breaks s : no_breaks s -> no_breaks (strip s).
Proof. intros. now apply rstrip_no_breaks, lstrip_no_breaks. Qed.

Lemma splitlines_from_no_breaks s :
  forall after_cr, Forall no_breaks (splitlines_from after_cr s).
Proof.
  induction s as [|c s IH]; intros after_cr; simpl; [constructor|].
  destruct (after_cr && Ascii.eqb c LF); [apply IH|].
  destruct (is_linebreak c) eqn:Ec.
  - constructor; [reflexivity | apply IH].
  - specialize (IH false).
    destruct (splitlines_from false s) as [|l ls].
    + constructor; [|constructor]. unfold no_breaks. simpl. now rewrite Ec.
    + inversion IH as [|? ? Hl Hls]; subst.
      constructor; [|exact Hls]. unfold no_breaks in *. simpl. now rewrite Ec, Hl.
Qed.

(** Every line of [clean_lines] is a clean line. *)
Lemma clean_lines_clean text : Forall clean_line (clean_lines text).
Proof.
  unfold clean_lines, splitlines.
  pose proof (splitlines_from_no_breaks text false) as Hnb.
  induction Hnb as [|l ls Hl Hls IH]; simpl; [constructor|].
  rewrite filter_cons. destruct (decide (truthy (strip l) = true)) as [Ht|Ht].
  - constructor; [|exact IH]. repeat split.
    + intros E. rewrite E in Ht. discriminate.
    + apply strip_idem.
    + now apply strip_no_breaks.
  - exact IH.
Qed.

(** A clean line is a line of its own. *)
Lemma splitlines_line l : l <> EmptyString -> no_breaks l -> splitlines l = [l].
Proof.
  unfold splitlines, no_breaks. induction l as [|c l IH]; [congruence|].
  intros _. simpl. intros [Hc Hl]%andb_prop.
  apply negb_true_iff in Hc. rewrite Hc.
  destruct l as [|d l]; [reflexivity|].
  rewrite IH; [reflexivity | congruence | exact Hl].
Qed.

Lemma splitlines_app_lf l rest :
  no_breaks l ->
  splitlines (l +:+ String LF rest) = l :: splitlines rest.
Proof.
  unfold splitlines, no_breaks. induction l as [|c l IH]; simpl.
  - reflexivity.
  - intros [Hc Hl]%andb_prop. apply negb_true_iff in Hc. rewrite Hc.
    now rewrite (IH Hl).
Qed.

Lemma join_cons sep p q ps :
  join sep (p :: q :: ps) = p +:+ sep +:+ join sep (q :: ps).
Proof. reflexivity. Qed.

Lemma splitlines_join ls :
  Forall clean_line ls -> splitlines (join (String LF EmptyString) ls) = ls.
Proof.
  induction 1 as [|l ls (Hne & _ & Hnb) Hls IH]; [reflexivity|].
  destruct ls as [|q ps].
  - now apply splitlines_line.
  - rewrite join_cons.
    change (String LF EmptyString +:+ join (String LF EmptyString) (q :: ps))
      with (String LF (join (String LF EmptyString) (q :: ps))).
    rewrite splitlines_app_lf by exact Hnb. now rewrite IH.
Qed.

Lemma clean_line_head_ok l : clean_line l -> head_ok l.
Proof. intros (_ & <- & _). apply strip_head_ok. Qed.

Lemma clean_line_rstrip l : clean_line l -> rstrip l = l.
Proof. intros (_ & E & _). rewrite <- E. unfold strip. apply rstrip_idem. Qed.

Lemma no_breaks_no_lf l : no_breaks l -> has_char LF l = false.
Proof.
  unfold no_breaks. induction l as [|c l IH]; simpl; [reflexivity|].
  intros [Hc Hl]%andb_prop. rewrite (IH Hl), orb_false_r.
  destruct (Ascii.eqb_spec c LF) as [->|]; [discriminate Hc | reflexivity].
Qed.

Lemma clean_line_first l :
  clean_line l -> exists c r, l = String c r /\ Ascii.eqb c LF = false.
Proof.
  intros (Hne & _ & Hnb). destruct l as [|c r]; [congruence|].
  exists c, r. split; [reflexivity|].
  apply no_breaks_no_lf in Hnb. simpl in Hnb. now apply orb_false_iff in Hnb.
Qed.

Lemma join_head_ok ls :
  Forall clean_line ls -> head_ok (join (String LF EmptyString) ls).
Proof.
  destruct 1 as [|l ls Hl Hls]; [exact I|].
  pose proof (clean_line_head_ok l Hl) as Hh.
  destruct Hl as (Hne & _). destruct l as [|c r]; [congruence|].
  destruct ls; exact Hh.
Qed.

Lemma join_first l ls :
  Forall clean_line (l :: ls) ->
  exists c r, join (String LF EmptyString) (l :: ls) = String c r
              /\ Ascii.eqb c LF = false.
Proof.
  intros Hall. inversion Hall as [|? ? Hl Hls]; subst.
  destruct (clean_line_first l Hl) as (c & r & -> & Hc).
  destruct ls; simpl; eauto.
Qed.

Lemma rstrip_app a b :
  b <> EmptyString -> rstrip b = b -> rstrip (a +:+ b) = a +:+ b.
Proof.
  intros Hne Hb. induction a as [|c a IH]; [exact Hb|].
  change (String c a +:+ b) with (String c (a +:+ b)). rewrite rstrip_cons, IH.
  destruct (a +:+ b) eqn:E; [|reflexivity].
  destruct a; [change (b = EmptyString) in E; congruence | discriminate E].
Qed.

Lemma rstrip_join ls :
  Forall clean_line ls ->
  rstrip (join (String LF EmptyString) ls) = join (String LF EmptyString) ls.
Proof.
  induction 1 as [|l ls Hl Hls IH]; [reflexivity|].
  destruct ls as [|q ps]; [now apply clean_line_rstrip|].
  rewrite join_cons.
  destruct (join_first q ps Hls) as (c & r & E & _).
  apply rstrip_app.
  - discriminate.
  - change (String LF EmptyString +:+ join (String LF EmptyString) (q :: ps))
      with (String LF (join (String LF EmptyString) (q :: ps))).
    rewrite rstrip_cons, IH, E. reflexivity.
Qed.

Lemma strip_join ls :
  Forall clean_line ls ->
  strip (join (String LF EmptyString) ls) = join (String LF EmptyString) ls.
Proof.
  intros Hall. unfold strip.
  rewrite lstrip_id by now apply join_head_ok. now apply rstrip_join.
Qed.

Lemma no_double_lf_tail c s : no_double_lf (String c s) = true -> no_double_lf s = true.
Proof. destruct s as [|d s]; [reflexivity|]. simpl. now intros [_ ?]%andb_prop. Qed.

Lemma no_double_lf_line l : has_char LF l = false -> no_double_lf l = true.
Proof.
  induction l as [|c l IH]; [reflexivity|].
  simpl has_char. intros [Hc Hl]%orb_false_iff.
  destruct l as [|d l]; [reflexivity|].
  change (negb (Ascii.eqb c LF && Ascii.eqb d LF) && no_double_lf (String d l) = true).
  now rewrite Hc, IH.
Qed.

Lemma no_double_lf_app l c r :
  l <> EmptyString -> has_char LF l = false -> Ascii.eqb c LF = false ->
  no_double_lf (String c r) = true ->
  no_double_lf (l +:+ String LF (String c r)) = true.
Proof.
  intros Hne Hl Hc Hr. induction l as [|a l IH]; [congruence|].
  simpl in Hl. apply orb_false_iff in Hl as [Ha Hl].
  destruct l as [|b l].
  - change (negb (Ascii.eqb a LF && Ascii.eqb LF LF)
            && (negb (Ascii.eqb LF LF && Ascii.eqb c LF)
                && no_double_lf (String c r)) = true).
    now rewrite Ha, Hc, Hr.
  - change (negb (Ascii.eqb a LF && Ascii.eqb b LF)
            && no_double_lf (String b l +:+ String LF (String c r)) = true).
    rewrite Ha. simpl negb. rewrite IH; [reflexivity | discriminate | exact Hl].
Qed.

Lemma no_double_lf_join ls :
  Forall clean_line ls -> no_double_lf (join (String LF EmptyString) ls) = true.
Proof.
  induction 1 as [|l ls Hl Hls IH]; [reflexivity|].
  destruct ls as [|q ps].
  - apply no_double_lf_line, no_breaks_no_lf, Hl.
  - rewrite join_cons.
    change (String LF EmptyString +:+ join (String LF EmptyString) (q :: ps))
      with (String LF (join (String LF EmptyString) (q :: ps))).
    destruct (join_first q ps Hls) as (c & r & E & Hc). rewrite E in *.
    apply no_double_lf_app; [apply Hl | apply no_breaks_no_lf, Hl | exact Hc | exact IH].
Qed.

(** Without two line feeds in a row the substitution has nothing to
    replace. *)
Lemma sub_run_id s :
  forall k, (k <= 1)%nat -> no_double_lf (newlines k +:+ s) = true ->
            sub_run k s = newlines k +:+ s.
Proof.
  induction s as [|c s IH]; intros k Hk Hnd.
  - simpl. unfold flush_run. destruct k as [|[|k]]; [reflexivity | reflexivity | lia].
  - simpl sub_run. destruct (Ascii.eqb_spec c LF) as [->|Hc].
    + destruct k as [|[|k]]; [| discriminate Hnd | lia].
      rewrite IH; [reflexivity | lia | exact Hnd].
    + assert (Hs : no_double_lf s = true).
      { destruct k as [|[|k]]; [| | lia].
        - change (no_double_lf (String c s) = true) in Hnd.
          now apply no_double_lf_tail in Hnd.
        - change (no_double_lf (String LF (String c s)) = true) in Hnd.
          now apply no_double_lf_tail, no_double_lf_tail in Hnd. }
      rewrite (IH 0%nat); [| lia | exact Hs].
      unfold flush_run. destruct k as [|[|k]]; [reflexivity | reflexivity | lia].
Qed.

Lemma re_sub_newlines_id s : no_double_lf s = true -> re_sub_newlines s = s.
Proof. intros Hs. unfold re_sub_newlines. now rewrite sub_run_id by (simpl; auto). Qed.

Lemma startswith_cons a p b s :
  startswith (String a p) (String b s) = Ascii.eqb a b && startswith p s.
Proof. reflexivity. Qed.

Lemma contains_cons sub c s :
  contains sub (String c s) = startswith sub (String c s) || contains sub s.
Proof. reflexivity. Qed.

Lemma no_double_lf_contains s :
  no_double_lf s = true ->
  contains (String LF (String LF EmptyString)) s = false.
Proof.
  induction s as [|c s IH]; [reflexivity|].
  intros Hnd. pose proof (no_double_lf_tail _ _ Hnd) as Hs.
  rewrite contains_cons, (IH Hs), orb_false_r, startswith_cons.
  destruct s as [|d s]; [apply andb_false_r|].
  rewrite startswith_cons.
  change (negb (Ascii.eqb c LF && Ascii.eqb d LF) && no_double_lf (String d s) = true) in Hnd.
  apply andb_prop in Hnd as [Hcd _].
  rewrite (Ascii.eqb_sym LF c), (Ascii.eqb_sym LF d), andb_true_r.
  now apply negb_true_iff in Hcd.
Qed.

End StringFacts.

(** ** The cleanup of [html_to_text], lines 42-49 *)

Lemma clean_up_join text :
  clean_up text = PyStr.join (String PyStr.LF EmptyString) (clean_lines text).
Proof.
  unfold clean_up. pose proof (clean_lines_clean text) as Hall.
  rewrite re_sub_newlines_id by now apply no_double_lf_join.
  now apply strip_join.
Qed.

Lemma clean_lines_join ls :
  Forall clean_line ls ->
  clean_lines (PyStr.join (String PyStr.LF EmptyString) ls) = ls.
Proof.
  intros Hall. unfold clean_lines. rewrite splitlines_join by exact Hall.
  induction Hall as [|l ls (Hne & Hstrip & Hnb) Hls IH]; [reflexivity|].
  simpl map. rewrite filter_cons, Hstrip.
  destruct (decide (PyStr.truthy l = true)) as [_|Hf].
  - now rewrite IH.
  - destruct l; [congruence | contradiction Hf; reflexivity].
Qed.

Lemma clean_up_idem text : clean_up (clean_up text) = clean_up text.
Proof.
  rewrite (clean_up_join (clean_up text)), (clean_up_join text).
  now rewrite clean_lines_join by apply clean_lines_clean.
Qed.


(** ** The parser on plain text *)

Section PlainText.

Import PyStr Soup.

Lemma append_nil_r s : s +:+ EmptyString = s.
Proof.
  induction s as [|c s IH]; [reflexivity|].
  change (String c (s +:+ EmptyString) = String c s). now rewrite IH.
Qed.

Lemma append_snoc s c t : (s +:+ String c EmptyString) +:+ t = s +:+ String c t.
Proof.
  induction s as [|d s IH]; [reflexivity|].
  change (String d ((s +:+ String c EmptyString) +:+ t) = String d (s +:+ String c t)).
  now rewrite IH.
Qed.

Lemma markup_free_cons c t :
  markup_free (String c t) = true ->
  Ascii.eqb c "<"%char = false /\ Ascii.eqb c "&"%char = false /\ markup_free t = true.
Proof.
  unfold markup_free. simpl has_char.
  rewrite !negb_orb. intros H.
  apply andb_prop in H as [Ha Hb].
  apply andb_prop in Ha as [H1 H2]. apply andb_prop in Hb as [H3 H4].
  apply negb_true_iff in H1, H3. now rewrite H1, H2, H3, H4.
Qed.

Lemma span_plain t :
  markup_free t = true ->
  span (fun c => negb (interesting_normal c)) t = (t, EmptyString).
Proof.
  induction t as [|c t IH]; [reflexivity|].
  intros (Hlt & Hamp & Ht)%markup_free_cons.
  cbn [span]. unfold interesting_normal at 1. rewrite Hlt, Hamp. cbn [orb negb].
  now rewrite (IH Ht).
Qed.

(** Text without markup is one piece of data. *)
Lemma feed_plain t : markup_free t = true -> feed t = data t.
Proof.
  intros Hm. unfold feed. destruct t as [|c t]; [reflexivity|].
  cbn [goahead]. rewrite (span_plain _ Hm). reflexivity.
Qed.

Lemma ascii_space_is_space c : is_ascii_space c = true -> is_space c = true.
Proof.
  destruct c as [[] [] [] [] [] [] [] []]; vm_compute; congruence.
Qed.

(** Text without markup that does not begin with white space is one
    string of the document. *)
Lemma BeautifulSoup_plain t :
  t <> EmptyString -> head_ok t -> markup_free t = true ->
  BeautifulSoup t = [NText t].
Proof.
  intros Hne Hh Hm. unfold BeautifulSoup.
  rewrite (feed_plain t Hm).
  destruct t as [|c t]; [congruence|].
  cbn [data fold_left handle]. unfold handle_data, endData, reset.
  cbn [current_data tagStack already_closed_empty_element default from_option id].
  change (EmptyString +:+ String c t) with (String c t).
  assert (Hc : is_ascii_space c = false).
  { destruct (is_ascii_space c) eqn:E; [|reflexivity].
    apply ascii_space_is_space in E. simpl in Hh. congruence. }
  cbn [all_chars]. rewrite Hc. reflexivity.
Qed.

(** Text without markup is not rejected. *)
Lemma plain_text_is_accepted t : markup_free t = true -> rejected t = false.
Proof.
  intros Hm. unfold rejected. rewrite (feed_plain t Hm). now destruct t.
Qed.

Lemma soup_text_plain t :
  t <> EmptyString -> head_ok t -> markup_free t = true -> soup_text t = t.
Proof.
  intros Hne Hh Hm. unfold soup_text.
  rewrite (BeautifulSoup_plain t Hne Hh Hm). simpl. apply append_nil_r.
Qed.

End PlainText.

(** ** [html_to_text] *)

Lemma html_to_text_empty : html_to_text EmptyString = EmptyString.
Proof. reflexivity. Qed.

Lemma html_to_text_head_ok s : head_ok (html_to_text s).
Proof.
  unfold html_to_text. destruct (negb (PyStr.truthy s)); [exact I|].
  unfold clean_up. apply strip_head_ok.
Qed.

Lemma html_to_text_fixed s :
  markup_free (html_to_text s) = true ->
  html_to_text (html_to_text s) = html_to_text s.
Proof.
  intros Hm. pose proof (html_to_text_head_ok s) as Hh.
  destruct (html_to_text s) as [|c t] eqn:E; [reflexivity|].
  rewrite <- E in *.
  unfold html_to_text at 1. rewrite E at 1. simpl negb. cbv iota.
  rewrite soup_text_plain; [| rewrite E; discriminate | exact Hh | exact Hm].
  unfold html_to_text. destruct (negb (PyStr.truthy s)); [reflexivity|].
  apply clean_up_idem.
Qed.

(** ** Python's [dict], [sort] and slices *)

Section DictFacts.

Context {V : Type}.
Implicit Types (d : PyDict.t V) (k : string).


Lemma dict_contains_keys k d :
  PyDict.contains k d = true <-> k ∈ PyDict.keys d.
Proof.
  unfold PyDict.contains, PyDict.keys.
  induction d as [|[k' v] d IH]; simpl.
  - split; [discriminate | intros Hx; inversion Hx].
  - destruct (String.eqb_spec k' k) as [->|Hne].
    + split; [intros _; left | reflexivity].
    + rewrite IH. split; [intros Hx; now right|].
      intros Hx. inversion Hx; subst; [congruence | assumption].
Qed.

Lemma dict_keys_update id (f : V -> V) d :
  PyDict.keys (PyDict.update id f d) = PyDict.keys d.
Proof.
  unfold PyDict.keys. induction d as [|[k' v] d IH]; simpl; [reflexivity|].
  destruct (String.eqb k' id); simpl; [reflexivity | now rewrite IH].
Qed.

Lemma dict_get_update k id (f : V -> V) d :
  PyDict.get k (PyDict.update id f d) =
  if String.eqb k id then f <$> PyDict.get k d else PyDict.get k d.
Proof.
  induction d as [|[k' v] d IH]; simpl; [now destruct (String.eqb k id)|].
  destruct (String.eqb_spec k' id) as [->|Hne]; simpl.
  - destruct (String.eqb_spec id k) as [->|Hne'].
    + now rewrite String.eqb_refl.
    + destruct (String.eqb_spec k id); [congruence | reflexivity].
  - destruct (String.eqb_spec k' k) as [->|Hne'].
    + destruct (String.eqb_spec k id); [congruence | reflexivity].
    + exact IH.
Qed.

Lemma dict_get_set k id (v : V) d :
  PyDict.get k (PyDict.set id v d) =
  if String.eqb k id then Some v else PyDict.get k d.
Proof.
  induction d as [|[k' v'] d IH]; simpl.
  - rewrite String.eqb_sym. reflexivity.
  - destruct (String.eqb_spec k' id) as [->|Hne]; simpl.
    + rewrite (String.eqb_sym k id). now destruct (String.eqb id k).
    + destruct (String.eqb_spec k' k) as [->|Hne'].
      * destruct (String.eqb_spec k id); [congruence | reflexivity].
      * exact IH.
Qed.


Lemma dict_keys_set id (v : V) d :
  PyDict.keys (PyDict.set id v d) =
  if PyDict.contains id d then PyDict.keys d else PyDict.keys d ++ [id].
Proof.
  unfold PyDict.contains, PyDict.keys.
  induction d as [|[k' v'] d IH]; simpl; [reflexivity|].
  destruct (String.eqb k' id); simpl; [reflexivity|].
  rewrite IH. now destruct (PyDict.get id d).
Qed.

Lemma dict_get_elem k (v : V) d :
  NoDup (PyDict.keys d) -> (k, v) ∈ d -> PyDict.get k d = Some v.
Proof.
  unfold PyDict.keys. induction d as [|[k' v'] d IH]; simpl.
  - intros _ Hx. inversion Hx.
  - intros [Hk Hd]%NoDup_cons Hx. apply elem_of_cons in Hx as [E|Hx].
    + injection E as -> ->. now rewrite String.eqb_refl.
    + destruct (String.eqb_spec k' k) as [->|Hne]; [|now apply IH].
      contradiction Hk. apply list_elem_of_fmap. now exists (k, v).
Qed.

End DictFacts.

Section SortFacts.

Import LocalProvider.
Context {A : Type} (key : A -> Z).

Lemma insert_desc_perm x l : insert_desc key x l ≡ₚ x :: l.
Proof.
  induction l as [|y l IH]; simpl; [reflexivity|].
  destruct (key y <=? key x); [reflexivity|].
  rewrite IH. apply Permutation_swap.
Qed.

Lemma sort_reverse_perm l : sort_reverse key l ≡ₚ l.
Proof.
  induction l as [|x l IH]; simpl; [reflexivity|].
  now rewrite insert_desc_perm, IH.
Qed.





(** A slice with bounds that are not negative. *)
Lemma slice_nonneg (lo n : Z) (l : list A) :
  0 <= lo -> 0 <= n ->
  slice lo (lo + n) l = take (Z.to_nat n) (drop (Z.to_nat lo) l).
Proof.
  intros Hlo Hn. unfold slice, clamp.
  destruct (Z.ltb_spec lo 0) as [?|_]; [lia|].
  destruct (Z.ltb_spec (lo + n) 0) as [?|_]; [lia|].
  destruct (Z.le_gt_cases (Z.of_nat (length l)) lo) as [Hge|Hlt].
  - rewrite !drop_ge by lia. now rewrite !take_nil.
  - rewrite (Z.min_l lo) by lia.
    destruct (Z.le_gt_cases (lo + n) (Z.of_nat (length l))) as [Hin|Hout].
    + rewrite Z.min_l by lia. f_equal. lia.
    + rewrite Z.min_r by lia.
      rewrite !take_ge; [reflexivity | |]; rewrite length_drop; lia.
Qed.

End SortFacts.

(** ** The local store *)

Section StoreFacts.

Import LocalProvider.
Context `{PyLib}.

Lemma save_emails_run s w :
  _save_emails s w =
  if bool_decide (emails_file s ∈ write_protected w)
  then (Return tt, s, printing ErrorSavingEmails (failed_write (emails_file s) w))
  else (Return tt, s,
        set_files (<[emails_file s := JsonObject (_emails s)]> (files w)) w).
Proof.
  unfold _save_emails, try_except, bind, get_self, dump.
  now destruct (bool_decide (emails_file s ∈ write_protected w)).
Qed.

Lemma refused_unprotected w name :
  name ∉ write_protected w -> refused w name = false.
Proof.
  intros Hw. unfold refused. now rewrite bool_decide_eq_false_2 by exact Hw.
Qed.

Lemma failed_write_files name w :
  files (failed_write name w) = left_on_disk w name.
Proof. unfold failed_write, left_on_disk. now destruct (write_failure w name). Qed.

Lemma failed_write_rest name w :
  write_protected (failed_write name w) = write_protected w
  /\ write_failure (failed_write name w) = write_failure w
  /\ stdout (failed_write name w) = stdout w
  /\ uuid4_source (failed_write name w) = uuid4_source w
  /\ uuid4_calls (failed_write name w) = uuid4_calls w
  /\ clock_calls (failed_write name w) = clock_calls w
  /\ relayed (failed_write name w) = relayed w.
Proof. unfold failed_write. now destruct (write_failure w name). Qed.

Lemma relayed_failed_write name w : relayed (failed_write name w) = relayed w.
Proof. unfold failed_write. now destruct (write_failure w name). Qed.


Lemma protected_failed_write name w :
  write_protected (failed_write name w) = write_protected w.
Proof. unfold failed_write. now destruct (write_failure w name). Qed.


Lemma left_on_disk_other w name f :
  f <> name -> left_on_disk w name !! f = files w !! f.
Proof.
  intros Hf. unfold left_on_disk.
  destruct (write_failure w name); [reflexivity| |reflexivity].
  now apply lookup_insert_ne.
Qed.



(** C10: on an id that the mailbox does not hold, [mark_read] and
    [delete_email] return [False]; the provider (its mailbox in memory)
    and the world (the documents on disk, what was printed) are as
    before: nothing was written. *)
Theorem unknown_id_changes_nothing (s : self) (w : world) (email_id : string) (read : bool) :
  connected s = true ->
  PyDict.contains email_id (_emails s) = false ->
  mark_read email_id read s w = (Return false, s, w)
  /\ delete_email email_id s w = (Return false, s, w).
Proof.
  intros Hc Hid. unfold mark_read, delete_email, bind, get_self, ret.
  now rewrite Hc, Hid.
Qed.


End StoreFacts.

(** ** Folders and their counts *)

Section FolderFacts.

Import LocalProvider.

Lemma count_folders_cons d values folders :
  count_folders (d :: values) folders = count_folders values (count_step d folders).
Proof. reflexivity. Qed.

Lemma count_step_keys d folders :
  PyDict.keys (count_step d folders) =
  if PyDict.contains (folder_of d) folders
  then PyDict.keys folders else PyDict.keys folders ++ [folder_of d].
Proof.
  unfold count_step. fold (folder_of d).
  destruct (negb (default false (D.is_read d)));
    rewrite ?dict_keys_update;
    destruct (PyDict.contains (folder_of d) folders) eqn:E; simpl;
    rewrite ?dict_keys_set, ?E; reflexivity.
Qed.

Lemma count_step_counts n d folders :
  counts n (count_step d folders) =
  if String.eqb n (folder_of d)
  then (fst (counts n folders) + 1,
        snd (counts n folders) + (if is_unread d then 1 else 0))
  else counts n folders.
Proof.
  unfold count_step, counts, is_unread. fold (folder_of d).
  set (f := folder_of d).
  set (folders1 := if negb (PyDict.contains f folders)
                   then PyDict.set f (0, 0) folders else folders).
  assert (H1 : PyDict.get n folders1 =
               if String.eqb n f
               then Some (default (0, 0) (PyDict.get n folders))
               else PyDict.get n folders).
  { subst folders1. unfold PyDict.contains.
    destruct (String.eqb_spec n f) as [->|Hne].
    - destruct (PyDict.get f folders) eqn:E; simpl; [exact E|].
      now rewrite dict_get_set, String.eqb_refl.
    - destruct (PyDict.get f folders) eqn:E; simpl; [reflexivity|].
      rewrite dict_get_set. now destruct (String.eqb_spec n f). }
  destruct (negb (default false (D.is_read d)));
    rewrite ?dict_get_update, H1;
    destruct (String.eqb n f); simpl; try reflexivity.
  now rewrite Z.add_0_r.
Qed.

Lemma total_in_cons n d values :
  total_in n (d :: values) =
  (if String.eqb n (folder_of d) then 1 else 0) + total_in n values.
Proof.
  unfold total_in. rewrite filter_cons.
  destruct (String.eqb_spec n (folder_of d)) as [->|Hne].
  - rewrite decide_True by reflexivity. simpl length. lia.
  - rewrite decide_False by congruence. lia.
Qed.

Lemma unread_in_cons n d values :
  unread_in n (d :: values) =
  (if String.eqb n (folder_of d) then (if is_unread d then 1 else 0) else 0)
  + unread_in n values.
Proof.
  unfold unread_in. rewrite filter_cons.
  destruct (String.eqb_spec n (folder_of d)) as [->|Hne].
  - destruct (is_unread d) eqn:E.
    + rewrite decide_True by (split; reflexivity). simpl length. lia.
    + rewrite decide_False by (intros [_ ?]; congruence). lia.
  - rewrite decide_False by (intros [? _]; congruence). lia.
Qed.

Lemma count_step_NoDup d folders :
  NoDup (PyDict.keys folders) -> NoDup (PyDict.keys (count_step d folders)).
Proof.
  intros Hnd. rewrite count_step_keys.
  destruct (PyDict.contains (folder_of d) folders) eqn:E; [exact Hnd|].
  apply NoDup_app. split; [exact Hnd|]. split; [|apply NoDup_singleton].
  intros x Hx Hx'. apply list_elem_of_singleton in Hx'. subst x.
  apply dict_contains_keys in Hx. congruence.
Qed.

(** What the counting loop computes. *)
Lemma count_folders_spec values :
  forall folders,
    NoDup (PyDict.keys folders) ->
    NoDup (PyDict.keys (count_folders values folders))
    /\ (forall n, n ∈ PyDict.keys (count_folders values folders) <->
                  n ∈ PyDict.keys folders \/ n ∈ map folder_of values)
    /\ (forall n, counts n (count_folders values folders) =
                  (fst (counts n folders) + total_in n values,
                   snd (counts n folders) + unread_in n values)).
Proof.
  induction values as [|d values IH]; intros folders Hnd.
  - simpl. split; [exact Hnd|]. split.
    + intros n. split; [now left | intros [?|Hx]; [assumption | inversion Hx]].
    + intros n. unfold total_in, unread_in. simpl.
      rewrite !Z.add_0_r. now destruct (counts n folders).
  - rewrite count_folders_cons.
    destruct (IH (count_step d folders) (count_step_NoDup d folders Hnd))
      as (Hnd' & Hkeys & Hcounts).
    split; [exact Hnd'|]. split.
    + intros n. rewrite Hkeys, count_step_keys.
      destruct (PyDict.contains (folder_of d) folders) eqn:E.
      * apply dict_contains_keys in E. simpl. rewrite elem_of_cons.
        split; [tauto|]. intros [?|[->|?]]; tauto.
      * rewrite elem_of_app, list_elem_of_singleton. simpl. rewrite elem_of_cons.
        tauto.
    + intros n. rewrite Hcounts, count_step_counts, total_in_cons, unread_in_cons.
      destruct (String.eqb n (folder_of d)); simpl; f_equal; lia.
Qed.

End FolderFacts.

Section FolderTheorem.

Import LocalProvider.
Context `{PyLib}.

Lemma mem_elem_of x l : PyStr.mem x l = true <-> x ∈ l.
Proof.
  unfold PyStr.mem. rewrite existsb_exists. split.
  - intros (y & Hy & E). apply String.eqb_eq in E. subst. now apply list_elem_of_In.
  - intros Hx. exists x. split; [now apply list_elem_of_In | apply String.eqb_refl].
Qed.

(** C4: [get_folders] returns the four canonical folders, then every
    other folder name met in the stored records, each name once; the
    total of a folder is the number of stored records whose folder is
    that name, its unread count the number of those that are not read;
    an empty mailbox gives the four canonical folders with counts 0.  The
    call changes neither the provider nor the world. *)
Theorem get_folders_counts (s : self) (w : world) :
  exists fl,
    get_folders s w = (Return fl, s, w)
    /\ take 4 (map Folder.name fl) = ["INBOX"; "Sent"; "Drafts"; "Trash"]
    /\ (forall n, n ∈ map Folder.name fl <->
                  n ∈ ["INBOX"; "Sent"; "Drafts"; "Trash"]
                  \/ n ∈ map folder_of (PyDict.values (_emails s)))
    /\ NoDup (map Folder.name fl)
    /\ Forall (counted (PyDict.values (_emails s))) fl
    /\ (_emails s = [] ->
        fl = [Folder.mk "INBOX" "INBOX" 0 0 (Some "INBOX");
              Folder.mk "Sent" "Sent" 0 0 (Some "Sent");
              Folder.mk "Drafts" "Drafts" 0 0 (Some "Drafts");
              Folder.mk "Trash" "Trash" 0 0 (Some "Trash")]).
Proof.
  set (values := PyDict.values (_emails s)).
  set (folders := count_folders values []).
  destruct (count_folders_spec values [] (NoDup_nil_2)) as (Hnd & Hkeys & Hcounts).
  fold folders in Hnd, Hkeys, Hcounts.
  set (others := filter (fun kv : string * (Z * Z) =>
                           PyStr.mem (fst kv) default_folders = false) folders).
  assert (Hnames : forall l : list (string * (Z * Z)),
             map Folder.name
                 (map (fun kv : string * (Z * Z) =>
                         Folder.init (fst kv) (fst kv) (Some (fst kv))
                                     (snd (snd kv)) (fst (snd kv))) l)
             = map fst l).
  { induction l as [|[k v] l IH]; simpl; [reflexivity|]. rewrite IH.
    now destruct k. }
  exists (map (fun folder_name =>
                 Folder.init folder_name folder_name (Some folder_name)
                   (snd (default (0, 0) (PyDict.get folder_name folders)))
                   (fst (default (0, 0) (PyDict.get folder_name folders))))
              default_folders
          ++ map (fun kv : string * (Z * Z) =>
                    Folder.init (fst kv) (fst kv) (Some (fst kv))
                                (snd (snd kv)) (fst (snd kv))) others).
  split; [reflexivity|].
  rewrite map_app, Hnames.
  assert (Hdef : map Folder.name
                   (map (fun folder_name =>
                           Folder.init folder_name folder_name (Some folder_name)
                             (snd (default (0, 0) (PyDict.get folder_name folders)))
                             (fst (default (0, 0) (PyDict.get folder_name folders))))
                        default_folders) = default_folders) by reflexivity.
  rewrite Hdef.
  split; [reflexivity|].
  assert (Hothers : forall n, (n ∈ map fst others) <->
                              ((n ∉ default_folders) /\ (n ∈ map folder_of values))).
  { intros n. subst others. split.
    - intros Hn. apply list_elem_of_fmap in Hn as ([k v] & -> & Hin).
      apply list_elem_of_filter in Hin as [Hp Hin]. cbn [fst] in *.
      assert (Hk : k ∈ PyDict.keys folders).
      { apply list_elem_of_fmap. now exists (k, v). }
      apply Hkeys in Hk as [Hk|Hk]; [inversion Hk|].
      split; [|exact Hk]. intros Hd%mem_elem_of. congruence.
    - intros [Hnd' Hin].
      assert (Hk : n ∈ PyDict.keys folders) by (apply Hkeys; now right).
      apply list_elem_of_fmap in Hk as ([k v] & -> & Hkv).
      apply list_elem_of_fmap. exists (k, v). split; [reflexivity|].
      apply list_elem_of_filter. split; [|exact Hkv]. cbn [fst] in *.
      destruct (PyStr.mem k default_folders) eqn:E; [|reflexivity].
      apply mem_elem_of in E. contradiction. }
  split.
  { intros n. rewrite elem_of_app, Hothers.
    destruct (decide (n ∈ default_folders)); tauto. }
  split.
  { apply NoDup_app. split; [|split].
    - unfold default_folders.
      repeat (apply NoDup_cons_2;
              [rewrite ?elem_of_cons, elem_of_nil; intuition discriminate|]).
      apply NoDup_nil_2.
    - intros x Hx Hx'. apply Hothers in Hx'. tauto.
    - apply (sublist_NoDup _ (PyDict.keys folders)); [exact Hnd|].
      unfold PyDict.keys. apply (fmap_sublist fst). subst others. apply sublist_filter. }
  split.
  { apply Forall_app. split.
    - apply Forall_forall. intros f Hf.
      apply list_elem_of_fmap in Hf as (n & -> & _).
      unfold counted, Folder.init. simpl.
      fold (counts n folders). rewrite Hcounts.
      destruct (PyStr.truthy n); simpl; split; reflexivity.
    - apply Forall_forall. intros f Hf.
      apply list_elem_of_fmap in Hf as ([k v] & -> & Hin).
      subst others. apply list_elem_of_filter in Hin as [_ Hin].
      pose proof (dict_get_elem k v folders Hnd Hin) as Hget.
      pose proof (Hcounts k) as Hc. unfold counts in Hc. rewrite Hget in Hc.
      simpl in Hc. unfold counted, Folder.init. simpl. rewrite Hc.
      destruct (PyStr.truthy k); simpl; split; reflexivity. }
  intros Hempty. subst others folders values. rewrite Hempty. reflexivity.
Qed.

End FolderTheorem.

(** ** Fetching and searching *)

Section FetchFacts.

Import LocalProvider.
Context `{PyLib}.

Lemma dict_to_email_run d s w :
  _dict_to_email d s w =
  let (e, w') := message_of d w in (Return e, s, w').
Proof.
  unfold _dict_to_email, message_of, stored_date, bind, ret, now.
  destruct (D.date d) as [str|]; [destruct (fromisoformat str)|]; reflexivity.
Qed.


Lemma sort_by_date_run messages (s : self) (w : world) :
  sort_by_date messages s w =
  if mixed (map Email.date messages) then (Raise TypeError, s, w)
  else (Return (sort_reverse time_of messages), s, w).
Proof. unfold sort_by_date. now destruct (mixed _). Qed.

Lemma messages_of_app ds1 ds2 w :
  messages_of (ds1 ++ ds2) w =
  let (es1, w1) := messages_of ds1 w in
  let (es2, w2) := messages_of ds2 w1 in
  (es1 ++ es2, w2).
Proof.
  revert w. induction ds1 as [|d ds1 IH]; intros w; simpl.
  - now destruct (messages_of ds2 w).
  - destruct (message_of d w) as [e w1]. rewrite IH.
    destruct (messages_of ds1 w1) as [es1 w2].
    now destruct (messages_of ds2 w2).
Qed.


Lemma fetch_loop_run folder values :
  forall emails s w,
    fetch_loop folder values emails s w =
    let (es, w') := messages_of (filter (fun d => folder_of d = folder) values) w in
    (Return (emails ++ es), s, w').
Proof.
  induction values as [|d values IH]; intros emails s w.
  - simpl. now rewrite app_nil_r.
  - simpl fetch_loop. rewrite filter_cons. fold (folder_of d).
    destruct (String.eqb_spec (folder_of d) folder) as [E|E].
    + rewrite decide_True by exact E. unfold bind. rewrite dict_to_email_run.
      simpl messages_of. destruct (message_of d w) as [e w1].
      rewrite IH. destruct (messages_of _ w1) as [es w2].
      now rewrite <- app_assoc.
    + rewrite decide_False by exact E. apply IH.
Qed.

Lemma fetch_emails_slice (s : self) (w : world) (folder : string) (limit offset : Z) :
  connected s = true ->
  fetch_emails folder limit offset s w =
  let (messages, w') := stored_messages (fun d => folder_of d = folder) s w in
  if mixed (map Email.date messages) then (Raise TypeError, s, w')
  else (Return (slice offset (offset + limit) (sort_reverse time_of messages)), s, w').
Proof.
  intros Hc. unfold stored_messages.
  unfold fetch_emails, bind at 1, get_self. rewrite Hc. cbn [negb]. cbv beta iota.
  unfold bind at 1. rewrite fetch_loop_run.
  destruct (messages_of _ w) as [messages w']. simpl app.
  unfold bind. rewrite sort_by_date_run.
  now destruct (mixed _).
Qed.

Lemma fetch_emails_run (s : self) (w : world) (folder : string) (limit offset : Z) :
  connected s = true -> 0 <= limit -> 0 <= offset ->
  fetch_emails folder limit offset s w =
  let (messages, w') := stored_messages (fun d => folder_of d = folder) s w in
  if mixed (map Email.date messages) then (Raise TypeError, s, w')
  else (Return (take (Z.to_nat limit)
                     (drop (Z.to_nat offset) (sort_reverse time_of messages))), s, w').
Proof.
  intros Hc Hl Ho. rewrite fetch_emails_slice by exact Hc.
  destruct (stored_messages _ s w) as [messages w'].
  destruct (mixed _); [reflexivity|]. now rewrite slice_nonneg.
Qed.


Lemma out_of_folder_scope folder d : out_of_folder folder d = negb (in_scope folder d).
Proof.
  destruct folder as [[|c f]|]; try reflexivity.
  unfold out_of_folder, in_scope. cbn [PyStr.truthy andb].
  destruct (D.folder d) as [g|].
  - destruct (String.eqb_spec g (String c f)) as [->|Hne].
    + now rewrite bool_decide_eq_true_2.
    + rewrite bool_decide_eq_false_2; [reflexivity | congruence].
  - now rewrite bool_decide_eq_false_2.
Qed.

Lemma search_loop_run query folder values :
  forall results s w,
    search_loop (PyStr.lower query) folder values results s w =
    let (es, w') :=
      messages_of (filter (fun d => in_scope folder d = true
                                    /\ record_matches query d = true) values) w in
    (Return (results ++ es), s, w').
Proof.
  induction values as [|d values IH]; intros results s w.
  - simpl. now rewrite app_nil_r.
  - simpl search_loop. rewrite filter_cons, out_of_folder_scope.
    change (matches (PyStr.lower query) d) with (record_matches query d).
    destruct (in_scope folder d) eqn:Es; cbn [negb]; cbv beta iota.
    + destruct (record_matches query d) eqn:Em.
      * rewrite decide_True by (split; reflexivity).
        unfold bind. rewrite dict_to_email_run.
        simpl messages_of. destruct (message_of d w) as [e w1].
        rewrite IH. destruct (messages_of _ w1) as [es w2].
        now rewrite <- app_assoc.
      * rewrite decide_False by (intros [_ ?]; congruence). apply IH.
    + rewrite decide_False by (intros [? _]; congruence). apply IH.
Qed.



End FetchFacts.

(** ** Sending *)

Section SendFacts.

Import LocalProvider.
Context `{PyLib}.







End SendFacts.

Section SendTheorems.

Import LocalProvider.
Context `{PyLib}.






End SendTheorems.

(** ** The claims about the normalizer and the renderer *)

Section NormalizerTheorem.

Context `{PyLib}.

(** C7, amended: when the parts give an HTML body and no text body, the
    text body of the normalized message is the rendering of the HTML
    body (which can be empty, see [html_fallback_can_be_empty]). *)
Theorem html_fallback_is_rendered (now : datetime) (msg : IMAPProvider.message)
        (email_id : string) :
  PyStr.truthy (IMAPProvider.body_html (IMAPProvider.parse_bodies msg email_id)) = true ->
  IMAPProvider.body_text (IMAPProvider.parse_bodies msg email_id) = EmptyString ->
  Email.body_html (IMAPProvider._parse_email now msg email_id)
  = IMAPProvider.body_html (IMAPProvider.parse_bodies msg email_id)
  /\ Email.body_text (IMAPProvider._parse_email now msg email_id)
     = html_to_text (IMAPProvider.body_html (IMAPProvider.parse_bodies msg email_id)).
Proof.
  intros Hhtml Htext. unfold IMAPProvider._parse_email. cbn [Email.body_html Email.body_text].
  split; [reflexivity|]. now rewrite Hhtml, Htext.
Qed.

End NormalizerTheorem.

(** C7, the witness: a two-part message with an HTML part only. *)
Lemma html_fallback_is_rendered_witness :
  let msg := IMAPProvider.Multipart [("Subject", "Hi")] "multipart/alternative" None
               [IMAPProvider.Part [] "text/html" None
                                  (list_byte_of_string "<p>Hello</p><p>World</p>")] in
  PyStr.truthy (IMAPProvider.body_html (IMAPProvider.parse_bodies (H:=Example.lib) msg "7")) = true
  /\ IMAPProvider.body_text (IMAPProvider.parse_bodies (H:=Example.lib) msg "7") = EmptyString
  /\ Email.body_html (IMAPProvider._parse_email (H:=Example.lib) (Naive 0) msg "7")
     = IMAPProvider.body_html (IMAPProvider.parse_bodies (H:=Example.lib) msg "7")
  /\ Email.body_text (IMAPProvider._parse_email (H:=Example.lib) (Naive 0) msg "7")
     = html_to_text (IMAPProvider.body_html (IMAPProvider.parse_bodies (H:=Example.lib) msg "7")).
Proof.
  cbv zeta. split; [reflexivity|]. split; [reflexivity|].
  apply (@html_fallback_is_rendered Example.lib); reflexivity.
Defined.

(** C7, the counterexample: the HTML body of the message is a line
    break; the normalized message has that HTML body and an empty text
    body. *)
Lemma html_fallback_can_be_empty :
  Email.body_html (IMAPProvider._parse_email (H:=Example.lib) (Naive 0) Example.html_only "7") = "<br>"
  /\ Email.body_text (IMAPProvider._parse_email (H:=Example.lib) (Naive 0) Example.html_only "7")
     = EmptyString
  /\ html_to_text "<br>" = EmptyString.
Proof. repeat split; vm_compute; reflexivity. Qed.

(** C8, amended: the rendering of the empty string is the empty string,
    and the call does not raise on it; the call does not raise on text
    that has no markup character (no "<" and no "&"); and rendering a
    rendered text again changes nothing, and does not raise, when that
    text has no markup character. *)
Theorem html_to_text_idempotent_on_plain_text (s : string) :
  markup_free (html_to_text s) = true ->
  html_to_text EmptyString = EmptyString
  /\ html_to_text_raises EmptyString = false
  /\ (forall t, markup_free t = true -> html_to_text_raises t = false)
  /\ html_to_text (html_to_text s) = html_to_text s
  /\ html_to_text_raises (html_to_text s) = false.
Proof.
  intros Hm.
  assert (Hplain : forall t, markup_free t = true -> html_to_text_raises t = false).
  { intros t Ht. unfold html_to_text_raises.
    rewrite (plain_text_is_accepted t Ht). apply andb_false_r. }
  split; [reflexivity|]. split; [reflexivity|]. split; [exact Hplain|].
  split; [now apply html_to_text_fixed | now apply Hplain].
Qed.

Lemma html_to_text_idempotent_on_plain_text_witness :
  markup_free (html_to_text "<div><p>Dear Bob,</p>thanks<br>Alice</div>") = true
  /\ html_to_text EmptyString = EmptyString
  /\ html_to_text_raises EmptyString = false
  /\ (forall t, markup_free t = true -> html_to_text_raises t = false)
  /\ html_to_text (html_to_text "<div><p>Dear Bob,</p>thanks<br>Alice</div>")
     = html_to_text "<div><p>Dear Bob,</p>thanks<br>Alice</div>"
  /\ html_to_text_raises (html_to_text "<div><p>Dear Bob,</p>thanks<br>Alice</div>")
     = false.
Proof.
  split; [vm_compute; reflexivity|].
  apply (html_to_text_idempotent_on_plain_text "<div><p>Dear Bob,</p>thanks<br>Alice</div>").
  vm_compute; reflexivity.
Defined.

(** C8, the counterexample: an escaped ampersand followed by "lt;"
    renders to the text of a character reference, which renders to "<":
    the second rendering changes the text.  And the call raises on a
    marked section with a keyword that the parser does not know. *)
Lemma html_to_text_not_idempotent :
  html_to_text "&amp;lt;" = "&lt;"
  /\ html_to_text (html_to_text "&amp;lt;") = "<"
  /\ html_to_text_raises "<![x]>" = true.
Proof. repeat split; vm_compute; reflexivity. Qed.

(** C9, amended: the rendering has no blank line at all: no two line
    feeds follow each other in it, and each of its lines is stripped and
    not empty.  After the empty lines are dropped the collapse of three or
    more line feeds has nothing to replace and the final strip nothing to
    remove. *)
Theorem html_to_text_has_no_blank_line (s : string) :
  PyStr.contains (String PyStr.LF (String PyStr.LF EmptyString)) (html_to_text s) = false
  /\ Forall clean_line (PyStr.splitlines (html_to_text s))
  /\ (let joined := PyStr.join (String PyStr.LF EmptyString) (clean_lines (soup_text s)) in
      PyStr.re_sub_newlines joined = joined /\ PyStr.strip joined = joined).
Proof.
  pose proof (clean_lines_clean (soup_text s)) as Hall.
  split; [|split].
  - unfold html_to_text. destruct (negb (PyStr.truthy s)); [reflexivity|].
    rewrite clean_up_join. now apply no_double_lf_contains, no_double_lf_join.
  - unfold html_to_text. destruct (negb (PyStr.truthy s)); [constructor|].
    rewrite clean_up_join, splitlines_join by exact Hall. exact Hall.
  - cbv zeta. split.
    + now apply re_sub_newlines_id, no_double_lf_join.
    + now apply strip_join.
Qed.

(** C9, the counterexample: four line breaks between two words give a
    text with three blank lines between them; the rendering has the two
    words on consecutive lines, with no blank line left. *)
Lemma three_blank_lines_leave_none :
  soup_text "a<br><br><br><br>b"
  = String "a" (String PyStr.LF (String PyStr.LF (String PyStr.LF
      (String PyStr.LF "b"))))
  /\ html_to_text "a<br><br><br><br>b" = String "a" (String PyStr.LF "b").
Proof. split; vm_compute; reflexivity. Qed.

(** ** The claims about the local store, on the example *)

Section Examples.

Import LocalProvider Example.

(** C10, the witness. *)
Lemma unknown_id_changes_nothing_witness :
  connected alice = true
  /\ PyDict.contains "m9" (_emails alice) = false
  /\ mark_read "m9" true alice world0 = (Return false, alice, world0)
  /\ delete_email "m9" alice world0 = (Return false, alice, world0).
Proof.
  split; [reflexivity|]. split; [reflexivity|].
  apply (unknown_id_changes_nothing alice world0 "m9" true); reflexivity.
Defined.



(** C5, the counterexample: Erin's INBOX holds a message with a naive
    date and one with an aware date; [fetch_emails] raises [TypeError]
    when it sorts them. *)
Lemma fetch_raises_on_mixed_dates :
  connected erin = true
  /\ map Email.date (fst (stored_messages (H:=lib) (fun d => folder_of d = "INBOX")
                                          erin world0))
     = [Naive 1704099600000000; Aware 1704186000000000 0]
  /\ fetch_emails (H:=lib) "INBOX" 50 0 erin world0 = (Raise TypeError, erin, world0).
Proof. repeat split; vm_compute; reflexivity. Qed.


(** C6, the counterexample: the query "hello" occurs in the subject of
    both of Erin's messages, one with a naive and one with an aware date;
    [search_emails] raises [TypeError] when it sorts them. *)
Lemma search_raises_on_mixed_dates :
  connected erin = true
  /\ map Email.date
         (fst (stored_messages (H:=lib)
                 (fun d => in_scope None d = true /\ record_matches "hello" d = true)
                 erin world0))
     = [Naive 1704099600000000; Aware 1704186000000000 0]
  /\ search_emails (H:=lib) "hello" None 10 erin world0 = (Raise TypeError, erin, world0).
Proof. repeat split; vm_compute; reflexivity. Qed.

(** The query "invoice" occurs in the HTML body of message m2 only: the
    search returns nothing. *)
Example search_skips_html_body :
  fst (fst (search_emails (H:=lib) "invoice" None 10 alice world0)) = Return [].
Proof. vm_compute. reflexivity. Qed.

(** INBOX by date, latest first, and its second message. *)
Example fetch_inbox :
  returned_ids (fetch_emails (H:=lib) "INBOX" 50 0 alice world0) = ["m2"; "m1"]
  /\ returned_ids (fetch_emails (H:=lib) "INBOX" 1 1 alice world0) = ["m1"].
Proof. split; vm_compute; reflexivity. Qed.



(** Alice sends to herself: [send_email] returns [True]; the copy for
    INBOX, written first, is lost when the mailbox in memory, which holds
    the Sent record only, is saved over it. *)
Example send_to_self_keeps_sent_only :
  fst (fst (send_email (H:=lib) ["alice@local"] "Hi" "Hello"
                       None None None None None alice world0)) = Return true
  /\ PyDict.keys <$>
       mailbox_at (snd (send_email (H:=lib) ["alice@local"] "Hi" "Hello"
                                   None None None None None alice world0))
                  (file_of "alice@local")
     = Some ["m1"; "m2"; "m3"; "uuid-0"].
Proof. split; vm_compute; reflexivity. Qed.



End Examples.

(** * Further properties *)

(** ** Records and messages *)

Section RecordFacts.
Import LocalProvider.
Context `{PyLib}.

Lemma att_round_trip a : att_of_dict (dict_of_att a) = reloaded_attachment a.
Proof. destruct a as [fn ct sz [[|b bs]|] i]; reflexivity. Qed.

Lemma storable_reloaded e : storable e -> reloaded e = e.
Proof.
  intros (Ht & Hr & (f & Hf & Hne) & Hatts). destruct e; simpl in *. subst.
  unfold reloaded. simpl. f_equal.
  - induction Hatts as [|a l Ha Hl IH]; [reflexivity|]. simpl. rewrite IH. f_equal.
    destruct a as [fn ct sz [[|b bs]|] i]; try reflexivity.
    exfalso. apply Ha. reflexivity.
  - destruct f; [congruence | reflexivity].
Qed.

Lemma record_round_trip (e : Email.t) (s : self) (w : world) :
  fromisoformat (isoformat (Email.date e)) = Some (Email.date e) ->
  _dict_to_email (_email_to_dict e) s w = (Return (reloaded e), s, w).
Proof.
  intros Hdate.
  rewrite dict_to_email_run. unfold message_of, stored_date.
  cbn [_email_to_dict D.date]. rewrite Hdate.
  assert (Hatts : match D.attachments (_email_to_dict e) with
                  | Some (a :: l) => map att_of_dict (a :: l)
                  | _ => []
                  end = map reloaded_attachment (Email.attachments e)).
  { cbn [_email_to_dict D.attachments].
    destruct (Email.attachments e) as [|a l]; [reflexivity|].
    cbn [map]. f_equal; [apply att_round_trip|].
    induction l as [|x l IH]; [reflexivity|].
    cbn [map]. f_equal; [apply att_round_trip | exact IH]. }
  unfold email_of, reloaded. rewrite Hatts. reflexivity.
Qed.

(** X1: a message written to a record and read back is the same message,
    but for what a record does not hold: the folder comes back non-empty
    ("INBOX" for none), the thread id and the raw data come back as none,
    and an empty attachment payload comes back as none.  The clock is not
    read.  A message that has none of these comes back unchanged. *)
Theorem message_round_trip (e : Email.t) (s : self) (w : world) :
  fromisoformat (isoformat (Email.date e)) = Some (Email.date e) ->
  _dict_to_email (_email_to_dict e) s w = (Return (reloaded e), s, w)
  /\ (storable e -> reloaded e = e).
Proof.
  intros Hdate. split; [now apply record_round_trip | apply storable_reloaded].
Qed.

(** X2: a provider that is not connected does nothing: every operation
    but [get_folders] returns its empty answer and leaves the provider
    and the world as they are. *)
Theorem disconnected_provider_does_nothing (s : self) (w : world)
        (folder query email_id attachment_id subject body : string)
        (scope html_body reply_to_id : option string) (limit offset : Z)
        (read : bool) (to_addresses : list string)
        (cc_addresses bcc_addresses : option (list string))
        (attachments : option (list Attachment.t)) (email_obj : Email.t) :
  connected s = false ->
  fetch_emails folder limit offset s w = (Return [], s, w)
  /\ search_emails query scope limit s w = (Return [], s, w)
  /\ get_email email_id s w = (Return None, s, w)
  /\ get_attachment email_id attachment_id s w = (Return None, s, w)
  /\ send_email to_addresses subject body html_body cc_addresses bcc_addresses
                attachments reply_to_id s w = (Return false, s, w)
  /\ mark_read email_id read s w = (Return false, s, w)
  /\ delete_email email_id s w = (Return false, s, w)
  /\ receive_email email_obj s w = (Return tt, s, w).
Proof.
  intros Hc.
  unfold fetch_emails, search_emails, get_attachment, get_email, send_email,
    mark_read, delete_email, receive_email, bind, get_self, ret.
  rewrite Hc. cbn. repeat split.
Qed.

End RecordFacts.

(** ** Marking and deleting *)

Section MarkFacts.
Import LocalProvider.
Context `{PyLib}.







End MarkFacts.

(** ** Folder counts after a change *)

Section CountFacts.
Import LocalProvider.
Context `{PyLib}.







End CountFacts.

(** ** Saving and loading *)

Section PersistFacts.
Import LocalProvider.
Context `{PyLib}.

Lemma load_emails_run s w :
  _load_emails s w =
  if refused w (emails_file s) then (Raise IOError, s, w)
  else match files w !! emails_file s with
       | Some (JsonObject m) => (Return tt, set_emails m s, w)
       | Some JsonOther => (Raise AttributeError, s, w)
       | Some Unreadable | None => (Return tt, set_emails [] s, w)
       | Some Undecodable => (Raise UnicodeDecodeError, s, w)
       end.
Proof.
  unfold _load_emails, bind, get_self, exists_, try_except, load, put_self, raise.
  destruct (refused w (emails_file s)) eqn:R; [reflexivity|].
  destruct (files w !! emails_file s) as [[m| | |]|] eqn:E; simpl; try reflexivity.
  all: rewrite R, E; reflexivity.
Qed.

(** X7: what [disconnect] saves is what a new provider of the same
    address loads: when the provider's document can be written, a
    provider built afterwards for that address holds the same mailbox,
    record by record and in the same order, and is not connected. *)
Theorem saved_mailbox_is_reloaded (s : self) (w : world)
        (server username password : option string) (port : option Z)
        (tls : option bool) :
  emails_file s = file_of (email_address s) ->
  emails_file s ∉ write_protected w ->
  exists s' w' p,
    disconnect s w = (Return tt, s', w')
    /\ connected s' = false
    /\ _emails s' = _emails s
    /\ init (Some (email_address s)) server port username password tls w'
       = (Return tt, p, w')
    /\ _emails p = _emails s
    /\ connected p = false.
Proof.
  intros Hfile Hw.
  unfold disconnect, bind. rewrite save_emails_run.
  rewrite (bool_decide_eq_false_2 (emails_file s ∈ write_protected w)) by exact Hw.
  unfold get_self, put_self.
  eexists _, _, _. split; [reflexivity|].
  split; [reflexivity|]. split; [reflexivity|].
  unfold init. rewrite load_emails_run.
  cbn [emails_file default from_option files set_files id].
  rewrite <- Hfile.
  match goal with
  | |- context [refused ?w0 (emails_file s)] =>
      rewrite (refused_unprotected w0 (emails_file s)) by exact Hw
  end.
  rewrite lookup_insert_eq.
  split; [reflexivity|]. split; reflexivity.
Qed.


End PersistFacts.

(** ** Sending: what is kept, what is written, what is relayed *)

Section SendFrame.
Import LocalProvider.
Context `{PyLib}.

Lemma partition_run to_addresses :
  forall local_recipients external_recipients s w,
    Forall (nameable w) to_addresses ->
    partition_recipients to_addresses local_recipients external_recipients s w =
    (Return (local_recipients ++ filter (is_local w) to_addresses,
             external_recipients ++ filter (fun a => ~ is_local w a) to_addresses),
     s, w).
Proof.
  induction to_addresses as [|a rest IH]; intros loc ext s w Hall.
  - simpl. now rewrite !app_nil_r.
  - inversion Hall as [|? ? Hnm Hrest]; subst. unfold nameable in Hnm.
    specialize (fun l e => IH l e s w Hrest).
    cbn [partition_recipients]. unfold bind at 1. unfold _is_local_address, exists_.
    rewrite Hnm. clear Hnm.
    destruct (decide (is_local w a)) as [Ha|Ha].
    + rewrite (bool_decide_eq_true_2 _ Ha). rewrite IH.
      rewrite filter_cons_True by exact Ha.
      rewrite filter_cons_False by (intros Hn; exact (Hn Ha)).
      now rewrite <- app_assoc.
    + rewrite (bool_decide_eq_false_2 _ Ha). rewrite IH.
      rewrite filter_cons_False by exact Ha.
      rewrite filter_cons_True by exact Ha.
      now rewrite <- app_assoc.
Qed.

(** A name that the file system refuses stops the partition of the
    recipients. *)
Lemma partition_refused to_addresses :
  forall local_recipients external_recipients s w,
    Exists (fun a => refused w (file_of a) = true) to_addresses ->
    partition_recipients to_addresses local_recipients external_recipients s w
    = (Raise IOError, s, w).
Proof.
  induction to_addresses as [|a rest IH]; intros loc ext s w Hex;
    [inversion Hex|].
  cbn [partition_recipients]. unfold bind at 1. unfold _is_local_address, exists_.
  destruct (refused w (file_of a)) eqn:R; [reflexivity|].
  inversion Hex as [? ? Ha|? ? Hrest]; subst; [congruence|].
  destruct (bool_decide _); now apply IH.
Qed.

Lemma not_all_nameable w l :
  ~ Forall (nameable w) l -> Exists (fun a => refused w (file_of a) = true) l.
Proof.
  intros Hn. apply not_Forall_Exists in Hn; [|apply _].
  eapply Exists_impl; [exact Hn|]. intros a Ha. unfold nameable in Ha. cbn in Ha.
  now destruct (refused w (file_of a)).
Qed.

(** One round of the delivery loop. *)
Lemma deliver_cons e a rest s w :
  deliver e (a :: rest) s w =
  if refused w (file_of a) then (Raise IOError, s, w)
  else match files w !! file_of a with
       | None => deliver e rest s w
       | Some JsonOther => (Raise TypeError, s, drawn w)
       | Some doc =>
           if bool_decide (file_of a ∈ write_protected w)
           then (Raise IOError, s, failed_write (file_of a) (drawn w))
           else deliver e rest s
                  (delivered_one e a (match doc with JsonObject m => m | _ => [] end) w)
       end.
Proof.
  cbn [deliver]. unfold bind, exists_, try_except, load, uuid4, dump, ret, raise.
  destruct (refused w (file_of a)) eqn:R; [reflexivity|].
  destruct (files w !! file_of a) as [[m| | |]|] eqn:E; simpl; rewrite ?R, ?E; simpl;
    try reflexivity.
  all: destruct (bool_decide (file_of a ∈ write_protected w)); reflexivity.
Qed.

(** The delivery loop leaves the provider as it is and writes the
    documents of its recipients only. *)
Lemma deliver_frame e recipients :
  forall s w,
    exists r w',
      deliver e recipients s w = (r, s, w')
      /\ (forall f, f ∉ map file_of recipients -> files w' !! f = files w !! f)
      /\ write_protected w' = write_protected w
      /\ relayed w' = relayed w
      /\ stdout w' = stdout w.
Proof.
  induction recipients as [|a rest IH]; intros s w.
  - eexists _, _. split; [reflexivity|]. repeat split.
  - rewrite deliver_cons.
    assert (Hrest : forall f, f ∉ map file_of (a :: rest) -> f ∉ map file_of rest).
    { intros f Hf Hx. apply Hf. now right. }
    assert (Hhead : forall f, f ∉ map file_of (a :: rest) -> f <> file_of a).
    { intros f Hf E. apply Hf. rewrite E. left. }
    assert (Hone : forall m,
               exists r w',
                 deliver e rest s (delivered_one e a m w) = (r, s, w')
                 /\ (forall f, f ∉ map file_of (a :: rest) -> files w' !! f = files w !! f)
                 /\ write_protected w' = write_protected w
                 /\ relayed w' = relayed w /\ stdout w' = stdout w).
    { intros m. destruct (IH s (delivered_one e a m w)) as (r & w' & Hr & Hf & Hp & Hy & Ho).
      exists r, w'. split; [exact Hr|]. repeat split; try assumption.
      intros f Hx. rewrite Hf by (apply Hrest; exact Hx).
      simpl. apply lookup_insert_ne. intros E. apply Hx. rewrite <- E. left. }
    assert (Hfail : exists (r : outcome unit) w',
               (Raise IOError, s, failed_write (file_of a) (drawn w)) = (r, s, w')
               /\ (forall f, f ∉ map file_of (a :: rest) -> files w' !! f = files w !! f)
               /\ write_protected w' = write_protected w
               /\ relayed w' = relayed w /\ stdout w' = stdout w).
    { eexists _, _. split; [reflexivity|].
      destruct (failed_write_rest (file_of a) (drawn w))
        as (Hp & _ & Ho & _ & _ & _ & Hy).
      split; [|split; [exact Hp | split; [exact Hy | exact Ho]]].
      intros f Hf. rewrite failed_write_files.
      now rewrite left_on_disk_other by (apply Hhead; exact Hf). }
    destruct (refused w (file_of a)).
    { eexists _, _. split; [reflexivity|]. repeat split. }
    destruct (files w !! file_of a) as [[m| | |]|] eqn:E.
    + destruct (bool_decide (file_of a ∈ write_protected w)); [exact Hfail | apply Hone].
    + eexists _, _. split; [reflexivity|]. repeat split.
    + destruct (bool_decide (file_of a ∈ write_protected w)); [exact Hfail | apply Hone].
    + destruct (bool_decide (file_of a ∈ write_protected w)); [exact Hfail | apply Hone].
    + destruct (IH s w) as (r & w' & Hr & Hf & Hp & Hy & Ho).
      exists r, w'. split; [exact Hr|]. repeat split; try assumption.
      intros f Hx. apply Hf, Hrest, Hx.
Qed.

(** The submission to the relay, when there is one: it leaves the
    mailbox and the documents as they are. *)
Lemma relay_part_run (go : bool) (ext cc bcc : list string) s w :
  exists s1 w1,
    (match ext with
     | _ :: _ => if go then relay_block ext cc bcc else ret tt
     | [] => ret tt
     end) s w = (Return tt, s1, w1)
    /\ same_account s s1 /\ _emails s1 = _emails s
    /\ files w1 = files w /\ write_protected w1 = write_protected w
    /\ (ext = [] \/ go = false -> s1 = s /\ w1 = w)
    /\ uuid4_source w1 = uuid4_source w /\ uuid4_calls w1 = uuid4_calls w
    /\ write_failure w1 = write_failure w.
Proof.
  destruct ext as [|a ext].
  - exists s, w. repeat split.
  - destruct go.
    + unfold relay_block, print.
      destruct (relay w ((a :: ext) ++ cc ++ bcc)) as [|session_open].
      * eexists _, _. split; [reflexivity|]. split; [repeat split|].
        do 3 (split; [reflexivity|]). split; [|repeat split; reflexivity].
        intros [E|E]; discriminate.
      * eexists _, _. split; [reflexivity|]. split; [repeat split|].
        do 3 (split; [reflexivity|]). split; [|repeat split; reflexivity].
        intros [E|E]; discriminate.
    + exists s, w. repeat split.
Qed.

Lemma not_in_local_files w l f :
  f ∉ map file_of l -> f ∉ map file_of (filter (is_local w) l).
Proof.
  intros Hf Hx. apply Hf. apply list_elem_of_fmap in Hx as (a & -> & Ha).
  apply list_elem_of_fmap. exists a. split; [reflexivity|].
  apply list_elem_of_filter in Ha as [_ Ha]. exact Ha.
Qed.

Lemma no_external w l :
  Forall (is_local w) l -> filter (fun a => ~ is_local w a) l = [].
Proof.
  intros Hall. induction Hall as [|a l Ha Hl IH]; [reflexivity|].
  rewrite filter_cons_False; [exact IH|]. intros Hn. exact (Hn Ha).
Qed.

(** [send_email] of a connected provider, whatever its recipients: it
    returns, the provider keeps the message under the id drawn, and no
    document but the sender's and those of the To addresses is
    written. *)
Lemma send_email_frame (s : self) (w : world) (to_addresses : list string)
      (subject body : string) (html_body : option string)
      (cc_addresses bcc_addresses : option (list string))
      (attachments : option (list Attachment.t)) (reply_to_id : option string) :
  connected s = true ->
  Forall (nameable w) to_addresses ->
  exists b s' w',
    send_email to_addresses subject body html_body cc_addresses bcc_addresses
               attachments reply_to_id s w = (Return b, s', w')
    /\ same_account s s'
    /\ _emails s'
       = PyDict.set (drawn_id w 0)
           (_email_to_dict (message_sent s w to_addresses subject body html_body
                                         cc_addresses bcc_addresses attachments))
           (_emails s)
    /\ (forall f, f ∉ map file_of to_addresses -> f <> emails_file s ->
                  files w' !! f = files w !! f)
    /\ (Forall (is_local w) to_addresses -> relayed w' = relayed w).
Proof.
  intros Hc Hnm.
  unfold send_email. unfold bind at 1. unfold get_self at 1. rewrite Hc. cbn [negb].
  unfold try_except. unfold bind at 1. unfold uuid4 at 1.
  unfold bind at 1. unfold now at 1.
  unfold bind at 1. rewrite partition_run by exact Hnm. cbn [fst snd app].
  unfold bind at 1.
  match goal with
  | |- context [(match ?ext with
                 | [] => ret tt
                 | _ :: _ => if ?go then relay_block ?ext ?cc ?bcc else ret tt
                 end) ?s0 ?w0] =>
      destruct (relay_part_run go ext cc bcc s0 w0)
        as (s1 & w1 & Hrelay & Hacc & Hbox & Hfiles & Hprot & Hnone & _);
      rewrite Hrelay
  end.
  unfold bind at 1. unfold get_self at 1.
  unfold bind at 1. unfold put_self at 1.
  unfold bind at 1.
  match goal with
  | |- context [deliver ?e ?rs ?s0 ?w0] =>
      destruct (deliver_frame e rs s0 w0) as (r & w2 & Hdel & Hf2 & Hp2 & Hy2 & Ho2);
      rewrite Hdel
  end.
  assert (Hid : drawn_id w 0 = uuid4_source w (uuid4_calls w)).
  { unfold drawn_id. now rewrite Nat.add_0_r. }
  assert (Hsub : forall f, f ∉ map file_of to_addresses ->
                           f ∉ map file_of (filter (is_local (ticked (drawn w))) to_addresses))
    by (intros f; apply not_in_local_files).
  assert (Hloc : Forall (is_local w) to_addresses ->
                 filter (fun a => ~ is_local (ticked (drawn w)) a) to_addresses = [])
    by apply (no_external (ticked (drawn w))).
  destruct Hacc as (A1 & A2 & A3 & A4 & A5 & A6 & A7 & A8).
  destruct r as [[]|x].
  - unfold bind at 1. rewrite save_emails_run. unfold ret.
    cbn [emails_file set_emails _emails].
    destruct (bool_decide _) eqn:Hp.
    + eexists _, _, _. split; [reflexivity|].
      split; [repeat split; assumption|].
      split; [cbn [_emails set_emails]; rewrite Hbox; unfold message_sent, sent_message; rewrite Hid; reflexivity|].
      split.
      * intros f Hf Hne. cbn [files printing].
        rewrite failed_write_files, left_on_disk_other by (rewrite A2; exact Hne).
        rewrite Hf2 by (apply Hsub; exact Hf).
        now rewrite Hfiles.
      * intros Hall. cbn [relayed printing]. rewrite relayed_failed_write, Hy2.
        destruct (Hnone (or_introl (Hloc Hall))) as [_ ->]. reflexivity.
    + eexists _, _, _. split; [reflexivity|].
      split; [repeat split; assumption|].
      split; [cbn [_emails set_emails]; rewrite Hbox; unfold message_sent, sent_message; rewrite Hid; reflexivity|].
      split.
      * intros f Hf Hne. cbn [files set_files]. rewrite A2.
        rewrite lookup_insert_ne by congruence.
        rewrite Hf2 by (apply Hsub; exact Hf). now rewrite Hfiles.
      * intros Hall. cbn [relayed set_files]. rewrite Hy2.
        destruct (Hnone (or_introl (Hloc Hall))) as [_ ->]. reflexivity.
  - unfold bind at 1. unfold print, ret.
    eexists _, _, _. split; [reflexivity|].
    split; [repeat split; assumption|].
    split; [cbn [_emails set_emails]; rewrite Hbox; unfold message_sent, sent_message; rewrite Hid; reflexivity|].
    split.
    + intros f Hf Hne. cbn [files]. rewrite Hf2 by (apply Hsub; exact Hf).
      now rewrite Hfiles.
    + intros Hall. cbn [relayed]. rewrite Hy2.
      destruct (Hnone (or_introl (Hloc Hall))) as [_ ->]. reflexivity.
Qed.

(** A To address whose document has a name that the file system refuses
    stops [send_email] before the message is stored: it returns [False],
    the provider is as before and nothing is written or relayed. *)
Lemma send_email_refused (s : self) (w : world) (to_addresses : list string)
      (subject body : string) (html_body : option string)
      (cc_addresses bcc_addresses : option (list string))
      (attachments : option (list Attachment.t)) (reply_to_id : option string) :
  connected s = true ->
  Exists (fun a => refused w (file_of a) = true) to_addresses ->
  send_email to_addresses subject body html_body cc_addresses bcc_addresses
             attachments reply_to_id s w
  = (Return false, s, printing (ErrorSendingEmail IOError) (ticked (drawn w))).
Proof.
  intros Hc Hex.
  unfold send_email. unfold bind at 1. unfold get_self at 1. rewrite Hc. cbn [negb].
  unfold try_except. unfold bind at 1. unfold uuid4 at 1.
  unfold bind at 1. unfold now at 1.
  unfold bind at 1. rewrite partition_refused by exact Hex.
  reflexivity.
Qed.

End SendFrame.

Section SendOutcomes.
Import LocalProvider.
Context `{PyLib}.






End SendOutcomes.

Section SendFailure.
Import LocalProvider.
Context `{PyLib}.







End SendFailure.

(** ** Receiving and reading back *)

Section ReceiveFacts.
Import LocalProvider.
Context `{PyLib}.







End ReceiveFacts.

(** ** Keys and ids *)

Section KeyFacts.
Import LocalProvider.
Context `{PyLib}.

Lemma well_keyed_update (f : D.t -> D.t) id (m : mailbox) :
  (forall d, D.id (f d) = D.id d) ->
  well_keyed m -> well_keyed (PyDict.update id f m).
Proof.
  intros Hf [Hnd Hids]. split; [now rewrite dict_keys_update|].
  clear Hnd. induction Hids as [|[k d] m Hk Hm IH]; [constructor|].
  simpl. destruct (String.eqb k id).
  - constructor; [|exact Hm]. simpl in *. now rewrite Hf.
  - constructor; [exact Hk | exact IH].
Qed.

Lemma well_keyed_set id (d : D.t) (m : mailbox) :
  D.id d = Some id ->
  well_keyed m -> well_keyed (PyDict.set id d m).
Proof.
  intros Hd [Hnd Hids]. split.
  - rewrite dict_keys_set. destruct (PyDict.contains id m) eqn:E; [exact Hnd|].
    apply NoDup_app. split; [exact Hnd|]. split; [|apply NoDup_singleton].
    intros k Hk Hx. apply list_elem_of_singleton in Hx as ->.
    apply dict_contains_keys in Hk. congruence.
  - clear Hnd. induction Hids as [|[k v] m Hk Hm IH]; simpl.
    + constructor; [exact Hd | constructor].
    + destruct (String.eqb_spec k id) as [->|Hne].
      * constructor; [exact Hd | exact Hm].
      * constructor; [exact Hk | exact IH].
Qed.

(** X16: the operations keep the mailbox keyed by message id: when the
    keys are distinct and every record carries its key as id, this is so
    after [mark_read], [delete_email], [receive_email] and [send_email]
    too. *)
Theorem mailbox_stays_keyed_by_id (s : self) (w : world) (email_id : string)
        (read : bool) (email_obj : Email.t) (to_addresses : list string)
        (subject body : string) (html_body : option string)
        (cc_addresses bcc_addresses : option (list string))
        (attachments : option (list Attachment.t)) (reply_to_id : option string) :
  well_keyed (_emails s) ->
  well_keyed (_emails (snd (fst (mark_read email_id read s w))))
  /\ well_keyed (_emails (snd (fst (delete_email email_id s w))))
  /\ well_keyed (_emails (snd (fst (receive_email email_obj s w))))
  /\ well_keyed (_emails (snd (fst (send_email to_addresses subject body html_body
                                               cc_addresses bcc_addresses attachments
                                               reply_to_id s w)))).
Proof.
  intros Hk. split; [|split; [|split]].
  - unfold mark_read, bind, get_self, put_self, ret.
    destruct (connected s); [|exact Hk]. cbn [negb].
    destruct (PyDict.contains email_id (_emails s)); [|exact Hk].
    rewrite save_emails_run. destruct (bool_decide _); cbn [fst snd _emails set_emails];
      now apply well_keyed_update.
  - unfold delete_email, bind, get_self, put_self, ret.
    destruct (connected s); [|exact Hk]. cbn [negb].
    destruct (PyDict.contains email_id (_emails s)); [|exact Hk].
    rewrite save_emails_run. destruct (bool_decide _); cbn [fst snd _emails set_emails];
      now apply well_keyed_update.
  - unfold receive_email, bind, get_self, put_self, ret.
    destruct (connected s); [|exact Hk]. cbn [negb].
    rewrite save_emails_run. destruct (bool_decide _); cbn [fst snd _emails set_emails];
      now apply well_keyed_set.
  - destruct (connected s) eqn:Hc.
    + destruct (decide (Forall (nameable w) to_addresses)) as [Hnm|Hnm].
      * destruct (send_email_frame s w to_addresses subject body html_body cc_addresses
                    bcc_addresses attachments reply_to_id Hc Hnm)
          as (b & s' & w' & Hrun & _ & Hbox & _).
        rewrite Hrun. cbn [fst snd]. rewrite Hbox. now apply well_keyed_set.
      * apply not_all_nameable in Hnm.
        rewrite send_email_refused by assumption. exact Hk.
    + unfold send_email, bind, get_self, ret. rewrite Hc. exact Hk.
Qed.

Lemma messages_of_dated ds :
  Forall (fun d => is_Some (stored_date d)) ds ->
  forall w, snd (messages_of ds w) = w
            /\ Forall2 (fun d e => message_of d w = (e, w)) ds (fst (messages_of ds w)).
Proof.
  induction 1 as [|d ds [t Ht] Hds IH]; intros w; [split; [reflexivity | constructor]|].
  assert (Hm : message_of d w = (email_of d t, w))
    by (unfold message_of; now rewrite Ht).
  cbn [messages_of]. rewrite Hm.
  destruct (IH w) as [Hw Hall]. destruct (messages_of ds w) as [es w2].
  cbn [fst snd] in *. split; [exact Hw|]. constructor; [exact Hm | exact Hall].
Qed.

Lemma slice_subseteq {A} lo hi (l : list A) : slice lo hi l ⊆ l.
Proof.
  unfold slice. etransitivity; [apply subseteq_take | apply subseteq_drop].
Qed.

Lemma filter_dated (P : D.t -> Prop) `{forall d, Decision (P d)} ds :
  Forall (fun d => is_Some (stored_date d)) ds ->
  Forall (fun d => is_Some (stored_date d)) (filter P ds).
Proof.
  intros Hall. apply Forall_forall. intros d Hd.
  apply list_elem_of_filter in Hd as [_ Hd].
  exact (proj1 (Forall_forall _ _) Hall d Hd).
Qed.

(** X17: [fetch_emails] and [get_email] agree: in a mailbox keyed by
    message id whose dates parse, with dates in the folder that can be
    ordered (all naive or all aware), every message that [fetch_emails]
    returns is the message that [get_email] returns under its id.
    Neither call changes the provider or the world. *)
Theorem fetched_message_is_found_by_its_id (s : self) (w : world)
        (folder : string) (limit offset : Z) :
  connected s = true ->
  well_keyed (_emails s) ->
  dated (_emails s) ->
  comparable (fst (stored_messages (fun d => folder_of d = folder) s w)) ->
  exists messages,
    fetch_emails folder limit offset s w = (Return messages, s, w)
    /\ Forall (fun e => get_email (Email.id e) s w = (Return (Some e), s, w)) messages.
Proof.
  intros Hc [Hnd Hids] Hdated Hcmp.
  rewrite fetch_emails_slice by exact Hc. unfold stored_messages in *.
  pose proof (messages_of_dated _
                (filter_dated (fun d => folder_of d = folder) _ Hdated) w) as [Hw Hall].
  destruct (messages_of (filter (fun d => folder_of d = folder)
                                (PyDict.values (_emails s))) w) as [es w'].
  unfold comparable in Hcmp.
  cbn [fst snd] in Hw, Hall, Hcmp. subst w'. rewrite Hcmp.
  eexists. split; [reflexivity|].
  apply Forall_forall. intros e He.
  apply slice_subseteq in He.
  rewrite (sort_reverse_perm time_of es) in He.
  apply list_elem_of_lookup in He as [i Hi].
  destruct (Forall2_lookup_r _ _ _ i e Hall Hi) as (d & Hd & Hmsg).
  apply list_elem_of_lookup_2 in Hd.
  apply list_elem_of_filter in Hd as [_ Hd].
  unfold PyDict.values in Hd. apply list_elem_of_fmap in Hd as ([k d'] & -> & Hkd).
  cbn [snd] in Hmsg.
  assert (Hid : D.id d' = Some k).
  { exact (proj1 (Forall_forall _ _) Hids (k, d') Hkd). }
  assert (Hek : Email.id e = k).
  { unfold message_of in Hmsg. destruct (stored_date d'); injection Hmsg as <-;
      cbn [Email.id email_of]; now rewrite Hid. }
  unfold get_email, bind, get_self, ret. rewrite Hc. cbn [negb].
  rewrite Hek, (dict_get_elem k d' _ Hnd Hkd).
  assert (Ht : dict_truthy d' = true).
  { destruct d'. cbn in Hid. subst. reflexivity. }
  rewrite Ht, dict_to_email_run, Hmsg. reflexivity.
Qed.

End KeyFacts.

(** ** Pages *)

Section PageFacts.
Import LocalProvider.
Context `{PyLib}.

(** X18: pages join: in a mailbox whose dates parse, with dates in the
    folder that can be ordered (all naive or all aware), the first [a]
    messages of a folder followed by the next [b] (offset [a]) are the
    first [a + b]; no call changes the provider or the world. *)
Theorem fetch_pages_join (s : self) (w : world) (folder : string) (a b : Z) :
  connected s = true ->
  dated (_emails s) ->
  comparable (fst (stored_messages (fun d => folder_of d = folder) s w)) ->
  0 <= a -> 0 <= b ->
  exists first_page next_page both,
    fetch_emails folder a 0 s w = (Return first_page, s, w)
    /\ fetch_emails folder b a s w = (Return next_page, s, w)
    /\ fetch_emails folder (a + b) 0 s w = (Return both, s, w)
    /\ first_page ++ next_page = both.
Proof.
  intros Hc Hdated Hcmp Ha Hb.
  pose proof (messages_of_dated _
                (filter_dated (fun d => folder_of d = folder) _ Hdated) w) as [Hw _].
  rewrite !fetch_emails_run by (try assumption; lia).
  unfold stored_messages, comparable in *.
  destruct (messages_of _ w) as [es w']. cbn [fst snd] in Hw, Hcmp. subst w'.
  rewrite Hcmp.
  eexists _, _, _. do 3 (split; [reflexivity|]).
  change (Z.to_nat 0) with 0%nat. rewrite !drop_0.
  rewrite take_take_drop. f_equal. lia.
Qed.


Lemma contains_empty s : PyStr.contains EmptyString s = true.
Proof. destruct s; reflexivity. Qed.

Lemma filter_ext_in {A} (P Q : A -> Prop) `{forall x, Decision (P x)}
      `{forall x, Decision (Q x)} (l : list A) :
  Forall (fun x => P x <-> Q x) l -> filter P l = filter Q l.
Proof.
  induction 1 as [|x l Hx Hl IH]; [reflexivity|].
  rewrite !filter_cons, IH.
  destruct (decide (P x)) as [Hp|Hp], (decide (Q x)) as [Hq|Hq];
    try reflexivity; tauto.
Qed.

(** X20: the empty query lists a folder: in a mailbox whose records all
    name their folder, [search_emails] with an empty query and a folder
    returns what [fetch_emails] returns for that folder from offset 0. *)
Theorem empty_query_lists_the_folder (s : self) (w : world) (folder : string)
        (limit : Z) :
  connected s = true ->
  folder <> EmptyString ->
  Forall (fun d => is_Some (D.folder d)) (PyDict.values (_emails s)) ->
  search_emails EmptyString (Some folder) limit s w = fetch_emails folder limit 0 s w.
Proof.
  intros Hc Hne Hall.
  unfold search_emails, fetch_emails, bind, get_self, ret. rewrite Hc. cbn [negb].
  cbv beta iota zeta.
  rewrite (search_loop_run EmptyString), fetch_loop_run.
  rewrite (filter_ext_in
             (fun d => in_scope (Some folder) d = true
                       /\ record_matches EmptyString d = true)
             (fun d => folder_of d = folder)).
  - destruct (messages_of _ w) as [es w']. reflexivity.
  - eapply Forall_impl; [exact Hall|]. intros d [g Hg].
    unfold in_scope, record_matches, icontains, folder_of. rewrite Hg.
    cbn [PyStr.lower default from_option id]. rewrite !contains_empty. cbn [orb].
    destruct folder as [|c f]; [congruence|].
    rewrite bool_decide_eq_true. split.
    + intros [E _]. congruence.
    + intros E. split; [congruence | reflexivity].
Qed.

End PageFacts.

(** ** File names of addresses *)

Section FileFacts.
Import LocalProvider.
Context `{PyLib}.

Lemma append_cons c a b : String c a +:+ b = String c (a +:+ b).
Proof. reflexivity. Qed.

Lemma append_assoc a b c : (a +:+ b) +:+ c = a +:+ (b +:+ c).
Proof.
  induction a as [|x a IH]; [reflexivity|].
  rewrite !append_cons. now rewrite IH.
Qed.

Lemma replace_char_app old new a b :
  PyStr.replace_char old new (a +:+ b)
  = PyStr.replace_char old new a +:+ PyStr.replace_char old new b.
Proof.
  induction a as [|c a IH]; [reflexivity|].
  rewrite append_cons. cbn [PyStr.replace_char]. rewrite IH.
  destruct (Ascii.eqb c old); [|reflexivity].
  now rewrite append_assoc.
Qed.

(** X21: two addresses can share one document: the at sign is written
    "_at_" in the file name, so an address and the same address with
    "_at_" for its at sign are different addresses with the same file;
    the one is local exactly when the other is. *)
Theorem two_addresses_share_a_document (a b : string) (s : self) (w : world) :
  a +:+ "@" +:+ b <> a +:+ "_at_" +:+ b
  /\ file_of (a +:+ "@" +:+ b) = file_of (a +:+ "_at_" +:+ b)
  /\ _is_local_address (a +:+ "@" +:+ b) s w
     = _is_local_address (a +:+ "_at_" +:+ b) s w.
Proof.
  assert (Hfile : file_of (a +:+ "@" +:+ b) = file_of (a +:+ "_at_" +:+ b)).
  { unfold file_of. f_equal. rewrite !replace_char_app. reflexivity. }
  split; [|split; [exact Hfile|]].
  - intros E. apply String.app_inj in E. discriminate E.
  - unfold _is_local_address. now rewrite Hfile.
Qed.

End FileFacts.

(** ** The normalizer: attachments and bodies *)

Section NormalizerFacts.
Import IMAPProvider.
Context `{PyLib}.

Lemma parse_part_ids email_id acc part :
  map Attachment.id (attachments acc)
  = map (attachment_id email_id) (seq 0 (length (attachments acc))) ->
  map Attachment.id (attachments (parse_part email_id acc part))
  = map (attachment_id email_id)
        (seq 0 (length (attachments (parse_part email_id acc part)))).
Proof.
  intros Hacc. unfold parse_part.
  destruct (PyStr.contains "attachment" (get part "Content-Disposition" "")).
  - destruct (get_filename part) as [filename|]; [|exact Hacc].
    destruct (PyStr.truthy filename); [|exact Hacc].
    cbn [attachments]. rewrite length_app, map_app, Hacc. cbn [length map Attachment.id].
    rewrite seq_app, map_app. reflexivity.
  - destruct (String.eqb (get_content_type part) "text/plain").
    { destruct (bytes_truthy (get_payload part)); exact Hacc. }
    destruct (String.eqb (get_content_type part) "text/html"); [|exact Hacc].
    destruct (bytes_truthy (get_payload part)); exact Hacc.
Qed.

Lemma parse_parts_ids email_id parts :
  forall acc,
    map Attachment.id (attachments acc)
    = map (attachment_id email_id) (seq 0 (length (attachments acc))) ->
    map Attachment.id (attachments (fold_left (parse_part email_id) parts acc))
    = map (attachment_id email_id)
          (seq 0 (length (attachments (fold_left (parse_part email_id) parts acc)))).
Proof.
  induction parts as [|p parts IH]; intros acc Hacc; [exact Hacc|].
  cbn [fold_left]. apply IH, parse_part_ids, Hacc.
Qed.

Lemma attachment_id_inj email_id : Inj (=) (=) (attachment_id email_id).
Proof.
  intros i j E. unfold attachment_id in E. injection E as E.
  apply String.app_inj, String.app_inj in E.
  apply (inj pretty) in E. lia.
Qed.

(** X22: the attachments that [_parse_email] returns are numbered: the
    one at place [i] has the id of the message, an underscore and [i];
    so the ids of the attachments of one message are distinct. *)
Theorem attachments_are_numbered (now : datetime) (msg : message) (email_id : string) :
  map Attachment.id (Email.attachments (_parse_email now msg email_id))
  = map (attachment_id email_id)
        (seq 0 (length (Email.attachments (_parse_email now msg email_id))))
  /\ NoDup (map Attachment.id (Email.attachments (_parse_email now msg email_id))).
Proof.
  assert (Hids : map Attachment.id (attachments (parse_bodies msg email_id))
                 = map (attachment_id email_id)
                       (seq 0 (length (attachments (parse_bodies msg email_id))))).
  { unfold parse_bodies. destruct (is_multipart msg).
    - apply parse_parts_ids. reflexivity.
    - destruct (bytes_truthy (get_payload msg)); [|reflexivity].
      destruct (String.eqb (get_content_type msg) "text/html"); reflexivity. }
  cbn [_parse_email Email.attachments]. split; [exact Hids|].
  rewrite Hids. apply (NoDup_fmap_2 _). apply NoDup_ListNoDup, seq_NoDup.
Qed.

End NormalizerFacts.

Section BodyFacts.
Import IMAPProvider.
Context `{PyLib}.







End BodyFacts.

(** ** The address list *)

Section AddressFacts.
Import LocalEmailManager.
Context `{PyLib}.

Lemma contains_at local_part domain :
  PyStr.contains "@" (local_part +:+ "@" +:+ domain) = true.
Proof.
  induction local_part as [|c l IH]; [reflexivity|].
  rewrite append_cons, contains_cons, IH. apply orb_true_r.
Qed.

Lemma exists_snoc a info l m :
  info_email_address info = Some a ->
  email_address_exists a (set_addresses (l ++ [info]) m) = true.
Proof.
  intros Hi. unfold email_address_exists. cbn [_addresses set_addresses].
  rewrite existsb_app. cbn [existsb]. rewrite Hi, String.eqb_refl. apply orb_true_r.
Qed.

(** X24: [create_email_address] accepts every local part that is not
    empty, with any domain: the test for an at sign never fails, since
    the address is built with one.  The new address goes last in the
    list, the list is saved, and a manager built afterwards on the same
    directory holds the same list.  No mailbox document is made or
    changed. *)
Theorem every_named_address_is_accepted (local_part domain : string)
        (m : self) (w : world) :
  local_part <> EmptyString ->
  email_address_exists (local_part +:+ "@" +:+ domain) m = false ->
  addresses_protected w = false ->
  exists acct m' w',
    create_email_address local_part domain m w = (Ok acct, m', w')
    /\ email_address acct = local_part +:+ "@" +:+ domain
    /\ provider acct = "local"
    /\ get_email_addresses m'
       = get_email_addresses m ++ [Some (local_part +:+ "@" +:+ domain)]
    /\ email_address_exists (local_part +:+ "@" +:+ domain) m' = true
    /\ init (self_storage_dir m) w' = m'
    /\ store w' = store w.
Proof.
  intros Hl Hnew Hw. unfold create_email_address. rewrite Hnew, contains_at.
  destruct local_part as [|c l]; [congruence|]. cbn [negb orb String.length Nat.eqb].
  unfold _save_addresses. rewrite Hw.
  eexists _, _, _. split; [reflexivity|].
  split; [reflexivity|]. split; [reflexivity|].
  split; [unfold get_email_addresses; cbn [_addresses set_addresses];
          now rewrite map_app|].
  split; [now apply exists_snoc|]. split; reflexivity.
Qed.

(** X25: [create_email_address] refuses, with [ValueError], an address
    that is in the list and an empty local part; it changes nothing
    then. *)
Theorem duplicate_or_nameless_address_is_refused (local_part domain : string)
        (m : self) (w : world) :
  email_address_exists (local_part +:+ "@" +:+ domain) m = true
  \/ local_part = EmptyString ->
  create_email_address local_part domain m w = (Raises ValueError, m, w).
Proof.
  intros [He| ->]; unfold create_email_address.
  - now rewrite He.
  - destruct (email_address_exists _ m); [reflexivity|].
    rewrite contains_at. reflexivity.
Qed.


(** X27: a new address is not local yet: [create_email_address] makes no
    mailbox document, and neither does the provider that
    [get_provider_for_address] builds, which starts with an empty
    mailbox; so [_is_local_address], by which [send_email] of any sender
    picks the recipients it delivers to, is false for the address.  It is
    local once its provider was connected and disconnected, which saves
    the mailbox. *)
Theorem new_address_is_not_local_yet (local_part domain : string)
        (m : self) (w : world) :
  local_part <> EmptyString ->
  email_address_exists (local_part +:+ "@" +:+ domain) m = false ->
  addresses_protected w = false ->
  ~ is_local (store w) (local_part +:+ "@" +:+ domain) ->
  LocalProvider.file_of (local_part +:+ "@" +:+ domain)
    ∉ LocalProvider.write_protected (store w) ->
  exists acct m' w' p,
    create_email_address local_part domain m w = (Ok acct, m', w')
    /\ get_provider_for_address (local_part +:+ "@" +:+ domain) m' w' = (Ok (Some p), w')
    /\ LocalProvider._emails p = []
    /\ (forall sender,
          LocalProvider._is_local_address (local_part +:+ "@" +:+ domain) sender (store w')
          = (LocalProvider.Return false, sender, store w'))
    /\ is_local (snd (LocalProvider.bind LocalProvider.connect
                        (fun _ => LocalProvider.disconnect) p (store w')))
                (local_part +:+ "@" +:+ domain).
Proof.
  intros Hl Hnew Hw Hloc Hprot.
  assert (Hnone : LocalProvider.files (store w)
                    !! LocalProvider.file_of (local_part +:+ "@" +:+ domain) = None).
  { unfold is_local in Hloc. destruct (LocalProvider.files (store w) !! _) eqn:E;
      [exfalso; apply Hloc; eauto | reflexivity]. }
  unfold create_email_address. rewrite Hnew, contains_at.
  destruct local_part as [|c l]; [congruence|]. cbn [negb orb String.length Nat.eqb].
  unfold _save_addresses. rewrite Hw.
  eexists _, _, _, _. split; [reflexivity|].
  unfold get_provider_for_address.
  rewrite exists_snoc by reflexivity. cbn [negb store set_addresses_file].
  unfold LocalProvider.init. rewrite load_emails_run.
  cbn [LocalProvider.emails_file default from_option id].
  rewrite (refused_unprotected _ _ Hprot), Hnone.
  split; [destruct w; reflexivity|]. split; [reflexivity|].
  split.
  { intros sender. unfold LocalProvider._is_local_address, LocalProvider.exists_.
    cbn [store set_addresses_file]. now rewrite (refused_unprotected _ _ Hprot), Hnone. }
  unfold LocalProvider.connect, LocalProvider.disconnect, LocalProvider.bind,
    LocalProvider.get_self, LocalProvider.put_self, LocalProvider.ret.
  rewrite save_emails_run.
  cbn [LocalProvider.emails_file LocalProvider.set_emails LocalProvider.set_connected].
  rewrite (bool_decide_eq_false_2 _ Hprot). cbn [snd].
  unfold is_local. cbn [LocalProvider.files LocalProvider.set_files].
  rewrite lookup_insert_eq. eauto.
Qed.






End AddressFacts.

(** ** The message model: preview and sender *)

Section ModelFacts.
Import PyStr.

Lemma length_append a b :
  String.length (a +:+ b) = (String.length a + String.length b)%nat.
Proof.
  induction a as [|c a IH]; [reflexivity|].
  rewrite append_cons. cbn [String.length]. now rewrite IH.
Qed.

Lemma length_prefix n s :
  (n <= String.length s)%nat -> String.length (prefix n s) = n.
Proof.
  revert s. induction n as [|n IH]; intros s Hn; [reflexivity|].
  destruct s as [|c s]; [cbn in Hn; lia|].
  cbn [prefix String.length]. rewrite IH; [reflexivity|]. cbn in Hn. lia.
Qed.

Lemma startswith_prefix n s : startswith (prefix n s) s = true.
Proof.
  revert s. induction n as [|n IH]; intros s; [reflexivity|].
  destruct s as [|c s]; [reflexivity|].
  cbn [prefix]. rewrite startswith_cons, Ascii.eqb_refl. apply IH.
Qed.

(** X29: the preview of a message has at most 100 characters: it is
    the text body, or the HTML body when the text body is empty, when
    that has at most 100 characters, and otherwise its first 97
    characters and three dots, 100 characters in all. *)
Theorem preview_is_short (e : Email.t) :
  let text := if truthy (Email.body_text e) then Email.body_text e
              else Email.body_html e in
  (String.length (Email.preview e) <= 100)%nat
  /\ ((String.length text <= 100)%nat /\ Email.preview e = text
      \/ (100 < String.length text)%nat
         /\ Email.preview e = prefix 97 text +:+ "..."
         /\ String.length (Email.preview e) = 100%nat
         /\ startswith (prefix 97 text) text = true).
Proof.
  intros text. unfold Email.preview. fold text.
  destruct (Nat.ltb_spec 100 (String.length text)) as [Hlong|Hshort].
  - assert (Hlen : String.length (prefix 97 text +:+ "...") = 100%nat).
    { rewrite length_append, length_prefix by lia. reflexivity. }
    split; [lia|]. right. split; [exact Hlong|]. split; [reflexivity|].
    split; [exact Hlen | apply startswith_prefix].
  - split; [exact Hshort|]. left. split; [exact Hshort | reflexivity].
Qed.

Lemma has_char_app c a b : has_char c (a +:+ b) = has_char c a || has_char c b.
Proof.
  induction a as [|x a IH]; [reflexivity|].
  rewrite append_cons. cbn [has_char]. rewrite IH. apply orb_assoc.
Qed.

Lemma split_char_none sep s : has_char sep s = false -> split_char sep s = [s].
Proof.
  induction s as [|c s IH]; [reflexivity|]. cbn [has_char split_char].
  intros [Hc Hs]%orb_false_iff. rewrite Hc, IH by exact Hs. reflexivity.
Qed.

Lemma split_char_app sep a b :
  has_char sep a = false ->
  split_char sep (a +:+ String sep b) = a :: split_char sep b.
Proof.
  induction a as [|c a IH].
  - intros _. change (EmptyString +:+ String sep b) with (String sep b).
    cbn [split_char]. now rewrite Ascii.eqb_refl.
  - cbn [has_char]. intros [Hc Ha]%orb_false_iff.
    rewrite append_cons. cbn [split_char]. rewrite Hc, IH by exact Ha. reflexivity.
Qed.

Lemma contains_char_app c a b :
  contains (String c EmptyString) (a +:+ String c b) = true.
Proof.
  induction a as [|x a IH].
  - change (EmptyString +:+ String c b) with (String c b).
    rewrite contains_cons, startswith_cons, Ascii.eqb_refl. reflexivity.
  - rewrite append_cons, contains_cons, IH. apply orb_true_r.
Qed.

Lemma contains_char_none c s :
  has_char c s = false -> contains (String c EmptyString) s = false.
Proof.
  induction s as [|x s IH]; [reflexivity|]. cbn [has_char].
  intros [Hx Hs]%orb_false_iff. rewrite contains_cons, startswith_cons, IH by exact Hs.
  rewrite Ascii.eqb_sym, Hx. reflexivity.
Qed.

Lemma rstrip_chars_cons chars c s :
  rstrip_chars chars (String c s) =
  match rstrip_chars chars s with
  | EmptyString => if has_char c chars then EmptyString else String c EmptyString
  | String d r => String c (String d r)
  end.
Proof. reflexivity. Qed.

Lemma rstrip_chars_snoc chars c s :
  has_char c chars = true ->
  rstrip_chars chars (s +:+ String c EmptyString) = rstrip_chars chars s.
Proof.
  intros Hc. induction s as [|x s IH].
  - change (EmptyString +:+ String c EmptyString) with (String c EmptyString).
    rewrite rstrip_chars_cons. cbn [rstrip_chars]. now rewrite Hc.
  - rewrite append_cons, !rstrip_chars_cons, IH. reflexivity.
Qed.

Lemma lstrip_chars_snoc chars c s :
  has_char c chars = true ->
  lstrip_chars chars (s +:+ String c EmptyString) =
  match lstrip_chars chars s with
  | EmptyString => EmptyString
  | String d r => String d r +:+ String c EmptyString
  end.
Proof.
  intros Hc. induction s as [|x s IH].
  - change (EmptyString +:+ String c EmptyString) with (String c EmptyString).
    cbn [lstrip_chars]. now rewrite Hc.
  - rewrite append_cons. cbn [lstrip_chars].
    destruct (has_char x chars); [exact IH | reflexivity].
Qed.

Lemma strip_chars_snoc chars c s :
  has_char c chars = true ->
  strip_chars chars (s +:+ String c EmptyString) = strip_chars chars s.
Proof.
  intros Hc. unfold strip_chars. rewrite lstrip_chars_snoc by exact Hc.
  destruct (lstrip_chars chars s) as [|d r]; [reflexivity|].
  now apply rstrip_chars_snoc.
Qed.

Lemma strip_chars_none c s :
  has_char c s = false -> strip_chars (String c EmptyString) s = s.
Proof.
  intros Hs. unfold strip_chars.
  assert (Hl : lstrip_chars (String c EmptyString) s = s).
  { destruct s as [|x s]; [reflexivity|]. cbn [has_char] in Hs.
    apply orb_false_iff in Hs as [Hx _]. cbn [lstrip_chars has_char].
    rewrite Ascii.eqb_sym, Hx. reflexivity. }
  rewrite Hl. clear Hl. induction s as [|x s IH]; [reflexivity|].
  cbn [has_char] in Hs. apply orb_false_iff in Hs as [Hx Hs].
  rewrite rstrip_chars_cons, IH by exact Hs.
  destruct s; [|reflexivity]. cbn [has_char]. rewrite Ascii.eqb_sym, Hx. reflexivity.
Qed.

Lemma rstrip_snoc c s :
  is_space c = true -> rstrip (s +:+ String c EmptyString) = rstrip s.
Proof.
  intros Hc. induction s as [|x s IH].
  - change (EmptyString +:+ String c EmptyString) with (String c EmptyString).
    rewrite rstrip_cons. cbn [rstrip]. now rewrite Hc.
  - rewrite append_cons, !rstrip_cons, IH. reflexivity.
Qed.

Lemma lstrip_snoc c s :
  is_space c = true ->
  lstrip (s +:+ String c EmptyString) =
  match lstrip s with
  | EmptyString => EmptyString
  | String d r => String d r +:+ String c EmptyString
  end.
Proof.
  intros Hc. induction s as [|x s IH].
  - change (EmptyString +:+ String c EmptyString) with (String c EmptyString).
    cbn [lstrip]. now rewrite Hc.
  - rewrite append_cons. cbn [lstrip].
    destruct (is_space x); [exact IH | reflexivity].
Qed.

Lemma strip_snoc c s :
  is_space c = true -> strip (s +:+ String c EmptyString) = strip s.
Proof.
  intros Hc. unfold strip. rewrite lstrip_snoc by exact Hc.
  destruct (lstrip s) as [|d r]; [reflexivity|].
  now apply rstrip_snoc.
Qed.

(** X30: the sender of a message in the form [name <address>], where
    neither part holds an angle bracket: [from_email] is the address,
    and [from_name] the name without the white space and then the double
    quotes around it. *)
Theorem sender_is_split_at_the_bracket (e : Email.t) (name address : string) :
  Email.from_address e = name +:+ " <" +:+ address +:+ ">" ->
  has_char "<" name = false ->
  has_char "<" address = false ->
  has_char ">" address = false ->
  Email.from_email e = address
  /\ Email.from_name e = strip_chars (String DQUOTE EmptyString) (strip name).
Proof.
  intros Hfrom Hname Haddr Hclose.
  assert (Hform : Email.from_address e
                  = (name +:+ " ") +:+ String "<" (address +:+ ">")).
  { rewrite Hfrom. symmetry. apply append_snoc. }
  assert (Hsplit : split_char "<" (Email.from_address e)
                   = [name +:+ " "; address +:+ ">"]).
  { rewrite Hform, split_char_app.
    - rewrite split_char_none; [reflexivity|].
      rewrite has_char_app, Haddr. reflexivity.
    - rewrite has_char_app, Hname. reflexivity. }
  unfold Email.from_email, Email.from_name. rewrite Hsplit.
  rewrite Hform at 1 2. rewrite contains_char_app. cbn [nth]. split.
  - rewrite strip_chars_snoc by reflexivity. now apply strip_chars_none.
  - now rewrite strip_snoc by reflexivity.
Qed.

End ModelFacts.

(** ** The further properties, on the examples *)

Section MoreExamplesStore.

Import LocalProvider Example MoreExamples.

Lemma alice_well_keyed : well_keyed (_emails alice).
Proof.
  split.
  - repeat (apply NoDup_cons_2;
            [rewrite ?elem_of_cons, elem_of_nil; intuition discriminate|]).
    apply NoDup_nil_2.
  - repeat constructor.
Qed.

Lemma alice_dated : dated (H:=lib) (_emails alice).
Proof.
  unfold dated. repeat (constructor; [eexists; vm_compute; reflexivity|]). constructor.
Qed.



(** X1, the witness. *)
Lemma message_round_trip_witness :
  @fromisoformat lib (@isoformat lib (Email.date note)) = Some (Email.date note)
  /\ _dict_to_email (H:=lib) (_email_to_dict (H:=lib) note) alice world0
     = (Return (reloaded note), alice, world0)
  /\ (storable note -> reloaded note = note).
Proof.
  split; [reflexivity|].
  apply (@message_round_trip lib note alice world0). reflexivity.
Defined.

(** X2, the witness. *)
Lemma disconnected_provider_does_nothing_witness :
  connected offline = false
  /\ fetch_emails (H:=lib) "INBOX" 50 0 offline world0 = (Return [], offline, world0)
  /\ search_emails (H:=lib) "hello" None 50 offline world0 = (Return [], offline, world0)
  /\ get_email (H:=lib) "m1" offline world0 = (Return None, offline, world0)
  /\ get_attachment (H:=lib) "m1" "m1_0" offline world0 = (Return None, offline, world0)
  /\ send_email (H:=lib) ["bob@local"] "Hi" "Hello" None None None None None
                offline world0 = (Return false, offline, world0)
  /\ mark_read "m1" true offline world0 = (Return false, offline, world0)
  /\ delete_email "m1" offline world0 = (Return false, offline, world0)
  /\ receive_email (H:=lib) note offline world0 = (Return tt, offline, world0).
Proof.
  split; [reflexivity|].
  apply (@disconnected_provider_does_nothing lib offline world0 "INBOX" "hello" "m1"
           "m1_0" "Hi" "Hello" None None None 50 0 true ["bob@local"] None None None
           note).
  reflexivity.
Defined.





(** X7, the witness. *)
Lemma saved_mailbox_is_reloaded_witness :
  emails_file alice = file_of (email_address alice)
  /\ (emails_file alice ∉ write_protected world0)
  /\ exists s' w' p,
      disconnect alice world0 = (Return tt, s', w')
      /\ connected s' = false
      /\ _emails s' = _emails alice
      /\ init (Some (email_address alice)) None None None None None w'
         = (Return tt, p, w')
      /\ _emails p = _emails alice
      /\ connected p = false.
Proof.
  split; [reflexivity|]. split; [apply not_elem_of_empty|].
  apply (saved_mailbox_is_reloaded alice world0 None None None None None);
    [reflexivity | apply not_elem_of_empty].
Defined.


(** Dave's document holds bytes that are no text: no provider is built
    on it. *)
Example undecodable_document_stops_the_constructor :
  fst (fst (init (Some "dave@local") None None None None None world_binary))
  = Raise UnicodeDecodeError.
Proof. vm_compute. reflexivity. Qed.


(** The file system refuses the name of Zoe's document: [send_email]
    returns [False] and Alice's mailbox is as before, without the
    message. *)
Example refused_name_keeps_nothing :
  fst (send_email (H:=lib) ["zoe@example.com"] "Hi" "Hello" None None None None None
                  alice world_zoe_refused)
  = (Return false, alice).
Proof. vm_compute. reflexivity. Qed.




End MoreExamplesStore.

Section MoreExamplesMailbox.

Import LocalProvider Example MoreExamples.






(** With a full disk, Bob's document no longer loads after the failed
    delivery. *)
Example failed_delivery_cuts_the_document :
  fst (fst (send_email (H:=lib) ["bob@local"] "Hi" "Hello" None None None None None
                       carol world_bob_full)) = Return false
  /\ files (snd (send_email (H:=lib) ["bob@local"] "Hi" "Hello" None None None None None
                            carol world_bob_full)) !! file_of "bob@local"
     = Some Unreadable.
Proof. split; vm_compute; reflexivity. Qed.



(** X16, the witness. *)
Lemma mailbox_stays_keyed_by_id_witness :
  well_keyed (_emails alice)
  /\ well_keyed (_emails (snd (fst (mark_read "m1" true alice world0))))
  /\ well_keyed (_emails (snd (fst (delete_email "m1" alice world0))))
  /\ well_keyed (_emails (snd (fst (receive_email (H:=lib) note alice world0))))
  /\ well_keyed (_emails (snd (fst (send_email (H:=lib) ["bob@local"] "Hi" "Hello"
                                               None None None None None
                                               alice world0)))).
Proof.
  split; [exact alice_well_keyed|].
  apply (@mailbox_stays_keyed_by_id lib alice world0 "m1" true note ["bob@local"]
           "Hi" "Hello" None None None None None).
  exact alice_well_keyed.
Defined.

(** X17, the witness. *)
Lemma fetched_message_is_found_by_its_id_witness :
  connected alice = true
  /\ well_keyed (_emails alice)
  /\ dated (H:=lib) (_emails alice)
  /\ comparable (fst (stored_messages (H:=lib) (fun d => folder_of d = "INBOX")
                                      alice world0))
  /\ exists messages,
      fetch_emails (H:=lib) "INBOX" 50 0 alice world0 = (Return messages, alice, world0)
      /\ Forall (fun e => get_email (H:=lib) (Email.id e) alice world0
                          = (Return (Some e), alice, world0)) messages.
Proof.
  split; [reflexivity|]. split; [exact alice_well_keyed|]. split; [exact alice_dated|].
  split; [reflexivity|].
  apply (@fetched_message_is_found_by_its_id lib alice world0 "INBOX" 50 0);
    [reflexivity | exact alice_well_keyed | exact alice_dated | reflexivity].
Defined.

(** X18, the witness. *)
Lemma fetch_pages_join_witness :
  connected alice = true
  /\ dated (H:=lib) (_emails alice)
  /\ comparable (fst (stored_messages (H:=lib) (fun d => folder_of d = "INBOX")
                                      alice world0))
  /\ 0 <= 1 /\ 0 <= 1
  /\ exists first_page next_page both,
      fetch_emails (H:=lib) "INBOX" 1 0 alice world0 = (Return first_page, alice, world0)
      /\ fetch_emails (H:=lib) "INBOX" 1 1 alice world0
         = (Return next_page, alice, world0)
      /\ fetch_emails (H:=lib) "INBOX" (1 + 1) 0 alice world0
         = (Return both, alice, world0)
      /\ first_page ++ next_page = both.
Proof.
  split; [reflexivity|]. split; [exact alice_dated|]. split; [reflexivity|].
  split; [lia|]. split; [lia|].
  apply (@fetch_pages_join lib alice world0 "INBOX" 1 1);
    [reflexivity | exact alice_dated | reflexivity | lia | lia].
Defined.


Lemma alice_names_folders :
  Forall (fun d => is_Some (D.folder d)) (PyDict.values (_emails alice)).
Proof. repeat (constructor; [eexists; reflexivity|]). constructor. Qed.

(** X20, the witness. *)
Lemma empty_query_lists_the_folder_witness :
  connected alice = true
  /\ "INBOX" <> EmptyString
  /\ Forall (fun d => is_Some (D.folder d)) (PyDict.values (_emails alice))
  /\ search_emails (H:=lib) EmptyString (Some "INBOX") 10 alice world0
     = fetch_emails (H:=lib) "INBOX" 10 0 alice world0.
Proof.
  split; [reflexivity|]. split; [discriminate|]. split; [exact alice_names_folders|].
  apply (@empty_query_lists_the_folder lib alice world0 "INBOX" 10);
    [reflexivity | discriminate | exact alice_names_folders].
Defined.


(** A message of several parts with an HTML part only: the text body is
    the rendering of the HTML part, though no part gives a text. *)
Example html_part_alone_gives_the_text :
  let msg := IMAPProvider.Multipart [("Subject", "Hi")] "multipart/alternative" None
               [IMAPProvider.Part [] "text/html" None
                                  (list_byte_of_string "<p>Hello</p>")] in
  last_body (H:=lib) "text/plain" (IMAPProvider.walk msg) = EmptyString
  /\ Email.body_text (IMAPProvider._parse_email (H:=lib) (Naive 0) msg "7") = "Hello".
Proof. split; vm_compute; reflexivity. Qed.

(** The text body of the example is the second text; the attached text
    is the attachment. *)
Example second_text_is_the_body :
  IMAPProvider.body_text (IMAPProvider.parse_bodies (H:=lib) two_texts "7") = "second"
  /\ map Attachment.id
         (IMAPProvider.attachments (IMAPProvider.parse_bodies (H:=lib) two_texts "7"))
     = [Some "7_0"].
Proof. split; vm_compute; reflexivity. Qed.

End MoreExamplesMailbox.

Section MoreExamplesAddresses.

Import LocalEmailManager Example MoreExamples.

(** X24, the witness. *)
Lemma every_named_address_is_accepted_witness :
  "carol" <> EmptyString
  /\ email_address_exists ("carol" +:+ "@" +:+ "local") registry = false
  /\ addresses_protected office = false
  /\ exists acct m' w',
      create_email_address "carol" "local" registry office = (Ok acct, m', w')
      /\ email_address acct = "carol" +:+ "@" +:+ "local"
      /\ provider acct = "local"
      /\ get_email_addresses m'
         = get_email_addresses registry ++ [Some ("carol" +:+ "@" +:+ "local")]
      /\ email_address_exists ("carol" +:+ "@" +:+ "local") m' = true
      /\ init (self_storage_dir registry) w' = m'
      /\ store w' = store office.
Proof.
  split; [discriminate|]. split; [reflexivity|]. split; [reflexivity|].
  apply (every_named_address_is_accepted "carol" "local" registry office);
    [discriminate | reflexivity | reflexivity].
Defined.

(** X25, the witness. *)
Lemma duplicate_or_nameless_address_is_refused_witness :
  (email_address_exists ("alice" +:+ "@" +:+ "local") registry = true
   \/ "alice" = EmptyString)
  /\ create_email_address "alice" "local" registry office
     = (Raises ValueError, registry, office).
Proof.
  split; [left; reflexivity|].
  apply (duplicate_or_nameless_address_is_refused "alice" "local" registry office).
  left. reflexivity.
Defined.


(** When the list cannot be opened for writing, it stays as it is. *)
Example unopened_list_is_kept :
  snd (create_email_address "carol" "local" registry office_ro) = office_ro.
Proof. reflexivity. Qed.

Lemma carol_is_not_local : ~ is_local (store office) ("carol" +:+ "@" +:+ "local").
Proof. intros [doc Hdoc]. vm_compute in Hdoc. discriminate Hdoc. Qed.

(** X27, the witness. *)
Lemma new_address_is_not_local_yet_witness :
  "carol" <> EmptyString
  /\ email_address_exists ("carol" +:+ "@" +:+ "local") registry = false
  /\ addresses_protected office = false
  /\ ~ is_local (store office) ("carol" +:+ "@" +:+ "local")
  /\ (LocalProvider.file_of ("carol" +:+ "@" +:+ "local")
        ∉ LocalProvider.write_protected (store office))
  /\ exists acct m' w' p,
      create_email_address "carol" "local" registry office = (Ok acct, m', w')
      /\ get_provider_for_address ("carol" +:+ "@" +:+ "local") m' w' = (Ok (Some p), w')
      /\ LocalProvider._emails p = []
      /\ (forall sender,
            LocalProvider._is_local_address ("carol" +:+ "@" +:+ "local") sender (store w')
            = (LocalProvider.Return false, sender, store w'))
      /\ is_local (snd (LocalProvider.bind LocalProvider.connect
                          (fun _ => LocalProvider.disconnect) p (store w')))
                  ("carol" +:+ "@" +:+ "local").
Proof.
  split; [discriminate|]. split; [reflexivity|]. split; [reflexivity|].
  split; [exact carol_is_not_local|]. split; [apply not_elem_of_empty|].
  apply (new_address_is_not_local_yet "carol" "local" registry office);
    [discriminate | reflexivity | reflexivity | exact carol_is_not_local
     | apply not_elem_of_empty].
Defined.



(** Bob's mailbox document cannot be removed: [delete_email_address]
    raises after the list was saved without Bob, and the document
    stays. *)
Example locked_mailbox_outlives_its_address :
  fst (fst (delete_email_address "bob@local" registry office_locked)) = Raises OSError
  /\ get_email_addresses (snd (fst (delete_email_address "bob@local" registry office_locked)))
     = [Some "alice@local"]
  /\ addresses_file (snd (delete_email_address "bob@local" registry office_locked))
     = AddressList [entry "alice" "local"]
  /\ LocalProvider.files (store (snd (delete_email_address "bob@local" registry
                                                           office_locked)))
       !! LocalProvider.file_of "bob@local"
     = Some (LocalProvider.JsonObject []).
Proof. repeat split; vm_compute; reflexivity. Qed.

(** X30, the witness. *)
Lemma sender_is_split_at_the_bracket_witness :
  Email.from_address note = "Bob Builder" +:+ " <" +:+ "bob@local" +:+ ">"
  /\ PyStr.has_char "<" "Bob Builder" = false
  /\ PyStr.has_char "<" "bob@local" = false
  /\ PyStr.has_char ">" "bob@local" = false
  /\ Email.from_email note = "bob@local"
  /\ Email.from_name note
     = PyStr.strip_chars (String PyStr.DQUOTE EmptyString) (PyStr.strip "Bob Builder").
Proof.
  split; [reflexivity|]. split; [reflexivity|]. split; [reflexivity|].
  split; [reflexivity|].
  apply (sender_is_split_at_the_bracket note "Bob Builder" "bob@local"); reflexivity.
Defined.

End MoreExamplesAddresses.
